(** * The sequence indexer of the text-format reader

    A shallow embedding of [Source/Readers/ReaderLib/Indexer.cpp]: the
    block reader ([RefillBuffer]), the two boundary scanners
    ([BuildFromLines] and the key-grouped loop of [Build]), the key
    resolver ([TryGetSequenceId]) and the emitter
    ([AddSequenceIfIncluded]).

    Conventions of the embedding:
    - a [char] is a [byte]; [char*] values are addresses in [Z], the null
      pointer is [0], and the scan buffer lives at address [bufAddr];
      reading outside the buffer is the error [MemoryFault];
    - [int64_t] offsets and byte sizes are in [Z] (files are shorter than
      2^63 bytes), and so are the line counter and the sample counts; the
      [size_t] sequence id accumulated from digits wraps at 2^64;
    - [RuntimeError] is the outcome [Raise]; every [while] loop is a
      [Fixpoint] on fuel, and running out of fuel is the outcome
      [OutOfFuel], which the theorems exclude for enough fuel. *)

From Stdlib Require Import ZArith List Bool Lia.
From Stdlib Require Import Strings.Byte.
From Stdlib Require Strings.String DecimalString DecimalN.
Import ListNotations.
Open Scope Z_scope.

(* ================================================================= *)
(** ** Outcomes and the state-and-error monad *)

Inductive error : Type :=
| InputFileNotOpen            (* "Input file not open for reading" *)
| CouldNotRead                (* "Could not read from the input file." *)
| InputFileEmpty              (* "Input file is empty" *)
| ExpectedSequenceId (offset : Z)
                              (* "Expected a sequence id at the offset ..." *)
| AssertionFailed             (* a failed [assert] *)
| MemoryFault.                (* a load outside the scan buffer *)

Inductive outcome (S A : Type) : Type :=
| Ok (a : A) (s : S)
| Raise (e : error) (s : S)
| OutOfFuel.
Arguments Ok {S A} a s.
Arguments Raise {S A} e s.
Arguments OutOfFuel {S A}.

Definition M (S A : Type) : Type := S -> outcome S A.

Definition ret {S A} (a : A) : M S A := fun s => Ok a s.

Definition bind {S A B} (m : M S A) (k : A -> M S B) : M S B :=
  fun s => match m s with
           | Ok a s' => k a s'
           | Raise e s' => Raise e s'
           | OutOfFuel => OutOfFuel
           end.

Definition raise {S A} (e : error) : M S A := fun s => Raise e s.
Definition gets {S A} (f : S -> A) : M S A := fun s => Ok (f s) s.
Definition modify {S} (f : S -> S) : M S unit := fun s => Ok tt (f s).

(** Run a computation on a component of the state. *)
Definition zoom {S T A} (get : T -> S) (set : S -> T -> T) (m : M S A)
  : M T A :=
  fun t => match m (get t) with
           | Ok a s => Ok a (set s t)
           | Raise e s => Raise e (set s t)
           | OutOfFuel => OutOfFuel
           end.

Declare Scope monad_scope.
Delimit Scope monad_scope with monad.
Notation "x <- m ;; k" := (bind m (fun x => k))
  (at level 61, m at next level, right associativity) : monad_scope.
Notation "m ;; k" := (bind m (fun _ => k))
  (at level 61, right associativity) : monad_scope.
Notation "' pat <- m ;; k" := (bind m (fun x => match x with pat => k end))
  (at level 61, pat pattern, m at next level, right associativity)
  : monad_scope.
Open Scope monad_scope.

(* ================================================================= *)
(** ** Characters *)

Definition ROW_DELIMITER : byte := x0a.

Definition char_code (c : byte) : Z := Z.of_N (Byte.to_N c).

(** [isdigit] and [isspace] of the C locale. *)
Definition isdigit (c : byte) : bool :=
  (48 <=? char_code c) && (char_code c <=? 57).

Definition isspace (c : byte) : bool :=
  (char_code c =? 32) || ((9 <=? char_code c) && (char_code c <=? 13)).

Definition SIZE_MAX : Z := 2 ^ 64 - 1.

(** [std::to_string] of a [size_t]. *)
Definition to_string (n : Z) : list byte :=
  String.list_byte_of_string
    (DecimalString.NilZero.string_of_uint (N.to_uint (Z.to_N n))).

(* ================================================================= *)
(** ** The file

    A [FILE*] over the bytes [f_data], read sequentially.  [f_fails] is
    the condition of the device: when set, a read transfers nothing,
    returns a zero item count and sets the stream's error indicator
    [f_ferror], which is how [fread] reports a failure. *)

Record FILE : Type := mkFILE {
  f_data   : list byte;
  f_pos    : nat;
  f_fails  : bool;
  f_ferror : bool
}.

Definition open_file (data : list byte) : FILE :=
  mkFILE data 0 false false.

(** [fread(buf, 1, n, f)]: the bytes stored and the stream afterwards; the
    returned item count is the length of the bytes stored. *)
Definition fread (n : nat) (f : FILE) : list byte * FILE :=
  if f_fails f then ([], mkFILE (f_data f) (f_pos f) true true)
  else
    let d := firstn n (skipn (f_pos f) (f_data f)) in
    (d, mkFILE (f_data f) (f_pos f + length d) false (f_ferror f)).

Definition filesize (f : FILE) : Z := Z.of_nat (length (f_data f)).

(* ================================================================= *)
(** ** Configuration fixed at construction *)

Record Config : Type := mkConfig {
  m_streamPrefix      : byte;
  m_numericSequenceId : bool;
  m_bufferSize        : nat;
  (** address of the buffer [m_buffer.get()], never null *)
  bufBase             : positive;
  (** the identifier [sequenceKey] read by [AddSequenceIfIncluded]: it is
      not a parameter or local of that function and is declared nowhere in
      the file, so its binding is taken as given. *)
  sequenceKey         : Z
}.

Definition bufAddr (cfg : Config) : Z := Z.pos (bufBase cfg).

(* ================================================================= *)
(** ** The scan cursor *)

Record Cursor : Type := mkCursor {
  m_file            : FILE;
  m_fileOffsetStart : Z;
  m_fileOffsetEnd   : Z;
  m_buffer          : list byte;   (* the memory at [bufAddr] *)
  m_bufferStart     : Z;
  m_bufferEnd       : Z;
  m_pos             : Z;
  m_done            : bool
}.

Definition set_pos (p : Z) (c : Cursor) : Cursor :=
  mkCursor (m_file c) (m_fileOffsetStart c) (m_fileOffsetEnd c)
           (m_buffer c) (m_bufferStart c) (m_bufferEnd c) p (m_done c).

(** Memory after [fread] stored [d] at the start of the buffer. *)
Definition store (d mem : list byte) : list byte :=
  d ++ skipn (length d) mem.

(** [*p] *)
Definition load (cfg : Config) (mem : list byte) (p : Z) : option byte :=
  if bufAddr cfg <=? p then nth_error mem (Z.to_nat (p - bufAddr cfg))
  else None.

(** The [n] bytes at address [p], when they all lie in the buffer. *)
Definition window (cfg : Config) (mem : list byte) (p n : Z)
  : option (list byte) :=
  if (bufAddr cfg <=? p) && (0 <=? n)
     && (p + n <=? bufAddr cfg + Z.of_nat (length mem))
  then Some (firstn (Z.to_nat n) (skipn (Z.to_nat (p - bufAddr cfg)) mem))
  else None.

Fixpoint find_byte (c : byte) (l : list byte) : option nat :=
  match l with
  | [] => None
  | x :: l' => if Byte.eqb x c then Some O
               else option_map S (find_byte c l')
  end.

(** [memchr(p, c, n)]: [None] is a fault, [Some 0] the null pointer. *)
Definition memchr (cfg : Config) (mem : list byte) (p : Z) (c : byte)
  (n : Z) : option Z :=
  match window cfg mem p n with
  | None => None
  | Some w => match find_byte c w with
              | Some i => Some (p + Z.of_nat i)
              | None => Some 0
              end
  end.

(** Modelled from the spec: [GetFileOffset] is declared in the absent
    header; the spec gives the current absolute read offset as the buffer's
    start offset plus the distance of the position from the buffer start. *)
Definition GetFileOffset (c : Cursor) : Z :=
  m_fileOffsetStart c + (m_pos c - m_bufferStart c).

Definition RefillBuffer (cfg : Config) : M Cursor unit :=
  fun c =>
    if negb (m_done c) then
      let '(d, f') := fread (m_bufferSize cfg) (m_file c) in
      let bytesRead := Z.of_nat (length d) in
      let mem := store d (m_buffer c) in
      if bytesRead =? SIZE_MAX then
        Raise CouldNotRead
          (mkCursor f' (m_fileOffsetStart c) (m_fileOffsetEnd c) mem
                    (m_bufferStart c) (m_bufferEnd c) (m_pos c) (m_done c))
      else if bytesRead =? 0 then
        Ok tt
          (mkCursor f' (m_fileOffsetStart c) (m_fileOffsetEnd c) mem
                    (m_bufferStart c) (m_bufferEnd c) (m_pos c) true)
      else
        Ok tt
          (mkCursor f' (m_fileOffsetEnd c) (m_fileOffsetEnd c + bytesRead)
                    mem (bufAddr cfg) (bufAddr cfg + bytesRead)
                    (bufAddr cfg) (m_done c))
    else Ok tt c.

Fixpoint SkipLine (cfg : Config) (fuel : nat) : M Cursor unit :=
  match fuel with
  | O => fun _ => OutOfFuel
  | S fuel' => fun c =>
      if negb (m_done c) then
        match memchr cfg (m_buffer c) (m_pos c) ROW_DELIMITER
                     (m_bufferEnd c - m_pos c) with
        | None => Raise MemoryFault c
        | Some p =>
            let c1 := set_pos p c in
            if negb (m_pos c1 =? 0) then
              (* found a new-line character *)
              let c2 := set_pos (m_pos c1 + 1) c1 in
              if m_pos c2 =? m_bufferEnd c2 then RefillBuffer cfg c2
              else Ok tt c2
            else (RefillBuffer cfg ;; SkipLine cfg fuel') c1
        end
      else Ok tt c
  end.

(* ================================================================= *)
(** ** The collaborators: registry, corpus, index sink *)

Definition key : Type := list byte.

Definition key_eqb (a b : key) : bool :=
  if list_eq_dec byte_eq_dec a b then true else false.

(** Modelled from the spec: the string registry ([StringToIdMap], declared
    outside this file) is a bidirectional mapping from textual key to a
    stable integer id, assigned on first sight in insertion order:
    [tryGet(key) -> (found, id)], [addValue(key) -> integer] (assigns the
    next id), [lookup(id) -> string]; indexing by a string is get-or-create.
    The registry is the list of its keys in insertion order, the id of a key
    its index.  The spec gives [lookup] no failure; an id never assigned is
    looked up as the empty string. *)
Definition StringToIdMap : Type := list key.

Fixpoint index_of (k : key) (r : StringToIdMap) : option nat :=
  match r with
  | [] => None
  | x :: r' => if key_eqb x k then Some O else option_map S (index_of k r')
  end.

Definition TryGet (k : key) (r : StringToIdMap) : option Z :=
  option_map Z.of_nat (index_of k r).

Definition AddValue (k : key) (r : StringToIdMap) : Z * StringToIdMap :=
  (Z.of_nat (length r), r ++ [k]).

(** [registry[key]] *)
Definition intern (k : key) (r : StringToIdMap) : Z * StringToIdMap :=
  match TryGet k r with
  | Some i => (i, r)
  | None => AddValue k r
  end.

(** [registry[id]] *)
Definition lookup (id : Z) (r : StringToIdMap) : key :=
  if 0 <=? id then nth (Z.to_nat id) r [] else [].

(** Modelled from the spec: the corpus descriptor (declared outside this
    file) offers [isIncluded(key) -> bool] and [getRegistry()]. *)
Record Corpus : Type := mkCorpus {
  IsIncluded : key -> bool;
  registry   : StringToIdMap
}.

(** Modelled from the spec: a sequence descriptor (declared outside this
    file) has [fileOffsetBytes], [byteSize], [numberOfSamples] and a key
    composed of [sequence] and [sample]. *)
Record SequenceDescriptor : Type := mkSD {
  m_key_sequence    : Z;
  m_key_sample      : Z;
  m_fileOffsetBytes : Z;
  m_byteSize        : Z;
  m_numberOfSamples : Z
}.

(** [SequenceDescriptor sd = {}] *)
Definition sd_zero : SequenceDescriptor := mkSD 0 0 0 0 0.

(** Modelled from the spec: the index sink (class [Index], declared outside
    this file) offers [isEmpty() -> bool], [reserve(estimatedByteSize)] and
    [append(descriptor)]; chunk size and the primary flag are hints it only
    stores.  The sink records the hints it was given and the descriptors
    appended, in order. *)
Record Index : Type := mkIndex {
  idx_chunkSize : Z;
  idx_isPrimary : bool;
  idx_reserved  : list Z;
  idx_sequences : list SequenceDescriptor
}.

Definition IsEmpty (i : Index) : bool :=
  match idx_sequences i with [] => true | _ => false end.

Definition Reserve (n : Z) (i : Index) : Index :=
  mkIndex (idx_chunkSize i) (idx_isPrimary i) (idx_reserved i ++ [n])
          (idx_sequences i).

Definition AddSequence (sd : SequenceDescriptor) (i : Index) : Index :=
  mkIndex (idx_chunkSize i) (idx_isPrimary i) (idx_reserved i)
          (idx_sequences i ++ [sd]).

(* ================================================================= *)
(** ** The indexer and its corpus

    [calls] is a ghost log, absent from the code: the arguments of every
    invocation of [AddSequenceIfIncluded], in order.  It is what the scanner
    discovers, before the corpus filter. *)

Record World : Type := mkWorld {
  cur              : Cursor;
  m_hasSequenceIds : bool;
  m_index          : Index;
  corpus           : Corpus;
  calls            : list (Z * SequenceDescriptor)
}.

Definition set_cur (c : Cursor) (w : World) : World :=
  mkWorld c (m_hasSequenceIds w) (m_index w) (corpus w) (calls w).

Definition set_registry (r : StringToIdMap) (w : World) : World :=
  mkWorld (cur w) (m_hasSequenceIds w) (m_index w)
          (mkCorpus (IsIncluded (corpus w)) r) (calls w).

Definition set_index (i : Index) (w : World) : World :=
  mkWorld (cur w) (m_hasSequenceIds w) i (corpus w) (calls w).

Definition set_hasSequenceIds (b : bool) (w : World) : World :=
  mkWorld (cur w) b (m_index w) (corpus w) (calls w).

Definition log_call (id : Z) (sd : SequenceDescriptor) (w : World) : World :=
  mkWorld (cur w) (m_hasSequenceIds w) (m_index w) (corpus w)
          (calls w ++ [(id, sd)]).

Definition on_cursor {A} (m : M Cursor A) : M World A := zoom cur set_cur m.

(** The constructor.  [heap] is the content of the freshly allocated,
    uninitialised buffer of [bufferSize + 1] bytes. *)
Definition Indexer_new (cfg : Config) (isPrimary : bool)
  (file : option FILE) (skipSequenceIds : bool) (chunkSize : Z)
  (heap : nat -> byte) (corp : Corpus) : error + World :=
  match file with
  | None => inl InputFileNotOpen
  | Some f =>
      inr (mkWorld
             (mkCursor f 0 0
                (map heap (seq 0 (m_bufferSize cfg + 1))) 0 0 0 false)
             (negb skipSequenceIds)
             (mkIndex chunkSize isPrimary [] [])
             corp [])
  end.

(** The stored descriptor: [sd.m_key.m_sequence = id; sd.m_key.m_sample = 0]. *)
Definition with_key (id : Z) (sd : SequenceDescriptor) : SequenceDescriptor :=
  mkSD id 0 (m_fileOffsetBytes sd) (m_byteSize sd) (m_numberOfSamples sd).

(** [sequenceId] is the parameter; the body reads [sequenceKey].  The
    descriptor is taken by reference and its key is written, but no caller
    reads it again, so the written descriptor is only handed to the sink. *)
Definition AddSequenceIfIncluded (cfg : Config) (sequenceId : Z)
  (sd : SequenceDescriptor) : M World unit :=
  modify (log_call sequenceId sd) ;;
  fun w =>
    if m_numericSequenceId cfg then
      let k := to_string (sequenceKey cfg) in
      if IsIncluded (corpus w) k then
        let '(id, r) := intern k (registry (corpus w)) in
        Ok tt (set_index (AddSequence (with_key id sd) (m_index w))
                         (set_registry r w))
      else Ok tt w
    else
      let k := lookup (sequenceKey cfg) (registry (corpus w)) in
      if IsIncluded (corpus w) k then
        let '(id, r) := intern k (registry (corpus w)) in
        Ok tt (set_index (AddSequence (with_key id sd) (m_index w))
                         (set_registry r w))
      else Ok tt w.

(* ================================================================= *)
(** ** The key resolver *)

(** How a loop body leaves: by a [return] of the function, or by falling
    out of the loop with its variables. *)
Inductive flow (R T : Type) : Type :=
| Return (r : R)
| Next (t : T).
Arguments Return {R T} r.
Arguments Next {R T} t.

(** The inner loop [while (m_pos != m_bufferEnd)] over the locals
    [found], [id], [key]. *)
Fixpoint TryGetSequenceId_chars (cfg : Config) (fuel : nat)
  (found : bool) (id : Z) (k : key)
  : M World (flow (bool * Z) (bool * Z * key)) :=
  match fuel with
  | O => fun _ => OutOfFuel
  | S fuel' => fun w =>
      let c := cur w in
      if negb (m_pos c =? m_bufferEnd c) then
        match load cfg (m_buffer c) (m_pos c) with
        | None => Raise MemoryFault w
        | Some ch =>
            if m_numericSequenceId cfg then
              if negb (isdigit ch) then Ok (Return (found, id)) w
              else
                TryGetSequenceId_chars cfg fuel' true
                  ((id * 10 + (char_code ch - 48)) mod 2 ^ 64) k
                  (set_cur (set_pos (m_pos c + 1) c) w)
            else
              if isspace ch then
                if found then
                  match TryGet k (registry (corpus w)) with
                  | Some i => Ok (Return (found, i)) w
                  | None =>
                      let '(i, r) := AddValue k (registry (corpus w)) in
                      Ok (Return (found, i)) (set_registry r w)
                  end
                else Ok (Return (found, id)) w
              else
                TryGetSequenceId_chars cfg fuel' true id (k ++ [ch])
                  (set_cur (set_pos (m_pos c + 1) c) w)
        end
      else Ok (Next (found, id, k)) w
  end.

(** The outer loop [while (!m_done)]. *)
Fixpoint TryGetSequenceId_loop (cfg : Config) (fuel : nat)
  (found : bool) (id : Z) (k : key) : M World (bool * Z) :=
  match fuel with
  | O => fun _ => OutOfFuel
  | S fuel' => fun w =>
      if negb (m_done (cur w)) then
        (r <- TryGetSequenceId_chars cfg fuel' found id k ;;
         match r with
         | Return v => ret v
         | Next (found', id', k') =>
             on_cursor (RefillBuffer cfg) ;;
             TryGetSequenceId_loop cfg fuel' found' id' k'
         end) w
      else
        (* reached EOF without hitting the pipe character *)
        Ok (false, id) w
  end.

(** Returns [found] and the value left in the out-parameter [id]. *)
Definition TryGetSequenceId (cfg : Config) (fuel : nat) : M World (bool * Z) :=
  TryGetSequenceId_loop cfg fuel false 0 [].

(* ================================================================= *)
(** ** The boundary scanners *)

Definition inc_pos (w : World) : World :=
  set_cur (set_pos (m_pos (cur w) + 1) (cur w)) w.

(** The loop of [BuildFromLines] over the locals [lines] and [offset]. *)
Fixpoint BuildFromLines_loop (cfg : Config) (fuel : nat) (lines offset : Z)
  : M World (Z * Z) :=
  match fuel with
  | O => fun _ => OutOfFuel
  | S fuel' => fun w =>
      let c := cur w in
      if negb (m_done c) then
        match memchr cfg (m_buffer c) (m_pos c) ROW_DELIMITER
                     (m_bufferEnd c - m_pos c) with
        | None => Raise MemoryFault w
        | Some p =>
            let w1 := set_cur (set_pos p c) w in
            if negb (m_pos (cur w1) =? 0) then
              let offset' := GetFileOffset (cur w1) + 1 in
              let sd := mkSD 0 0 offset (offset' - offset) 1 in
              (AddSequenceIfIncluded cfg lines sd ;;
               modify inc_pos ;;
               BuildFromLines_loop cfg fuel' (lines + 1) offset') w1
            else
              (on_cursor (RefillBuffer cfg) ;;
               BuildFromLines_loop cfg fuel' lines offset) w1
        end
      else Ok (lines, offset) w
  end.

Definition BuildFromLines (cfg : Config) (fuel : nat) : M World unit :=
  fun w =>
    if negb (m_pos (cur w) =? m_bufferStart (cur w)) then
      Raise AssertionFailed w
    else
      ('(lines, offset) <- BuildFromLines_loop cfg fuel 0
                             (GetFileOffset (cur w)) ;;
       fun w' =>
         if offset <? m_fileOffsetEnd (cur w') then
           (* a number of characters not terminated by a newline *)
           AddSequenceIfIncluded cfg lines
             (mkSD 0 0 offset (m_fileOffsetEnd (cur w') - offset) 1) w'
         else Ok tt w')
        (set_hasSequenceIds false w).

Definition add_sample (sd : SequenceDescriptor) : SequenceDescriptor :=
  mkSD (m_key_sequence sd) (m_key_sample sd) (m_fileOffsetBytes sd)
       (m_byteSize sd) (m_numberOfSamples sd + 1).

Definition set_byteSize (n : Z) (sd : SequenceDescriptor)
  : SequenceDescriptor :=
  mkSD (m_key_sequence sd) (m_key_sample sd) (m_fileOffsetBytes sd)
       n (m_numberOfSamples sd).

(** [sd = {}; sd.m_fileOffsetBytes = offset] *)
Definition sd_at (offset : Z) : SequenceDescriptor := mkSD 0 0 offset 0 0.

(** The key-grouped loop of [Build] over the locals [sd] and
    [currentKey]. *)
Fixpoint Build_loop (cfg : Config) (fuel : nat) (sd : SequenceDescriptor)
  (currentKey : Z) : M World (SequenceDescriptor * Z) :=
  match fuel with
  | O => fun _ => OutOfFuel
  | S fuel' => fun w =>
      if negb (m_done (cur w)) then
        (on_cursor (SkipLine cfg fuel') ;;   (* ignore the rest of the line *)
         offset <- gets (fun w => GetFileOffset (cur w)) ;;
         let sd1 := add_sample sd in
         done <- gets (fun w => m_done (cur w)) ;;
         if negb done then
           '(found, id) <- TryGetSequenceId cfg fuel' ;;
           if found && negb (id =? currentKey) then
             (* a new sequence starts at [offset] *)
             AddSequenceIfIncluded cfg currentKey
               (set_byteSize (offset - m_fileOffsetBytes sd1) sd1) ;;
             Build_loop cfg fuel' (sd_at offset) id
           else Build_loop cfg fuel' sd1 currentKey
         else Build_loop cfg fuel' sd1 currentKey) w
      else Ok (sd, currentKey) w
  end.

Definition BOM0 : byte := xef.
Definition BOM1 : byte := xbb.
Definition BOM2 : byte := xbf.

(** [p[i] == b] *)
Definition byte_at_is (cfg : Config) (c : Cursor) (p : Z) (b : byte)
  : option bool :=
  option_map (fun x => Byte.eqb x b) (load cfg (m_buffer c) p).

(** The test for the UTF-8 BOM, with the short-circuit evaluation of
    [&&]. *)
Definition has_bom (cfg : Config) (c : Cursor) : option bool :=
  if m_bufferEnd c - m_bufferStart c >? 3 then
    match byte_at_is cfg c (m_bufferStart c) BOM0 with
    | None => None
    | Some false => Some false
    | Some true =>
        match byte_at_is cfg c (m_bufferStart c + 1) BOM1 with
        | None => None
        | Some false => Some false
        | Some true => byte_at_is cfg c (m_bufferStart c + 2) BOM2
        end
    end
  else Some false.

Definition skip_bom (c : Cursor) : Cursor :=
  mkCursor (m_file c) (m_fileOffsetStart c + 3) (m_fileOffsetEnd c)
           (m_buffer c) (m_bufferStart c + 3) (m_bufferEnd c)
           (m_pos c + 3) (m_done c).

(** [!m_hasSequenceIds || m_bufferStart[0] == m_streamPrefix] *)
Definition lines_mode (cfg : Config) (w : World) : option bool :=
  if negb (m_hasSequenceIds w) then Some true
  else byte_at_is cfg (cur w) (m_bufferStart (cur w)) (m_streamPrefix cfg).

Definition Build (cfg : Config) (fuel : nat) : M World unit :=
  fun w =>
    if negb (IsEmpty (m_index w)) then Ok tt w
    else
      (modify (fun w => set_index
                 (Reserve (filesize (m_file (cur w))) (m_index w)) w) ;;
       on_cursor (RefillBuffer cfg) ;;   (* read the first block of data *)
       done <- gets (fun w => m_done (cur w)) ;;
       if done then raise InputFileEmpty
       else
         bom <- (fun w => match has_bom cfg (cur w) with
                          | None => Raise MemoryFault w
                          | Some b => Ok b w
                          end) ;;
         (if bom then modify (fun w => set_cur (skip_bom (cur w)) w)
          else ret tt) ;;
         (* check the first byte and decide what to do next *)
         lm <- (fun w => match lines_mode cfg w with
                         | None => Raise MemoryFault w
                         | Some b => Ok b w
                         end) ;;
         if lm then BuildFromLines cfg fuel
         else
           offset <- gets (fun w => GetFileOffset (cur w)) ;;
           (* read the very first sequence id *)
           '(found, id) <- TryGetSequenceId cfg fuel ;;
           if negb found then raise (ExpectedSequenceId offset)
           else
             '(sd, currentKey) <- Build_loop cfg fuel (sd_at offset) id ;;
             (* calculate the byte size for the last sequence *)
             end_ <- gets (fun w => m_fileOffsetEnd (cur w)) ;;
             AddSequenceIfIncluded cfg currentKey
               (set_byteSize (end_ - m_fileOffsetBytes sd) sd)) w.

(* ================================================================= *)
(** ** The scan seen from the file: what is left to read

    The functions below describe the scanners on the bytes of the file that
    are still ahead of the cursor, with no buffer.  The refinement lemmas
    relate the buffered code to them. *)

(** The bytes between [m_pos] and [m_bufferEnd]. *)
Definition buffered (cfg : Config) (c : Cursor) : list byte :=
  firstn (Z.to_nat (m_bufferEnd c - m_pos c))
         (skipn (Z.to_nat (m_pos c - bufAddr cfg)) (m_buffer c)).

(** The bytes of the file not yet read into the buffer. *)
Definition unread (c : Cursor) : list byte :=
  skipn (f_pos (m_file c)) (f_data (m_file c)).

(** The cursor is before the bytes [r] of [data]: the buffered bytes
    followed by the unread ones. *)
Record Live (cfg : Config) (data : list byte) (c : Cursor) (r : list byte)
  : Prop := mkLive {
  live_done  : m_done c = false;
  live_data  : f_data (m_file c) = data;
  live_fails : f_fails (m_file c) = false;
  live_end   : m_fileOffsetEnd c = Z.of_nat (f_pos (m_file c));
  live_fpos  : (f_pos (m_file c) <= length data)%nat;
  live_ptrs  : bufAddr cfg <= m_bufferStart c <= m_pos c /\
               m_pos c <= m_bufferEnd c
                       <= bufAddr cfg + Z.of_nat (length (m_buffer c));
  live_start : m_fileOffsetStart c
               = m_fileOffsetEnd c - (m_bufferEnd c - m_bufferStart c);
  live_rest  : r = buffered cfg c ++ unread c;
  live_len   : (length r <= length data)%nat
}.

(** The buffer has been used up (whatever the pointers are): [r] is what
    the file still holds. *)
Record Drained (data : list byte) (c : Cursor) (r : list byte) : Prop :=
  mkDrained {
  dr_done  : m_done c = false;
  dr_data  : f_data (m_file c) = data;
  dr_fails : f_fails (m_file c) = false;
  dr_end   : m_fileOffsetEnd c = Z.of_nat (f_pos (m_file c));
  dr_fpos  : (f_pos (m_file c) <= length data)%nat;
  dr_rest  : r = unread c
}.

(** End of file has been seen. *)
Record Finished (data : list byte) (c : Cursor) : Prop := mkFinished {
  fin_done : m_done c = true;
  fin_end  : m_fileOffsetEnd c = Z.of_nat (length data)
}.

(** The state between two steps of the key-grouped scanner: a byte is
    buffered at the position, or the end of file has been seen. *)
Definition Ready (cfg : Config) (data : list byte) (c : Cursor)
  (r : list byte) : Prop :=
  (Live cfg data c r /\ m_pos c < m_bufferEnd c) \/
  (r = [] /\ Finished data c).

(** *** Lines *)

Definition is_nl (c : byte) : bool := Byte.eqb c ROW_DELIMITER.

(** What [SkipLine] leaves: the bytes after the first row delimiter. *)
Fixpoint skip_line (r : list byte) : list byte :=
  match r with
  | [] => []
  | c :: r' => if is_nl c then r' else skip_line r'
  end.

(** The invocations of the emitter by [BuildFromLines] from the bytes [r]
    at offset [at_], for a line begun at [start], and the final values of
    [lines] and [offset]. *)
Fixpoint lines_scan (r : list byte) (start at_ lines : Z)
  : list (Z * SequenceDescriptor) * (Z * Z) :=
  match r with
  | [] => ([], (lines, start))
  | c :: r' =>
      if is_nl c then
        let '(l, fin) := lines_scan r' (at_ + 1) (at_ + 1) (lines + 1) in
        ((lines, mkSD 0 0 start (at_ + 1 - start) 1) :: l, fin)
      else lines_scan r' start (at_ + 1) lines
  end.

(** *** Keys *)

Inductive key_scan : Type :=
| KeyStop (found : bool) (id : Z) (k : key) (rest : list byte)
| KeyEof (found : bool) (id : Z) (k : key).

(** The character loop of [TryGetSequenceId] on the bytes ahead. *)
Fixpoint scan_key (numeric : bool) (r : list byte) (found : bool) (id : Z)
  (k : key) : key_scan :=
  match r with
  | [] => KeyEof found id k
  | ch :: r' =>
      if numeric then
        if negb (isdigit ch) then KeyStop found id k r
        else scan_key numeric r' true
               ((id * 10 + (char_code ch - 48)) mod 2 ^ 64) k
      else
        if isspace ch then KeyStop found id k r
        else scan_key numeric r' true id (k ++ [ch])
  end.

(** How [TryGetSequenceId] leaves after the character loop: the result, the
    out-parameter, the bytes left, and the registry. *)
Definition finish_key (numeric : bool) (ks : key_scan) (reg : StringToIdMap)
  : bool * Z * list byte * StringToIdMap :=
  match ks with
  | KeyStop found id k rest =>
      if negb numeric && found then
        (found, fst (intern k reg), rest, snd (intern k reg))
      else (found, id, rest, reg)
  | KeyEof _ id _ => (false, id, [], reg)
  end.

(** [TryGetSequenceId] on the bytes ahead. *)
Definition resolve_key (numeric : bool) (r : list byte) (reg : StringToIdMap)
  : bool * Z * list byte * StringToIdMap :=
  finish_key numeric (scan_key numeric r false 0 []) reg.

(** *** Emission *)

(** The effect of [AddSequenceIfIncluded]. *)
Definition emit (cfg : Config) (sequenceId : Z) (sd : SequenceDescriptor)
  (w : World) : World :=
  let w1 := log_call sequenceId sd w in
  let k := if m_numericSequenceId cfg then to_string (sequenceKey cfg)
           else lookup (sequenceKey cfg) (registry (corpus w1)) in
  if IsIncluded (corpus w1) k then
    set_index (AddSequence (with_key (fst (intern k (registry (corpus w1))))
                                     sd) (m_index w1))
              (set_registry (snd (intern k (registry (corpus w1)))) w1)
  else w1.

Definition emit_all (cfg : Config) (l : list (Z * SequenceDescriptor))
  (w : World) : World :=
  fold_left (fun w x => emit cfg (fst x) (snd x) w) l w.

(** The key-grouped loop of [Build] on the bytes ahead [r] of a file of [n]
    bytes; [steps] bounds the number of lines. *)
Fixpoint key_groups (cfg : Config) (n : Z) (steps : nat) (r : list byte)
  (sd : SequenceDescriptor) (currentKey : Z) (w : World)
  : SequenceDescriptor * Z * World :=
  match steps with
  | O => (sd, currentKey, w)
  | S steps' =>
      match r with
      | [] => (sd, currentKey, w)
      | _ :: _ =>
          let r1 := skip_line r in
          let offset := n - Z.of_nat (length r1) in
          let sd1 := add_sample sd in
          match r1 with
          | [] => (sd1, currentKey, w)
          | _ :: _ =>
              let '(found, id, r2, reg) :=
                resolve_key (m_numericSequenceId cfg) r1
                            (registry (corpus w)) in
              let w1 := set_registry reg w in
              if found && negb (id =? currentKey) then
                key_groups cfg n steps' r2 (sd_at offset) id
                  (emit cfg currentKey
                     (set_byteSize (offset - m_fileOffsetBytes sd1) sd1) w1)
              else key_groups cfg n steps' r2 sd1 currentKey w1
          end
      end
  end.

Definition starts_with_bom (data : list byte) : bool :=
  match data with
  | b0 :: b1 :: b2 :: _ =>
      Byte.eqb b0 BOM0 && Byte.eqb b1 BOM1 && Byte.eqb b2 BOM2
  | _ => false
  end.

(** The BOM is skipped when the first block holds more than three bytes and
    begins with it. *)
Definition bom_skipped (bufferSize : nat) (data : list byte) : bool :=
  (3 <? Z.of_nat (Nat.min bufferSize (length data)))
  && starts_with_bom data.

Definition first_is (b : byte) (r : list byte) : bool :=
  match r with
  | c :: _ => Byte.eqb c b
  | [] => false
  end.

(** What a scan makes known outside the indexer. *)
Inductive observation : Type :=
| Completed (w : World)
| Failed (e : error) (w : World)
| Unfinished.

(** [Build] on a file holding [data], seen from the file; the cursor of the
    worlds it returns is not meaningful. *)
Definition scan (cfg : Config) (data : list byte) (w : World) : observation :=
  if negb (IsEmpty (m_index w)) then Completed w
  else
    let n := Z.of_nat (length data) in
    let w0 := set_index (Reserve n (m_index w)) w in
    match data with
    | [] => Failed InputFileEmpty w0
    | _ :: _ =>
        let bom := bom_skipped (m_bufferSize cfg) data in
        let r := if bom then skipn 3 data else data in
        let start := if bom then 3 else 0 in
        if negb (m_hasSequenceIds w0) || first_is (m_streamPrefix cfg) r then
          let '(l, (lines, offset)) := lines_scan r start start 0 in
          let w1 := emit_all cfg l (set_hasSequenceIds false w0) in
          if offset <? n then
            Completed (emit cfg lines (mkSD 0 0 offset (n - offset) 1) w1)
          else Completed w1
        else
          let '(found, id, r1, reg) :=
            resolve_key (m_numericSequenceId cfg) r (registry (corpus w0)) in
          let w1 := set_registry reg w0 in
          if negb found then Failed (ExpectedSequenceId start) w1
          else
            let '(sd, currentKey, w2) :=
              key_groups cfg n (S (length r1)) r1 (sd_at start) id w1 in
            Completed (emit cfg currentKey
                         (set_byteSize (n - m_fileOffsetBytes sd) sd) w2)
    end.

(** The part of a world outside the cursor. *)
Definition outside (w : World)
  : bool * Index * Corpus * list (Z * SequenceDescriptor) :=
  (m_hasSequenceIds w, m_index w, corpus w, calls w).

Inductive same_outside : observation -> observation -> Prop :=
| so_completed w w' :
    outside w = outside w' -> same_outside (Completed w) (Completed w')
| so_failed e w w' :
    outside w = outside w' -> same_outside (Failed e w) (Failed e w').

Definition observe (o : outcome World unit) : observation :=
  match o with
  | Ok _ w => Completed w
  | Raise e w => Failed e w
  | OutOfFuel => Unfinished
  end.

(* ================================================================= *)
(** ** Vocabulary of the theorems *)

(** The indexer right after construction on an open file. *)
Definition fresh (cfg : Config) (isPrimary skipSequenceIds : bool)
  (chunkSize : Z) (heap : nat -> byte) (corp : Corpus) (data : list byte)
  : World :=
  mkWorld
    (mkCursor (open_file data) 0 0
       (map heap (seq 0 (m_bufferSize cfg + 1))) 0 0 0 false)
    (negb skipSequenceIds) (mkIndex chunkSize isPrimary [] []) corp [].

(** Fuel that lets every loop of [Build] run to its end on [data]. *)
Definition enough_fuel (data : list byte) : nat := 3 * length data + 4.

(** Apply [f] to the world an observation ends in. *)
Definition map_observation (f : World -> World) (o : observation)
  : observation :=
  match o with
  | Completed w => Completed (f w)
  | Failed e w => Failed e (f w)
  | Unfinished => Unfinished
  end.

(** The bytes the scanners start from and their offset. *)
Definition scanned (cfg : Config) (data : list byte) : list byte :=
  if bom_skipped (m_bufferSize cfg) data then skipn 3 data else data.

Definition startOffset (cfg : Config) (data : list byte) : Z :=
  if bom_skipped (m_bufferSize cfg) data then 3 else 0.

(** The first key is found by [TryGetSequenceId]. *)
Definition first_key_found (cfg : Config) (data : list byte)
  (reg : StringToIdMap) : bool :=
  fst (fst (fst (resolve_key (m_numericSequenceId cfg) (scanned cfg data)
                             reg))).

(** [BuildFromLines] is chosen. *)
Definition by_lines (cfg : Config) (skipSequenceIds : bool)
  (data : list byte) : bool :=
  skipSequenceIds || first_is (m_streamPrefix cfg) (scanned cfg data).

(** The descriptors [l] cover [[a, b)] in order: each begins where the
    previous one ends, and none is empty. *)
Fixpoint tiles (a b : Z) (l : list SequenceDescriptor) : Prop :=
  match l with
  | [] => a = b
  | sd :: l' =>
      m_fileOffsetBytes sd = a /\ 0 < m_byteSize sd /\
      tiles (a + m_byteSize sd) b l'
  end.

(** Offset, byte size and sample count of a descriptor, without its key. *)
Definition span (sd : SequenceDescriptor) : Z * Z * Z :=
  (m_fileOffsetBytes sd, m_byteSize sd, m_numberOfSamples sd).

Definition nonempty {A} (l : list A) : bool :=
  match l with [] => false | _ :: _ => true end.

(** The leading decimal digits of [r], and what follows them. *)
Fixpoint digits (r : list byte) : list byte :=
  match r with
  | ch :: r' => if isdigit ch then ch :: digits r' else []
  | [] => []
  end.

Fixpoint after_digits (r : list byte) : list byte :=
  match r with
  | ch :: r' => if isdigit ch then after_digits r' else r
  | [] => []
  end.

(** [id = id * 10 + (c - '0')] over the digits, in [size_t]. *)
Definition decimal (ds : list byte) (id : Z) : Z :=
  fold_left (fun id ch => (id * 10 + (char_code ch - 48)) mod 2 ^ 64) ds id.

(** The characters of the key ahead in textual mode, and what follows
    them. *)
Fixpoint key_chars (r : list byte) : list byte :=
  match r with
  | ch :: r' => if isspace ch then [] else ch :: key_chars r'
  | [] => []
  end.

Fixpoint after_key (r : list byte) : list byte :=
  match r with
  | ch :: r' => if isspace ch then r else after_key r'
  | [] => []
  end.

(** The number the digits [ds] write, after the number [v]. *)
Definition decimal_from (ds : list byte) (v : Z) : Z :=
  fold_left (fun v ch => v * 10 + (char_code ch - 48)) ds v.

Definition decimal_value (ds : list byte) : Z := decimal_from ds 0.

(** The lines of [r], each with its row delimiter, after the bytes [acc] of
    the line begun; an unterminated last line counts. *)
Fixpoint lines_from (acc r : list byte) : list (list byte) :=
  match r with
  | [] => match acc with [] => [] | _ :: _ => [acc] end
  | c :: r' =>
      if is_nl c then (acc ++ [c]) :: lines_from [] r'
      else lines_from (acc ++ [c]) r'
  end.

(** The bytes of the file that a descriptor covers. *)
Definition slice (data : list byte) (sd : SequenceDescriptor) : list byte :=
  firstn (Z.to_nat (m_byteSize sd))
         (skipn (Z.to_nat (m_fileOffsetBytes sd)) data).

(** No two neighbours of [l] are equal. *)
Fixpoint adjacent_distinct (l : list Z) : Prop :=
  match l with
  | [] => True
  | a :: t =>
      match t with [] => True | b :: _ => a <> b end /\ adjacent_distinct t
  end.

(** [l1] is [l2] with some elements left out. *)
Inductive subsequence {A : Type} : list A -> list A -> Prop :=
| sub_nil : subsequence [] []
| sub_keep x l1 l2 : subsequence l1 l2 -> subsequence (x :: l1) (x :: l2)
| sub_drop x l1 l2 : subsequence l1 l2 -> subsequence l1 (x :: l2).

(** What the emitter has done between [w] and [w']: invocations [new], of
    which the descriptors [added] reached the index. *)
Definition stored_from (w w' : World) : Prop :=
  IsIncluded (corpus w') = IsIncluded (corpus w) /\
  idx_chunkSize (m_index w') = idx_chunkSize (m_index w) /\
  idx_isPrimary (m_index w') = idx_isPrimary (m_index w) /\
  idx_reserved (m_index w') = idx_reserved (m_index w) /\
  exists new added,
    calls w' = calls w ++ new /\
    idx_sequences (m_index w') = idx_sequences (m_index w) ++ added /\
    subsequence (map span added) (map span (map snd new)) /\
    Forall (fun sd => m_key_sample sd = 0) added /\
    ((forall k, IsIncluded (corpus w) k = true) ->
     map span added = map span (map snd new)) /\
    ((forall k, IsIncluded (corpus w) k = false) -> added = []).

(* ================================================================= *)
(** ** Concrete inputs

    Configurations, corpora and files on which the theorems are
    instantiated and the code is evaluated. *)

Definition config (numeric : bool) (bufferSize : nat) : Config :=
  mkConfig "|"%byte numeric bufferSize 4096%positive 0.

Definition no_heap : nat -> byte := fun _ => x00.

(** An empty registry with an all-inclusive filter. *)
Definition everything : Corpus := mkCorpus (fun _ => true) [].

(** An empty registry with a filter that includes the key "1" only. *)
Definition only_key_1 : Corpus := mkCorpus (key_eqb ["1"%byte]) [].

(** A filter that includes no key, over an empty registry. *)
Definition nothing : Corpus := mkCorpus (fun _ => false) [].

(** A line of [data] begins at offset [o]: [o] is where the scan starts, or
    the byte before [o] is the row delimiter. *)
Definition line_start (start : Z) (data : list byte) (o : Z) : Prop :=
  o = start \/
  (0 < o /\ nth_error data (Z.to_nat (o - 1)) = Some ROW_DELIMITER).

Definition sequenceKey_is_2 : Config :=
  mkConfig "|"%byte true 8 4096%positive 2.

Definition bom_a_nl : list byte := [xef; xbb; xbf; "a"; x0a]%byte.

Definition bom_only : list byte := [xef; xbb; xbf]%byte.

Definition two_keys : list byte :=
  ["1"; " "; "x"; x0a; "1"; " "; "y"; x0a; "2"; " "; "z"; x0a]%byte.

Definition three_lines : list byte :=
  ["a"; x0a; "b"; "b"; x0a; "c"; "c"; "c"]%byte.

Definition digits_12 : list byte := ["1"; "2"]%byte.

Definition letters_ab : list byte := ["a"; "b"]%byte.

(** A file whose reads fail. *)
Definition failing_file (data : list byte) : FILE := mkFILE data 0 true false.

(** A new indexer, with a buffer of eight bytes, on a file whose reads
    fail. *)
Definition on_failing_file : World :=
  mkWorld (mkCursor (failing_file bom_a_nl) 0 0
             (map no_heap (seq 0 9)) 0 0 0 false)
          true (mkIndex 32 true [] []) everything [].

(** An indexer whose index already holds a sequence. *)
Definition built_world : World :=
  set_index (AddSequence (mkSD 0 0 0 2 1) (mkIndex 32 true [] []))
            (fresh (config true 8) true true 32 no_heap everything bom_a_nl).

(** The cursor of a buffer of eight bytes after the first block of a file
    of two bytes has been read. *)
Definition after_first_block (data : list byte) : World :=
  mkWorld
    (mkCursor (mkFILE data 2 false false) 0 2
       (data ++ map no_heap (seq 2 7)) 4096 4098 4096 false)
    true (mkIndex 32 true [] []) everything [].

(* ================================================================= *)
(** ** Refinement: the buffered code computes [scan] *)

Lemma firstn_app_skipn_length {A} (l : list A) (n : nat) :
  l = firstn n l ++ skipn n l.
Proof. symmetry; apply firstn_skipn. Qed.

Arguments bufAddr : simpl never.

(** *** Facts about the scan functions *)

Lemma find_byte_bound ch l i : find_byte ch l = Some i -> (i < length l)%nat.
Proof.
  revert i; induction l as [|x l IH]; cbn; intros i; [discriminate|].
  destruct (Byte.eqb x ch).
  - intros [= <-]. lia.
  - destruct (find_byte ch l); cbn; [|discriminate].
    intros [= <-]. specialize (IH _ eq_refl). lia.
Qed.

Lemma skip_line_found b u i :
  find_byte ROW_DELIMITER b = Some i ->
  skip_line (b ++ u) = skipn (S i) (b ++ u).
Proof.
  revert i; induction b as [|x b IH]; cbn; intros i; [discriminate|].
  unfold is_nl. destruct (Byte.eqb x ROW_DELIMITER).
  - intros [= <-]. reflexivity.
  - destruct (find_byte ROW_DELIMITER b); cbn; [|discriminate].
    intros [= <-]. apply IH. reflexivity.
Qed.

Lemma skip_line_none b u :
  find_byte ROW_DELIMITER b = None -> skip_line (b ++ u) = skip_line u.
Proof.
  induction b as [|x b IH]; cbn; [reflexivity|].
  unfold is_nl. destruct (Byte.eqb x ROW_DELIMITER); [discriminate|].
  destruct (find_byte ROW_DELIMITER b); cbn; [discriminate|].
  intros _. apply IH. reflexivity.
Qed.

Lemma skip_line_length r : (length (skip_line r) <= length r)%nat.
Proof.
  induction r as [|x r IH]; cbn; [lia|]. destruct (is_nl x); lia.
Qed.

Lemma skip_line_shorter r : r <> [] -> (length (skip_line r) < length r)%nat.
Proof.
  destruct r as [|x r]; [congruence|]. intros _. cbn.
  pose proof (skip_line_length r). destruct (is_nl x); lia.
Qed.

Lemma set_pos_set_pos p q c : set_pos p (set_pos q c) = set_pos p c.
Proof. reflexivity. Qed.

Lemma set_pos_same c : set_pos (m_pos c) c = c.
Proof. destruct c; reflexivity. Qed.

Lemma set_cur_same w : set_cur (cur w) w = w.
Proof. destruct w; reflexivity. Qed.

Lemma set_registry_same w : set_registry (registry (corpus w)) w = w.
Proof. destruct w as [? ? ? [] ?]; reflexivity. Qed.

Lemma scan_key_app numeric b u : forall found id k,
  scan_key numeric (b ++ u) found id k
  = match scan_key numeric b found id k with
    | KeyStop f i k' rest => KeyStop f i k' (rest ++ u)
    | KeyEof f i k' => scan_key numeric u f i k'
    end.
Proof.
  induction b as [|ch b IH]; intros found id k; cbn; [reflexivity|].
  destruct numeric.
  - destruct (isdigit ch); cbn; [apply IH | reflexivity].
  - destruct (isspace ch); cbn; [reflexivity | apply IH].
Qed.

Lemma finish_key_eof numeric f i k reg :
  finish_key numeric (KeyEof f i k) reg = (false, i, [], reg).
Proof. reflexivity. Qed.

Lemma lines_scan_found b u i : forall start at_ lines,
  find_byte ROW_DELIMITER b = Some i ->
  lines_scan (b ++ u) start at_ lines
  = let at' := at_ + Z.of_nat i + 1 in
    let rec := lines_scan (skipn (S i) (b ++ u)) at' at' (lines + 1) in
    ((lines, mkSD 0 0 start (at' - start) 1) :: fst rec, snd rec).
Proof.
  revert i; induction b as [|x b IH]; cbn [find_byte app lines_scan];
    intros i start at_ lines; [discriminate|].
  unfold is_nl. destruct (Byte.eqb x ROW_DELIMITER).
  - intros [= <-]. cbn [skipn Z.of_nat]. rewrite Z.add_0_r.
    destruct (lines_scan (b ++ u) (at_ + 1) (at_ + 1) (lines + 1));
      reflexivity.
  - destruct (find_byte ROW_DELIMITER b) as [j|]; cbn [option_map];
      [|discriminate].
    intros [= <-]. rewrite (IH j _ _ _ eq_refl). cbn zeta.
    replace (at_ + 1 + Z.of_nat j + 1) with (at_ + Z.of_nat (S j) + 1) by lia.
    reflexivity.
Qed.

Lemma lines_scan_none b u : forall start at_ lines,
  find_byte ROW_DELIMITER b = None ->
  lines_scan (b ++ u) start at_ lines
  = lines_scan u start (at_ + Z.of_nat (length b)) lines.
Proof.
  induction b as [|x b IH]; cbn [find_byte app lines_scan length];
    intros start at_ lines.
  - intros _. rewrite Z.add_0_r. reflexivity.
  - unfold is_nl. destruct (Byte.eqb x ROW_DELIMITER); [discriminate|].
    destruct (find_byte ROW_DELIMITER b); cbn [option_map]; [discriminate|].
    intros _. rewrite (IH _ _ _ eq_refl). f_equal. lia.
Qed.

Lemma GetFileOffset_set_pos c k :
  GetFileOffset (set_pos (m_pos c + k) c) = GetFileOffset c + k.
Proof. unfold GetFileOffset; cbn. lia. Qed.

Lemma unread_set_pos p c : unread (set_pos p c) = unread c.
Proof. reflexivity. Qed.

Lemma scan_key_rest numeric r : forall found id k f i k' rest,
  scan_key numeric r found id k = KeyStop f i k' rest ->
  (length rest <= length r)%nat /\
  (f = true -> found = false -> (length rest < length r)%nat).
Proof.
  induction r as [|ch r IH]; intros found id k f i k' rest; cbn [scan_key];
    [discriminate|].
  destruct numeric.
  - destruct (isdigit ch); cbn [negb].
    + intros E. destruct (IH _ _ _ _ _ _ _ E). cbn [length]. split; intros; lia.
    + intros [= <- <- <- <-]. split; [lia | congruence].
  - destruct (isspace ch).
    + intros [= <- <- <- <-]. split; [lia | congruence].
    + intros E. destruct (IH _ _ _ _ _ _ _ E). cbn [length]. split; intros; lia.
Qed.

Lemma resolve_key_length numeric r reg :
  (length (snd (fst (resolve_key numeric r reg))) <= length r)%nat /\
  (fst (fst (fst (resolve_key numeric r reg))) = true ->
   (length (snd (fst (resolve_key numeric r reg))) < length r)%nat).
Proof.
  unfold resolve_key, finish_key.
  destruct (scan_key numeric r false 0 []) as [f i k' rest|f i k'] eqn:E.
  - destruct (scan_key_rest _ _ _ _ _ _ _ _ _ E) as [Hle Hlt].
    destruct (negb numeric && f); cbn [fst snd]; split; auto.
  - cbn [fst snd length]. split; [lia | discriminate].
Qed.

Lemma match_nonempty {A B} (l : list A) (X Y : B) :
  l <> [] -> match l with [] => X | _ :: _ => Y end = Y.
Proof. destruct l; [congruence | reflexivity]. Qed.

Lemma bind_modify {S B} (f : S -> S) (k : unit -> M S B) s :
  bind (modify f) k s = k tt (f s).
Proof. reflexivity. Qed.

Lemma bind_gets {S A B} (f : S -> A) (k : A -> M S B) s :
  bind (gets f) k s = k (f s) s.
Proof. reflexivity. Qed.

Lemma bind_ok {S A B} (m : M S A) (k : A -> M S B) s a s' :
  m s = Ok a s' -> bind m k s = k a s'.
Proof. unfold bind. intros ->. reflexivity. Qed.

Lemma on_cursor_ok {A} (m : M Cursor A) w a c :
  m (cur w) = Ok a c -> on_cursor m w = Ok a (set_cur c w).
Proof. unfold on_cursor, zoom. intros ->. reflexivity. Qed.

Lemma AddSequenceIfIncluded_emit cfg id sd w :
  AddSequenceIfIncluded cfg id sd w = Ok tt (emit cfg id sd w).
Proof.
  unfold AddSequenceIfIncluded, emit, bind, modify.
  destruct (m_numericSequenceId cfg);
    match goal with
    | |- context [IsIncluded ?c ?k] => destruct (IsIncluded c k)
    end; try reflexivity;
    match goal with
    | |- context [intern ?k ?r] => destruct (intern k r)
    end; reflexivity.
Qed.

Lemma emit_set_cur cfg c id sd w :
  emit cfg id sd (set_cur c w) = set_cur c (emit cfg id sd w).
Proof.
  unfold emit. cbn.
  match goal with
  | |- context [IsIncluded ?c ?k] => destruct (IsIncluded c k)
  end; reflexivity.
Qed.

Lemma emit_all_set_cur cfg c l : forall w,
  emit_all cfg l (set_cur c w) = set_cur c (emit_all cfg l w).
Proof.
  induction l as [|x l IH]; intros w; cbn; [reflexivity|].
  rewrite emit_set_cur. apply IH.
Qed.

Lemma key_groups_set_cur cfg c n steps : forall r sd ck w,
  key_groups cfg n steps r sd ck (set_cur c w)
  = (fst (key_groups cfg n steps r sd ck w),
     set_cur c (snd (key_groups cfg n steps r sd ck w))).
Proof.
  induction steps as [|steps IH]; intros r sd ck w; cbn [key_groups];
    [reflexivity|].
  destruct r as [|x r]; [reflexivity|].
  destruct (skip_line (x :: r)) as [|y r1]; [reflexivity|].
  change (registry (corpus (set_cur c w))) with (registry (corpus w)).
  destruct (resolve_key (m_numericSequenceId cfg) (y :: r1)
              (registry (corpus w))) as [[[found id] r2] reg].
  change (set_registry reg (set_cur c w)) with (set_cur c (set_registry reg w)).
  destruct (found && negb (id =? ck)).
  - rewrite emit_set_cur. apply IH.
  - apply IH.
Qed.

Section Refinement.

Variable cfg : Config.
Variable data : list byte.

Lemma buffered_length c r :
  Live cfg data c r -> Z.of_nat (length (buffered cfg c)) = m_bufferEnd c - m_pos c.
Proof.
  intros [_ _ _ _ _ P _ _ _]. unfold buffered.
  rewrite length_firstn, length_skipn. lia.
Qed.

Lemma unread_length c :
  f_data (m_file c) = data ->
  length (unread c) = (length data - f_pos (m_file c))%nat.
Proof. intros E. unfold unread. rewrite length_skipn, E. reflexivity. Qed.

Lemma GetFileOffset_live c r :
  Live cfg data c r ->
  GetFileOffset c = Z.of_nat (length data) - Z.of_nat (length r).
Proof.
  intros L. pose proof (buffered_length _ _ L) as Hb.
  destruct L as [_ D _ E Q P S R _]. unfold GetFileOffset.
  rewrite R, length_app, (unread_length _ D). lia.
Qed.

Lemma live_drained c r :
  Live cfg data c r -> m_pos c = m_bufferEnd c -> Drained data c r.
Proof.
  intros L E. pose proof (buffered_length _ _ L) as Hb.
  destruct L as [? ? ? ? ? ? ? R _]. constructor; auto.
  rewrite E, Z.sub_diag in Hb.
  destruct (buffered cfg c); [exact R | simpl in Hb; lia].
Qed.

Lemma drained_set_pos c r p : Drained data c r -> Drained data (set_pos p c) r.
Proof. intros []. constructor; auto. Qed.

Lemma window_live c r :
  Live cfg data c r ->
  window cfg (m_buffer c) (m_pos c) (m_bufferEnd c - m_pos c)
  = Some (buffered cfg c).
Proof.
  intros [_ _ _ _ _ P _ _ _]. unfold window, buffered.
  replace (m_pos c + (m_bufferEnd c - m_pos c)) with (m_bufferEnd c) by lia.
  destruct (Z.leb_spec (bufAddr cfg) (m_pos c)); [|lia].
  destruct (Z.leb_spec 0 (m_bufferEnd c - m_pos c)); [|lia].
  destruct (Z.leb_spec (m_bufferEnd c)
              (bufAddr cfg + Z.of_nat (length (m_buffer c)))); [|lia].
  reflexivity.
Qed.

Lemma memchr_live c r ch :
  Live cfg data c r ->
  memchr cfg (m_buffer c) (m_pos c) ch (m_bufferEnd c - m_pos c)
  = Some (match find_byte ch (buffered cfg c) with
          | Some i => m_pos c + Z.of_nat i
          | None => 0
          end).
Proof.
  intros L. unfold memchr. rewrite (window_live _ _ L).
  destruct (find_byte ch (buffered cfg c)); reflexivity.
Qed.

Lemma buffered_set_pos c r k :
  Live cfg data c r -> 0 <= k ->
  buffered cfg (set_pos (m_pos c + k) c) = skipn (Z.to_nat k) (buffered cfg c).
Proof.
  intros [_ _ _ _ _ P _ _ _] Hk. unfold buffered; cbn.
  rewrite skipn_firstn_comm, skipn_skipn. f_equal; [lia|]. f_equal. lia.
Qed.

(** Moving the position forward inside the buffer. *)
Lemma live_advance c r k :
  Live cfg data c r -> (k <= length (buffered cfg c))%nat ->
  Live cfg data (set_pos (m_pos c + Z.of_nat k) c) (skipn k r).
Proof.
  intros L Hk. pose proof (buffered_length _ _ L) as Hb.
  pose proof (buffered_set_pos _ _ (Z.of_nat k) L ltac:(lia)) as Hs.
  rewrite Nat2Z.id in Hs.
  destruct L as [? ? ? ? ? P S R Ln]. constructor; cbn; auto; try lia.
  - rewrite Hs. change (unread (set_pos (m_pos c + Z.of_nat k) c))
      with (unread c).
    rewrite R, skipn_app.
    replace (k - length (buffered cfg c))%nat with 0%nat by lia.
    reflexivity.
  - rewrite length_skipn. lia.
Qed.

Lemma live_unread_le c r :
  Live cfg data c r -> (length (unread c) <= length r)%nat.
Proof. intros [_ _ _ _ _ _ _ -> _]. rewrite length_app. lia. Qed.

Lemma live_length_le c r :
  Live cfg data c r -> (length r <= length data)%nat.
Proof. intros L; apply (live_len _ _ _ _ L). Qed.

Lemma live_pos_nonzero c r : Live cfg data c r -> 0 < m_pos c.
Proof. intros [_ _ _ _ _ P _ _ _]. unfold bufAddr in P. lia. Qed.

(** *** The key resolver *)

Lemma load_live c r ch b :
  Live cfg data c r -> buffered cfg c = ch :: b ->
  load cfg (m_buffer c) (m_pos c) = Some ch.
Proof.
  intros [_ _ _ _ _ P _ _ _] E. unfold load.
  destruct (Z.leb_spec (bufAddr cfg) (m_pos c)); [|lia].
  rewrite <- hd_error_skipn. unfold buffered in E.
  destruct (skipn (Z.to_nat (m_pos c - bufAddr cfg)) (m_buffer c)).
  - rewrite firstn_nil in E. discriminate.
  - destruct (Z.to_nat (m_bufferEnd c - m_pos c)); [discriminate|].
    cbn in E. injection E as -> _. reflexivity.
Qed.

(** The character loop on the buffered bytes. *)
Lemma TryGetSequenceId_chars_live b : forall fuel found id k w r,
  Live cfg data (cur w) r -> buffered cfg (cur w) = b ->
  (length b + 1 <= fuel)%nat ->
  match scan_key (m_numericSequenceId cfg) b found id k with
  | KeyStop f i k' rest =>
      let fk := finish_key (m_numericSequenceId cfg) (KeyStop f i k' rest)
                           (registry (corpus w)) in
      exists c',
        TryGetSequenceId_chars cfg fuel found id k w
        = Ok (Return (fst (fst fk))) (set_registry (snd fk) (set_cur c' w)) /\
        Live cfg data c' (rest ++ unread (cur w)) /\
        m_pos c' < m_bufferEnd c'
  | KeyEof f i k' =>
      TryGetSequenceId_chars cfg fuel found id k w
      = Ok (Next (f, i, k'))
           (set_cur (set_pos (m_bufferEnd (cur w)) (cur w)) w)
  end.
Proof.
  induction b as [|ch b IH]; intros fuel found id k w r L B Hf;
    (destruct fuel as [|fuel]; [cbn in Hf; lia|]);
    pose proof (buffered_length _ _ L) as Hb; rewrite B in Hb;
    cbn [length] in Hb, Hf; cbn [scan_key TryGetSequenceId_chars].
  - replace (m_bufferEnd (cur w)) with (m_pos (cur w)) by lia.
    rewrite Z.eqb_refl. cbn [negb].
    rewrite set_pos_same, set_cur_same. reflexivity.
  - destruct (Z.eqb_spec (m_pos (cur w)) (m_bufferEnd (cur w))); [lia|].
    cbn [negb]. rewrite (load_live _ _ _ _ L B).
    assert (L1 : Live cfg data (set_pos (m_pos (cur w) + 1) (cur w))
                   (b ++ unread (cur w))).
    { pose proof (live_advance _ _ 1 L ltac:(rewrite B; cbn; lia)) as L1.
      rewrite (live_rest _ _ _ _ L), B in L1. exact L1. }
    assert (B1 : buffered cfg (set_pos (m_pos (cur w) + 1) (cur w)) = b).
    { rewrite (buffered_set_pos _ _ 1 L ltac:(lia)), B. reflexivity. }
    assert (Here : Live cfg data (cur w) ((ch :: b) ++ unread (cur w))).
    { rewrite <- B, <- (live_rest _ _ _ _ L). exact L. }
    destruct (m_numericSequenceId cfg) eqn:Num.
    + destruct (isdigit ch); cbn [negb].
      * specialize (IH fuel true
                      ((id * 10 + (char_code ch - 48)) mod 2 ^ 64) k
                      (set_cur (set_pos (m_pos (cur w) + 1) (cur w)) w)
                      _ L1 B1 ltac:(lia)).
        exact IH.
      * cbn. exists (cur w). rewrite set_cur_same, set_registry_same.
        split; [reflexivity|]. split; [exact Here | lia].
    + destruct (isspace ch).
      * cbn [finish_key negb andb fst snd]. destruct found.
        -- exists (cur w). rewrite set_cur_same.
           split; [|split; [exact Here | lia]].
           unfold intern.
           destruct (TryGet k (registry (corpus w))); cbn [fst snd AddValue].
           ++ f_equal. symmetry. apply set_registry_same.
           ++ reflexivity.
        -- exists (cur w). cbn [fst snd]. rewrite set_cur_same, set_registry_same.
           split; [reflexivity|]. split; [exact Here | lia].
      * specialize (IH fuel true id (k ++ [ch])
                      (set_cur (set_pos (m_pos (cur w) + 1) (cur w)) w)
                      _ L1 B1 ltac:(lia)).
        exact IH.
Qed.

(** *** Key-grouped scanning *)

Lemma live_nonempty c r :
  Live cfg data c r -> m_pos c < m_bufferEnd c -> r <> [].
Proof.
  intros L Lt. pose proof (buffered_length _ _ L) as Hb.
  rewrite (live_rest _ _ _ _ L).
  destruct (buffered cfg c); [cbn in Hb; lia | discriminate].
Qed.

(** *** The whole of [Build] *)

Lemma load_nth c r k :
  Live cfg data c r -> (k < length (buffered cfg c))%nat ->
  load cfg (m_buffer c) (m_pos c + Z.of_nat k) = nth_error (buffered cfg c) k.
Proof.
  intros L Hk. pose proof (buffered_length _ _ L) as Hb.
  destruct L as [_ _ _ _ _ P _ _ _]. unfold load, buffered in *.
  destruct (Z.leb_spec (bufAddr cfg) (m_pos c + Z.of_nat k)); [|lia].
  rewrite nth_error_firstn, nth_error_skipn.
  destruct (Nat.ltb_spec k (Z.to_nat (m_bufferEnd c - m_pos c))); [|lia].
  f_equal. lia.
Qed.

Lemma has_bom_first c :
  Live cfg data c data -> m_pos c = m_bufferStart c ->
  buffered cfg c = firstn (m_bufferSize cfg) data ->
  has_bom cfg c = Some (bom_skipped (m_bufferSize cfg) data).
Proof.
  intros L E B. pose proof (buffered_length _ _ L) as Hb.
  unfold has_bom, bom_skipped, byte_at_is. rewrite <- E, <- Hb, B.
  rewrite length_firstn, Z.gtb_ltb.
  destruct (Z.ltb_spec 3 (Z.of_nat (Nat.min (m_bufferSize cfg) (length data))))
    as [Hlt|_]; [|reflexivity].
  pose proof (load_nth c data 0 L) as L0.
  pose proof (load_nth c data 1 L) as L1.
  pose proof (load_nth c data 2 L) as L2.
  rewrite B, length_firstn in L0, L1, L2.
  rewrite Z.add_0_r in L0. change (Z.of_nat 1) with 1 in L1.
  change (Z.of_nat 2) with 2 in L2.
  rewrite L0, L1, L2 by lia. clear L0 L1 L2.
  destruct data as [|b0 [|b1 [|b2 t]]]; cbn [length] in Hlt; try lia.
  destruct (m_bufferSize cfg) as [|[|[|n]]]; cbn [Nat.min] in Hlt; try lia.
  cbn [firstn nth_error option_map starts_with_bom andb].
  destruct (Byte.eqb b0 BOM0); [|reflexivity].
  destruct (Byte.eqb b1 BOM1); reflexivity.
Qed.

Lemma skip_bom_live c r :
  Live cfg data c r -> m_pos c = m_bufferStart c ->
  3 < m_bufferEnd c - m_pos c ->
  Live cfg data (skip_bom c) (skipn 3 r) /\
  m_pos (skip_bom c) = m_bufferStart (skip_bom c) /\
  m_pos (skip_bom c) < m_bufferEnd (skip_bom c).
Proof.
  intros L E Hlt. pose proof (buffered_length _ _ L) as Hb.
  pose proof (live_advance c r 3 L ltac:(lia)) as [? ? ? ? ? P S R Ln].
  cbn in *. split; [|cbn; lia].
  constructor; cbn; auto; lia.
Qed.

Lemma lines_mode_live w r :
  Live cfg data (cur w) r -> m_pos (cur w) = m_bufferStart (cur w) ->
  m_pos (cur w) < m_bufferEnd (cur w) ->
  lines_mode cfg w
  = Some (negb (m_hasSequenceIds w) || first_is (m_streamPrefix cfg) r).
Proof.
  intros L E Lt. pose proof (buffered_length _ _ L) as Hb.
  unfold lines_mode. destruct (m_hasSequenceIds w); [|reflexivity].
  cbn [negb orb]. unfold byte_at_is. rewrite <- E.
  pose proof (load_nth _ _ 0 L) as L0. rewrite Z.add_0_r in L0.
  rewrite L0, (live_rest _ _ _ _ L) by lia.
  destruct (buffered cfg (cur w)); [cbn in Hb; lia | reflexivity].
Qed.

(** From here on the buffer holds at least one byte and fewer than
    [SIZE_MAX]. *)
Hypothesis buffer_pos : (1 <= m_bufferSize cfg)%nat.
Hypothesis buffer_max : Z.of_nat (m_bufferSize cfg) < SIZE_MAX.

(** A refill when the buffer is used up: end of file is seen, or the next
    block is buffered and the same bytes are ahead. *)
Lemma RefillBuffer_drained c r :
  Drained data c r ->
  exists c', RefillBuffer cfg c = Ok tt c' /\
    ((r = [] /\ Finished data c') \/
     (r <> [] /\ Live cfg data c' r /\ m_pos c' = m_bufferStart c' /\
      m_pos c' < m_bufferEnd c' /\
      (length (unread c') < length r)%nat /\
      buffered cfg c' = firstn (m_bufferSize cfg) r)).
Proof.
  intros [Dn Dt Fl En Fp R].
  unfold RefillBuffer, fread. rewrite Dn, Fl. cbn [negb].
  fold (unread c). rewrite <- R.
  set (d := firstn (m_bufferSize cfg) r).
  assert (Hd : length d = Nat.min (m_bufferSize cfg) (length r))
    by (unfold d; apply length_firstn).
  destruct (Z.eqb_spec (Z.of_nat (length d)) SIZE_MAX) as [E|_]; [lia|].
  destruct (Z.eqb_spec (Z.of_nat (length d)) 0) as [E|NE].
  - eexists; split; [reflexivity|]. left.
    assert (Hr : r = []) by (destruct r; [reflexivity | simpl in Hd; lia]).
    split; [assumption|]. constructor; cbn; [reflexivity|].
    rewrite En. f_equal.
    assert (length (unread c) = 0%nat) by (rewrite <- R, Hr; reflexivity).
    rewrite (unread_length _ Dt) in *. lia.
  - eexists; split; [reflexivity|]. right.
    assert (r <> []) by (intros ->; simpl in Hd; lia).
    split; [assumption|].
    assert (Hr : length r = (length data - f_pos (m_file c))%nat)
      by (rewrite R; apply unread_length; assumption).
    split; [|cbn; repeat split; try lia].
    + constructor; cbn; auto; try lia.
      * unfold store. rewrite length_app, length_skipn. lia.
      * unfold buffered, unread; cbn.
        replace (bufAddr cfg + Z.of_nat (length d) - bufAddr cfg)
          with (Z.of_nat (length d)) by lia.
        rewrite Z.sub_diag, Nat2Z.id. cbn [Z.to_nat skipn].
        unfold store. rewrite firstn_app, Nat.sub_diag, firstn_all.
        cbn [firstn]. rewrite app_nil_r, Dt.
        rewrite Nat.add_comm, <- skipn_skipn. rewrite <- Dt. fold (unread c).
        rewrite <- R. unfold d. rewrite length_firstn.
        destruct (Nat.min_spec (m_bufferSize cfg) (length r)) as [[? ->]|[? ->]].
        -- apply firstn_app_skipn_length.
        -- rewrite firstn_all2, skipn_all by lia.
           symmetry; apply app_nil_r.
    + unfold unread; cbn. rewrite length_skipn, Dt. lia.
    + unfold buffered; cbn.
      replace (bufAddr cfg + Z.of_nat (length d) - bufAddr cfg)
        with (Z.of_nat (length d)) by lia.
      rewrite Z.sub_diag, Nat2Z.id. cbn [Z.to_nat skipn].
      unfold store. rewrite firstn_app, Nat.sub_diag, firstn_all.
      cbn [firstn]. apply app_nil_r.
Qed.

Lemma SkipLine_live fuel : forall c r,
  Live cfg data c r -> (length (unread c) + 2 <= fuel)%nat ->
  exists c', SkipLine cfg fuel c = Ok tt c' /\ Ready cfg data c' (skip_line r).
Proof.
  induction fuel as [|fuel IH]; intros c r L Hf; [lia|].
  cbn [SkipLine]. rewrite (live_done _ _ _ _ L). cbn [negb].
  rewrite (memchr_live _ _ _ L).
  pose proof (live_pos_nonzero _ _ L) as Hp.
  pose proof (buffered_length _ _ L) as Hb.
  pose proof (live_rest _ _ _ _ L) as R.
  destruct (find_byte ROW_DELIMITER (buffered cfg c)) as [i|] eqn:F.
  - cbn [m_pos set_pos]. destruct (Z.eqb_spec (m_pos c + Z.of_nat i) 0); [lia|].
    cbn [negb m_bufferEnd].
    pose proof (find_byte_bound _ _ _ F) as Hi.
    assert (L' : Live cfg data (set_pos (m_pos c + Z.of_nat (S i)) c)
                   (skip_line r)).
    { rewrite R at 1. rewrite (skip_line_found _ _ _ F), <- R.
      apply live_advance; [assumption | lia]. }
    replace (m_pos c + Z.of_nat i + 1) with (m_pos c + Z.of_nat (S i)) by lia.
    rewrite set_pos_set_pos.
    change (m_bufferEnd (set_pos (m_pos c + Z.of_nat (S i)) c))
      with (m_bufferEnd c).
    destruct (Z.eqb_spec (m_pos c + Z.of_nat (S i)) (m_bufferEnd c)) as [E|NE].
    + destruct (RefillBuffer_drained _ _ (live_drained _ _ L' E))
        as (c' & -> & [[E0 Fin]|(NE0 & L2 & _ & Lt & _ & _)]).
      * exists c'. split; [reflexivity|]. right. split; assumption.
      * exists c'. split; [reflexivity|]. left. split; assumption.
    + eexists. split; [reflexivity|]. left. split; [assumption|].
      cbn. lia.
  - rewrite Z.eqb_refl. cbn [negb]. unfold bind.
    assert (D : Drained data (set_pos 0 c) (unread c)).
    { destruct L. constructor; auto. }
    rewrite R, (skip_line_none _ _ F).
    destruct (RefillBuffer_drained _ _ D)
      as (c' & -> & [[E0 Fin]|(NE0 & L2 & _ & Lt & Hu & _)]).
    + rewrite E0. destruct fuel; [lia|]. cbn [SkipLine].
      rewrite (fin_done _ _ Fin). cbn [negb].
      exists c'. split; [reflexivity|]. right. split; [reflexivity|assumption].
    + apply IH; [assumption|]. change (unread (set_pos 0 c)) with (unread c) in Hf.
      lia.
Qed.

Lemma SkipLine_ready fuel c r :
  Ready cfg data c r -> (length data + 2 <= fuel)%nat ->
  exists c', SkipLine cfg fuel c = Ok tt c' /\ Ready cfg data c' (skip_line r).
Proof.
  intros [[L _]|[-> Fin]] Hf.
  - apply SkipLine_live; [assumption|].
    pose proof (live_unread_le _ _ L). pose proof (live_length_le _ _ L). lia.
  - destruct fuel; [lia|]. cbn [SkipLine]. rewrite (fin_done _ _ Fin).
    exists c. split; [reflexivity|]. right. split; [reflexivity|assumption].
Qed.

(** The whole resolver from a live cursor. *)
Lemma TryGetSequenceId_loop_live fuel : forall found id k w r,
  Live cfg data (cur w) r ->
  (length r + length (unread (cur w)) + 3 <= fuel)%nat ->
  let fk := finish_key (m_numericSequenceId cfg)
              (scan_key (m_numericSequenceId cfg) r found id k)
              (registry (corpus w)) in
  exists c',
    TryGetSequenceId_loop cfg fuel found id k w
    = Ok (fst (fst fk)) (set_registry (snd fk) (set_cur c' w)) /\
    Ready cfg data c' (snd (fst fk)).
Proof.
  induction fuel as [|fuel IH]; intros found id k w r L Hf; [lia|].
  cbn [TryGetSequenceId_loop]. rewrite (live_done _ _ _ _ L). cbn [negb].
  pose proof (live_rest _ _ _ _ L) as R.
  assert (Hlen : length r
                 = (length (buffered cfg (cur w)) + length (unread (cur w)))%nat)
    by (rewrite R at 1; apply length_app).
  pose proof (TryGetSequenceId_chars_live _ fuel found id k w r L eq_refl
                ltac:(lia)) as C.
  unfold bind. cbn zeta. rewrite R, scan_key_app.
  destruct (scan_key (m_numericSequenceId cfg) (buffered cfg (cur w))
              found id k) as [f i k' rest|f i k'].
  - destruct C as (c' & -> & L' & Lt). cbn [ret].
    exists c'. split.
    + unfold finish_key.
      destruct (negb (m_numericSequenceId cfg) && f); reflexivity.
    + left. split; [|exact Lt].
      unfold finish_key.
      destruct (negb (m_numericSequenceId cfg) && f); exact L'.
  - rewrite C. unfold on_cursor, zoom. cbn [cur set_cur].
    assert (D : Drained data (set_pos (m_bufferEnd (cur w)) (cur w))
                  (unread (cur w))).
    { destruct L. constructor; auto. }
    destruct (RefillBuffer_drained _ _ D)
      as (c' & -> & [[E0 Fin]|(NE0 & L2 & _ & Lt & Hu & _)]).
    + rewrite E0. cbn [scan_key]. rewrite finish_key_eof. cbn [fst snd].
      destruct fuel; [lia|]. cbn [TryGetSequenceId_loop cur set_cur].
      rewrite (fin_done _ _ Fin). cbn [negb].
      exists c'. split.
      * f_equal. symmetry. exact (set_registry_same (set_cur c' w)).
      * right. split; [reflexivity | assumption].
    + specialize (IH f i k' (set_cur c' w) _ L2 ltac:(cbn [cur set_cur]; lia)).
      exact IH.
Qed.

Lemma TryGetSequenceId_ready fuel w r :
  Ready cfg data (cur w) r -> (2 * length data + 3 <= fuel)%nat ->
  let fk := resolve_key (m_numericSequenceId cfg) r (registry (corpus w)) in
  exists c',
    TryGetSequenceId cfg fuel w
    = Ok (fst (fst fk)) (set_registry (snd fk) (set_cur c' w)) /\
    Ready cfg data c' (snd (fst fk)).
Proof.
  intros [[L _]|[-> Fin]] Hf.
  - apply TryGetSequenceId_loop_live; [assumption|].
    pose proof (live_unread_le _ _ L). pose proof (live_length_le _ _ L). lia.
  - destruct fuel; [lia|]. cbn. rewrite (fin_done _ _ Fin). cbn [negb].
    exists (cur w). rewrite set_cur_same, set_registry_same.
    split; [reflexivity|]. right. split; [reflexivity | assumption].
Qed.

(** *** The emitter *)

(** *** Line-delimited scanning *)

Lemma BuildFromLines_loop_live fuel : forall w r lines offset,
  Live cfg data (cur w) r ->
  (length r + length (unread (cur w)) + 2 <= fuel)%nat ->
  let sc := lines_scan r offset
              (Z.of_nat (length data) - Z.of_nat (length r)) lines in
  exists c',
    BuildFromLines_loop cfg fuel lines offset w
    = Ok (snd sc) (set_cur c' (emit_all cfg (fst sc) w)) /\
    Finished data c'.
Proof.
  induction fuel as [|fuel IH]; intros w r lines offset L Hf; [lia|].
  cbn [BuildFromLines_loop]. cbv zeta.
  rewrite (live_done _ _ _ _ L). cbn [negb].
  rewrite (memchr_live _ _ _ L).
  pose proof (live_pos_nonzero _ _ L) as Hp.
  pose proof (buffered_length _ _ L) as Hb.
  pose proof (live_rest _ _ _ _ L) as R.
  pose proof (GetFileOffset_live _ _ L) as G.
  assert (Hlen : length r
                 = (length (buffered cfg (cur w)) + length (unread (cur w)))%nat)
    by (rewrite R at 1; apply length_app).
  destruct (find_byte ROW_DELIMITER (buffered cfg (cur w))) as [i|] eqn:F.
  - cbn [cur set_cur m_pos set_pos].
    destruct (Z.eqb_spec (m_pos (cur w) + Z.of_nat i) 0); [lia|].
    cbn [negb]. unfold bind. rewrite AddSequenceIfIncluded_emit.
    rewrite emit_set_cur. unfold modify, inc_pos.
    cbn [cur set_cur m_pos set_pos].
    rewrite GetFileOffset_set_pos, G.
    pose proof (find_byte_bound _ _ _ F) as Hi.
    assert (L' : Live cfg data (set_pos (m_pos (cur w) + Z.of_nat (S i)) (cur w))
                   (skipn (S i) r))
      by (apply live_advance; [assumption | lia]).
    replace (m_pos (cur w) + Z.of_nat i + 1)
      with (m_pos (cur w) + Z.of_nat (S i)) by lia.
    match goal with
    | |- context [BuildFromLines_loop cfg fuel ?ls ?off ?W] =>
        specialize (IH W (skipn (S i) r) ls off L')
    end.
    cbn [cur set_cur] in IH. rewrite length_skipn, !unread_set_pos in IH.
    specialize (IH ltac:(lia)). cbv zeta in IH.
    destruct IH as (c' & E & Fin). exists c'. split; [|exact Fin].
    rewrite E. clear E.
    pose proof (lines_scan_found _ (unread (cur w)) _ offset
                  (Z.of_nat (length data) - Z.of_nat (length r)) lines F)
      as Hsc.
    rewrite <- R in Hsc. cbv zeta in Hsc. rewrite Hsc.
    cbn [fst snd emit_all fold_left].
    replace (Z.of_nat (length data) - Z.of_nat (length r - S i))
      with (Z.of_nat (length data) - Z.of_nat (length r) + Z.of_nat i + 1)
      by lia.
    rewrite !emit_all_set_cur. reflexivity.
  - rewrite Z.eqb_refl. cbn [negb]. unfold bind, on_cursor, zoom.
    cbn [cur set_cur].
    assert (D : Drained data (set_pos 0 (cur w)) (unread (cur w))).
    { destruct L. constructor; auto. }
    pose proof (lines_scan_none _ (unread (cur w)) offset
                  (Z.of_nat (length data) - Z.of_nat (length r)) lines F)
      as Hsc.
    rewrite <- R in Hsc. rewrite Hsc. clear Hsc.
    destruct (RefillBuffer_drained _ _ D)
      as (c' & -> & [[E0 Fin]|(NE0 & L2 & _ & Lt & Hu & _)]).
    + rewrite E0. cbn [lines_scan fst snd emit_all fold_left].
      destruct fuel; [lia|]. cbn [BuildFromLines_loop cur set_cur].
      rewrite (fin_done _ _ Fin). cbn [negb].
      exists c'. split; [reflexivity | assumption].
    + specialize (IH (set_cur c' (set_cur (set_pos 0 (cur w)) w))
                    _ lines offset L2).
      cbn [cur set_cur] in IH. specialize (IH ltac:(lia)). cbv zeta in IH.
      destruct IH as (c2 & E & Fin). exists c2. split; [|exact Fin].
      rewrite E.
      replace (Z.of_nat (length data) - Z.of_nat (length r)
               + Z.of_nat (length (buffered cfg (cur w))))
        with (Z.of_nat (length data) - Z.of_nat (length (unread (cur w))))
        by lia.
      change (set_cur c' (set_cur (set_pos 0 (cur w)) w)) with (set_cur c' w).
      rewrite emit_all_set_cur. reflexivity.
Qed.

Lemma Build_loop_ready steps : forall fuel r sd ck w,
  Ready cfg data (cur w) r ->
  (length r < steps)%nat ->
  (length r + 2 * length data + 4 <= fuel)%nat ->
  let kg := key_groups cfg (Z.of_nat (length data)) steps r sd ck w in
  exists c',
    Build_loop cfg fuel sd ck w = Ok (fst kg) (set_cur c' (snd kg)) /\
    Finished data c'.
Proof.
  induction steps as [|steps IH]; intros fuel r sd ck w Rd Hs Hf; [lia|].
  destruct fuel as [|fuel]; [lia|].
  cbv zeta. cbn [Build_loop key_groups].
  destruct Rd as [[L Lt]|[-> Fin]].
  2:{ rewrite (fin_done _ _ Fin). cbn [negb fst snd].
      exists (cur w). rewrite set_cur_same. split; [reflexivity | assumption]. }
  rewrite (live_done _ _ _ _ L). cbn [negb].
  pose proof (live_nonempty _ _ L Lt) as NE.
  destruct r as [|x r]; [congruence|]. clear NE.
  destruct (SkipLine_ready fuel (cur w) (x :: r) (or_introl (conj L Lt))
              ltac:(lia)) as (c1 & Sk & Rd1).
  pose proof (skip_line_shorter (x :: r) ltac:(discriminate)) as Hsh.
  unfold bind at 1. unfold on_cursor, zoom. rewrite Sk.
  unfold bind at 1. unfold gets at 1.
  unfold bind at 1. unfold gets at 1. cbn [cur set_cur].
  destruct Rd1 as [[L1 Lt1]|[E1 Fin1]].
  - rewrite (live_done _ _ _ _ L1). cbn [negb].
    pose proof (live_nonempty _ _ L1 Lt1) as NE1.
    pose proof (GetFileOffset_live _ _ L1) as G1.
    destruct (skip_line (x :: r)) as [|y r1]; [congruence|]. clear NE1.
    pose proof (TryGetSequenceId_ready fuel (set_cur c1 w) (y :: r1)
                  (or_introl (conj L1 Lt1)) ltac:(lia)) as T.
    cbv zeta in T. destruct T as (c2 & T & Rd2).
    unfold bind at 1. rewrite T. clear T.
    change (registry (corpus (set_cur c1 w))) with (registry (corpus w))
      in *.
    pose proof (resolve_key_length (m_numericSequenceId cfg) (y :: r1)
                  (registry (corpus w))) as [Hle _].
    destruct (resolve_key (m_numericSequenceId cfg) (y :: r1)
                (registry (corpus w))) as [[[found id] r2] reg].
    cbn [fst snd] in *. rewrite G1.
    destruct (found && negb (id =? ck)).
    + unfold bind. rewrite AddSequenceIfIncluded_emit.
      change (set_registry reg (set_cur c2 (set_cur c1 w)))
        with (set_cur c2 (set_registry reg w)).
      rewrite emit_set_cur.
      match goal with
      | |- context [Build_loop cfg fuel ?s ?k (set_cur c2 ?W)] =>
          destruct (IH fuel r2 s k (set_cur c2 W) Rd2 ltac:(lia) ltac:(lia))
            as (c3 & -> & Fin3)
      end.
      rewrite key_groups_set_cur. cbn [fst snd].
      exists c3. split; [reflexivity | assumption].
    + change (set_registry reg (set_cur c2 (set_cur c1 w)))
        with (set_cur c2 (set_registry reg w)).
      match goal with
      | |- context [Build_loop cfg fuel ?s ?k (set_cur c2 ?W)] =>
          destruct (IH fuel r2 s k (set_cur c2 W) Rd2 ltac:(lia) ltac:(lia))
            as (c3 & -> & Fin3)
      end.
      rewrite key_groups_set_cur. cbn [fst snd].
      exists c3. split; [reflexivity | assumption].
  - rewrite (fin_done _ _ Fin1), E1. cbn [negb].
    destruct fuel as [|fuel]; [lia|]. cbn [Build_loop cur set_cur].
    rewrite (fin_done _ _ Fin1). cbn [negb fst snd].
    exists c1. split; [reflexivity | assumption].
Qed.

(** [Build] from a cursor that has read nothing: for enough fuel it ends as
    [scan] says, up to the cursor. *)
Lemma Build_scan fuel w :
  Drained data (cur w) data -> (enough_fuel data <= fuel)%nat ->
  exists c',
    match scan cfg data w with
    | Completed W => Build cfg fuel w = Ok tt (set_cur c' W)
    | Failed e W => Build cfg fuel w = Raise e (set_cur c' W)
    | Unfinished => False
    end.
Proof.
  unfold enough_fuel. intros D Hf. unfold scan, Build.
  destruct (negb (IsEmpty (m_index w))).
  { exists (cur w). rewrite set_cur_same. reflexivity. }
  rewrite bind_modify. unfold filesize. rewrite (dr_data _ _ _ D).
  set (w0 := set_index (Reserve (Z.of_nat (length data)) (m_index w)) w).
  assert (D0 : Drained data (cur w0) data) by exact D.
  destruct (RefillBuffer_drained _ _ D0)
    as (c1 & Rf & [[E0 Fin]|(NE0 & L1 & Eq1 & Lt1 & _ & B1)]);
    rewrite (bind_ok _ _ _ _ _ (on_cursor_ok _ _ _ _ Rf)), bind_gets;
    cbn [cur set_cur].
  { rewrite (fin_done _ _ Fin). rewrite E0. exists c1. reflexivity. }
  rewrite (live_done _ _ _ _ L1).
  rewrite (match_nonempty _ _ _ NE0).
  erewrite bind_ok
    by (cbn [cur set_cur]; rewrite (has_bom_first _ L1 Eq1 B1); reflexivity).
  pose proof (buffered_length _ _ L1) as Hb1.
  assert (exists c2 r,
            (if bom_skipped (m_bufferSize cfg) data
             then modify (fun w => set_cur (skip_bom (cur w)) w)
             else ret tt) (set_cur c1 w0) = Ok tt (set_cur c2 w0) /\
            r = (if bom_skipped (m_bufferSize cfg) data
                 then skipn 3 data else data) /\
            Live cfg data c2 r /\ m_pos c2 = m_bufferStart c2 /\
            m_pos c2 < m_bufferEnd c2 /\
            Z.of_nat (length data) - Z.of_nat (length r)
            = (if bom_skipped (m_bufferSize cfg) data then 3 else 0))
    as (c2 & r & Sk & Er & L2 & Eq2 & Lt2 & Hstart).
  { destruct (bom_skipped (m_bufferSize cfg) data) eqn:Bom.
    - unfold bom_skipped in Bom. apply andb_prop in Bom as [Bom _].
      apply Z.ltb_lt in Bom. rewrite B1, length_firstn in Hb1.
      destruct (skip_bom_live _ _ L1 Eq1 ltac:(lia)) as (L2 & Eq2 & Lt2).
      exists (skip_bom c1), (skipn 3 data).
      split; [reflexivity|]. split; [reflexivity|]. split; [exact L2|].
      split; [exact Eq2|]. split; [exact Lt2|]. rewrite length_skipn. lia.
    - exists c1, data.
      split; [reflexivity|]. split; [reflexivity|]. split; [exact L1|].
      split; [exact Eq1|]. split; [exact Lt1|]. lia. }
  rewrite (bind_ok _ _ _ _ _ Sk). rewrite <- Er. clear Er Sk.
  erewrite bind_ok
    by (rewrite (lines_mode_live (set_cur c2 w0) r L2 Eq2 Lt2); reflexivity).
  change (m_hasSequenceIds (set_cur c2 w0)) with (m_hasSequenceIds w0).
  pose proof (GetFileOffset_live _ _ L2) as G2. rewrite Hstart in G2.
  destruct (negb (m_hasSequenceIds w0) || first_is (m_streamPrefix cfg) r).
  - (* lines *)
    unfold BuildFromLines. cbn [cur set_cur].
    rewrite Eq2, Z.eqb_refl. cbn [negb]. unfold bind at 1.
    change (set_hasSequenceIds false (set_cur c2 w0))
      with (set_cur c2 (set_hasSequenceIds false w0)).
    match goal with
    | |- context [BuildFromLines_loop cfg fuel ?ls ?off ?W] =>
        destruct (BuildFromLines_loop_live fuel W r ls off L2) as (c3 & E3 & Fin3)
    end.
    { pose proof (live_unread_le _ _ L2). pose proof (live_length_le _ _ L2).
      cbn [cur set_cur]. lia. }
    rewrite E3. clear E3. cbn [cur set_cur] in *.
    rewrite G2, Hstart.
    destruct (lines_scan r (if bom_skipped (m_bufferSize cfg) data then 3 else 0)
                (if bom_skipped (m_bufferSize cfg) data then 3 else 0) 0)
      as [l [lines offset]].
    cbn [fst snd cur set_cur]. rewrite (fin_end _ _ Fin3).
    rewrite emit_all_set_cur.
    destruct (offset <? Z.of_nat (length data)).
    + rewrite AddSequenceIfIncluded_emit, emit_set_cur, emit_set_cur.
      exists c3. reflexivity.
    + exists c3. reflexivity.
  - (* keys *)
    rewrite bind_gets. cbn [cur set_cur]. rewrite G2.
    pose proof (TryGetSequenceId_ready fuel (set_cur c2 w0) r
                  (or_introl (conj L2 Lt2))) as T.
    cbv zeta in T. destruct T as (c3 & T & Rd3).
    { pose proof (live_length_le _ _ L2). lia. }
    rewrite (bind_ok _ _ _ _ _ T). clear T.
    change (registry (corpus (set_cur c2 w0))) with (registry (corpus w0)) in *.
    pose proof (resolve_key_length (m_numericSequenceId cfg) r
                  (registry (corpus w0))) as [Hle _].
    destruct (resolve_key (m_numericSequenceId cfg) r (registry (corpus w0)))
      as [[[found id] r1] reg].
    cbn [fst snd] in *.
    change (set_registry reg (set_cur c3 (set_cur c2 w0)))
      with (set_cur c3 (set_registry reg w0)).
    destruct found; cbn [negb].
    + pose proof (live_length_le _ _ L2).
      match goal with
      | |- context [Build_loop cfg fuel ?s ?k] =>
          destruct (Build_loop_ready (S (length r1)) fuel r1 s k
                      (set_cur c3 (set_registry reg w0))
                      Rd3 ltac:(lia) ltac:(lia)) as (c4 & E4 & Fin4)
      end.
      cbv zeta in E4. rewrite (bind_ok _ _ _ _ _ E4). clear E4.
      rewrite key_groups_set_cur. cbn [fst snd].
      match goal with
      | |- context [key_groups ?a ?b ?c ?d ?e ?f ?g] =>
          destruct (key_groups a b c d e f g) as [[sd currentKey] w2]
      end.
      cbn [fst snd]. rewrite bind_gets. cbn [cur set_cur].
      rewrite (fin_end _ _ Fin4), AddSequenceIfIncluded_emit, !emit_set_cur.
      exists c4. reflexivity.
    + exists c3. reflexivity.
Qed.

End Refinement.

(* ================================================================= *)
(** ** Byte ranges of the discovered sequences *)

Lemma tiles_app a b c l1 : forall l2,
  tiles a b l1 -> tiles b c l2 -> tiles a c (l1 ++ l2).
Proof.
  revert a; induction l1 as [|sd l1 IH]; cbn; intros a l2.
  - intros ->. auto.
  - intros (E & P & T) T2. repeat split; auto.
Qed.

Lemma tiles_le a b l : tiles a b l -> a <= b.
Proof.
  revert a; induction l as [|sd l IH]; cbn; intros a.
  - lia.
  - intros (_ & P & T). apply IH in T. lia.
Qed.

Lemma calls_emit cfg id sd w :
  calls (emit cfg id sd w) = calls w ++ [(id, sd)].
Proof.
  unfold emit. cbn.
  match goal with
  | |- context [IsIncluded ?c ?k] => destruct (IsIncluded c k)
  end; reflexivity.
Qed.

Lemma calls_emit_all cfg l : forall w,
  calls (emit_all cfg l w) = calls w ++ l.
Proof.
  induction l as [|[id sd] l IH]; intros w; cbn.
  - symmetry. apply app_nil_r.
  - unfold emit_all in IH. rewrite IH, calls_emit, <- app_assoc. reflexivity.
Qed.

Lemma lines_scan_tiles r : forall start at_ lines,
  start <= at_ ->
  let sc := lines_scan r start at_ lines in
  tiles start (snd (snd sc)) (map snd (fst sc)) /\
  start <= snd (snd sc) <= at_ + Z.of_nat (length r).
Proof.
  induction r as [|c r IH]; intros start at_ lines Hle; cbn [lines_scan].
  - cbn. lia.
  - destruct (is_nl c).
    + specialize (IH (at_ + 1) (at_ + 1) (lines + 1) ltac:(lia)).
      cbv zeta in IH.
      destruct (lines_scan r (at_ + 1) (at_ + 1) (lines + 1)) as [l fin].
      cbn [fst snd map tiles m_fileOffsetBytes m_byteSize length] in *.
      destruct IH as [T B]. split.
      * repeat split; [lia|].
        replace (start + (at_ + 1 - start)) with (at_ + 1) by lia. exact T.
      * lia.
    + specialize (IH start (at_ + 1) lines ltac:(lia)). cbv zeta in IH.
      cbn [length]. destruct IH as [T B]. split; [exact T | lia].
Qed.

Lemma key_groups_tiles cfg n steps : forall r sd ck w,
  m_fileOffsetBytes sd < n - Z.of_nat (length r) ->
  let kg := key_groups cfg n steps r sd ck w in
  exists l,
    calls (snd kg) = calls w ++ l /\
    tiles (m_fileOffsetBytes sd) (m_fileOffsetBytes (fst (fst kg)))
          (map snd l) /\
    m_fileOffsetBytes (fst (fst kg)) < n.
Proof.
  induction steps as [|steps IH]; intros r sd ck w Hsd; cbv zeta;
    cbn [key_groups].
  { exists []. rewrite app_nil_r. cbn. repeat split; lia. }
  destruct r as [|x r].
  { exists []. rewrite app_nil_r. cbn in *. repeat split; lia. }
  pose proof (skip_line_length (x :: r)) as Hsk.
  destruct (skip_line (x :: r)) as [|y r1].
  { exists []. rewrite app_nil_r. cbn in *. repeat split; lia. }
  pose proof (resolve_key_length (m_numericSequenceId cfg) (y :: r1)
                (registry (corpus w))) as [Hle Hlt].
  destruct (resolve_key (m_numericSequenceId cfg) (y :: r1)
              (registry (corpus w))) as [[[found id] r2] reg].
  cbn [fst snd] in Hle, Hlt.
  destruct found; cbn [andb].
  - specialize (Hlt eq_refl). destruct (negb (id =? ck)).
    + match goal with
      | |- context [key_groups cfg n steps r2 ?s ?k ?W] =>
          destruct (IH r2 s k W) as (l & Ec & T & Hn)
      end.
      { cbn [sd_at m_fileOffsetBytes]. lia. }
      rewrite calls_emit in Ec. cbn [calls set_registry] in Ec.
      eexists. split; [rewrite Ec, <- app_assoc; reflexivity|].
      split; [|exact Hn].
      cbn [app map snd tiles set_byteSize add_sample m_fileOffsetBytes
           m_byteSize sd_at] in *.
      repeat split; [lia|].
      replace (m_fileOffsetBytes sd
               + (n - Z.of_nat (length (y :: r1)) - m_fileOffsetBytes sd))
        with (n - Z.of_nat (length (y :: r1))) by lia.
      exact T.
    + destruct (IH r2 (add_sample sd) ck (set_registry reg w))
        as (l & Ec & T & Hn).
      { cbn [add_sample m_fileOffsetBytes]. lia. }
      exists l. auto.
  - destruct (IH r2 (add_sample sd) ck (set_registry reg w))
      as (l & Ec & T & Hn).
    { cbn [add_sample m_fileOffsetBytes]. lia. }
    exists l. auto.
Qed.

(* ================================================================= *)
(** ** What [scan] depends on *)

Lemma scan_set_cur cfg data c w :
  scan cfg data (set_cur c w) = map_observation (set_cur c) (scan cfg data w).
Proof.
  unfold scan. cbn [m_index set_cur m_hasSequenceIds corpus set_index].
  destruct (negb (IsEmpty (m_index w))); [reflexivity|].
  destruct data as [|d0 dt]; [reflexivity|].
  set (n := Z.of_nat (length (d0 :: dt))).
  set (r := if bom_skipped (m_bufferSize cfg) (d0 :: dt)
            then skipn 3 (d0 :: dt) else d0 :: dt).
  set (start := if bom_skipped (m_bufferSize cfg) (d0 :: dt) then 3 else 0).
  set (w0 := set_index (Reserve n (m_index w)) w).
  change (set_index (Reserve n (m_index w)) (set_cur c w))
    with (set_cur c w0).
  change (m_hasSequenceIds w) with (m_hasSequenceIds w0).
  destruct (negb (m_hasSequenceIds w0) || first_is (m_streamPrefix cfg) r).
  - destruct (lines_scan r start start 0) as [l [lines offset]].
    change (set_hasSequenceIds false (set_cur c w0))
      with (set_cur c (set_hasSequenceIds false w0)).
    rewrite emit_all_set_cur, emit_set_cur.
    destruct (offset <? n); reflexivity.
  - match goal with
    | |- context [resolve_key ?a ?b ?c] =>
        destruct (resolve_key a b c) as [[[found id] r1] reg]
    end.
    change (set_registry reg (set_cur c w0))
      with (set_cur c (set_registry reg w0)).
    destruct found; cbn [negb]; [|reflexivity].
    rewrite key_groups_set_cur.
    destruct (key_groups cfg n (S (length r1)) r1 (sd_at start) id
                (set_registry reg w0)) as [[sd ck] w2].
    cbn [fst snd map_observation]. rewrite emit_set_cur. reflexivity.
Qed.

Lemma emit_ext cfg1 cfg2 id sd w :
  m_numericSequenceId cfg1 = m_numericSequenceId cfg2 ->
  sequenceKey cfg1 = sequenceKey cfg2 ->
  emit cfg1 id sd w = emit cfg2 id sd w.
Proof. unfold emit. intros -> ->. reflexivity. Qed.

Lemma emit_all_ext cfg1 cfg2 l :
  m_numericSequenceId cfg1 = m_numericSequenceId cfg2 ->
  sequenceKey cfg1 = sequenceKey cfg2 ->
  forall w, emit_all cfg1 l w = emit_all cfg2 l w.
Proof.
  intros Hn Hk. induction l as [|x l IH]; intros w; cbn; [reflexivity|].
  rewrite (emit_ext cfg1 cfg2 _ _ _ Hn Hk). apply IH.
Qed.

Lemma key_groups_ext cfg1 cfg2 n steps :
  m_numericSequenceId cfg1 = m_numericSequenceId cfg2 ->
  sequenceKey cfg1 = sequenceKey cfg2 ->
  forall r sd ck w,
    key_groups cfg1 n steps r sd ck w = key_groups cfg2 n steps r sd ck w.
Proof.
  intros Hn Hk. induction steps as [|steps IH]; intros r sd ck w;
    cbn [key_groups]; [reflexivity|].
  destruct r as [|x r]; [reflexivity|].
  destruct (skip_line (x :: r)) as [|y r1]; [reflexivity|].
  rewrite Hn.
  destruct (resolve_key (m_numericSequenceId cfg2) (y :: r1)
              (registry (corpus w))) as [[[found id] r2] reg].
  destruct (found && negb (id =? ck)).
  - rewrite (emit_ext cfg1 cfg2 _ _ _ Hn Hk). apply IH.
  - apply IH.
Qed.

(** [scan] uses the buffer capacity only to decide whether the BOM is
    skipped. *)
Lemma scan_ext cfg1 cfg2 data w :
  m_streamPrefix cfg1 = m_streamPrefix cfg2 ->
  m_numericSequenceId cfg1 = m_numericSequenceId cfg2 ->
  sequenceKey cfg1 = sequenceKey cfg2 ->
  bom_skipped (m_bufferSize cfg1) data = bom_skipped (m_bufferSize cfg2) data ->
  scan cfg1 data w = scan cfg2 data w.
Proof.
  intros Hp Hn Hk Hb. unfold scan. rewrite Hp, Hn, Hb.
  destruct (negb (IsEmpty (m_index w))); [reflexivity|].
  destruct data as [|d0 dt]; [reflexivity|].
  match goal with
  | |- context [if ?c then let '(_, _) := lines_scan _ _ _ _ in _ else _] =>
      destruct c
  end.
  - match goal with
    | |- context [lines_scan ?a ?b ?c ?d] =>
        destruct (lines_scan a b c d) as [l [lines offset]]
    end.
    rewrite (emit_all_ext cfg1 cfg2 l Hn Hk).
    rewrite (emit_ext cfg1 cfg2 _ _ _ Hn Hk). reflexivity.
  - match goal with
    | |- context [resolve_key ?a ?b ?c] =>
        destruct (resolve_key a b c) as [[[found id] r1] reg]
    end.
    destruct found; cbn [negb]; [|reflexivity].
    rewrite (key_groups_ext cfg1 cfg2 _ _ Hn Hk).
    match goal with
    | |- context [key_groups ?a ?b ?c ?d ?e ?f ?g] =>
        destruct (key_groups a b c d e f g) as [[sd ck] w2]
    end.
    rewrite (emit_ext cfg1 cfg2 _ _ _ Hn Hk). reflexivity.
Qed.

Lemma outside_set_cur c w : outside (set_cur c w) = outside w.
Proof. reflexivity. Qed.

Lemma outside_eq_set_cur w1 w2 :
  outside w1 = outside w2 -> w2 = set_cur (cur w2) w1.
Proof.
  destruct w1, w2. unfold outside. cbn. intros [= -> -> -> ->]. reflexivity.
Qed.

Lemma Indexer_new_open cfg isPrimary skip chunkSize heap corp data :
  Indexer_new cfg isPrimary (Some (open_file data)) skip chunkSize heap corp
  = inr (fresh cfg isPrimary skip chunkSize heap corp data).
Proof. reflexivity. Qed.

Lemma fresh_drained cfg isPrimary skip chunkSize heap corp data :
  Drained data (cur (fresh cfg isPrimary skip chunkSize heap corp data)) data.
Proof. constructor; cbn; auto; lia. Qed.

(** [Build] on a fresh indexer is [scan], for every buffer capacity. *)
Lemma Build_fresh cfg isPrimary skip chunkSize heap corp data fuel :
  (1 <= m_bufferSize cfg)%nat -> Z.of_nat (m_bufferSize cfg) < SIZE_MAX ->
  (enough_fuel data <= fuel)%nat ->
  let w := fresh cfg isPrimary skip chunkSize heap corp data in
  same_outside (observe (Build cfg fuel w)) (scan cfg data w).
Proof.
  intros H1 H2 Hf w.
  destruct (Build_scan cfg data H1 H2 fuel w
              (fresh_drained _ _ _ _ _ _ _) Hf) as (c' & E).
  destruct (scan cfg data w) as [W|e W|]; [| |contradiction];
    rewrite E; constructor; reflexivity.
Qed.

(* ================================================================= *)
(** ** Outcome of a scan of a fresh indexer *)

Lemma startOffset_scanned cfg data :
  Z.of_nat (length data) - Z.of_nat (length (scanned cfg data))
  = startOffset cfg data.
Proof.
  unfold startOffset, scanned, bom_skipped.
  destruct (Z.ltb_spec 3 (Z.of_nat (Nat.min (m_bufferSize cfg) (length data))));
    cbn [andb]; [|lia].
  destruct (starts_with_bom data); [|lia].
  rewrite length_skipn. lia.
Qed.

Lemma scan_outcome cfg data w :
  IsEmpty (m_index w) = true -> calls w = [] ->
  match scan cfg data w with
  | Completed W =>
      data <> [] /\
      (by_lines cfg (negb (m_hasSequenceIds w)) data = true \/
       first_key_found cfg data (registry (corpus w)) = true) /\
      tiles (startOffset cfg data) (Z.of_nat (length data))
            (map snd (calls W))
  | Failed e W =>
      (data = [] /\ e = InputFileEmpty) \/
      (data <> [] /\
       by_lines cfg (negb (m_hasSequenceIds w)) data = false /\
       first_key_found cfg data (registry (corpus w)) = false /\
       e = ExpectedSequenceId (startOffset cfg data))
  | Unfinished => False
  end.
Proof.
  intros He Hc. unfold scan. rewrite He. cbn [negb].
  destruct data as [|d0 dt] eqn:Ed; [left; auto|]. rewrite <- Ed.
  assert (NE : data <> []) by (rewrite Ed; discriminate).
  pose proof (startOffset_scanned cfg data) as Hs.
  unfold by_lines, first_key_found.
  fold (scanned cfg data). fold (startOffset cfg data).
  set (n := Z.of_nat (length data)) in *.
  set (r := scanned cfg data) in *. set (start := startOffset cfg data) in *.
  cbn [m_hasSequenceIds set_index corpus].
  destruct (negb (m_hasSequenceIds w) || first_is (m_streamPrefix cfg) r)
    eqn:Hl.
  - pose proof (lines_scan_tiles r start start 0 ltac:(lia)) as T.
    cbv zeta in T.
    destruct (lines_scan r start start 0) as [l [lines offset]].
    cbn [fst snd] in T. destruct T as [T B].
    destruct (Z.ltb_spec offset n).
    + split; [exact NE|]. split; [left; reflexivity|].
      rewrite calls_emit, calls_emit_all. cbn [calls set_hasSequenceIds set_index].
      rewrite Hc, app_nil_l, map_app.
      apply (tiles_app _ offset); [exact T|].
      cbn. repeat split; lia.
    + split; [exact NE|]. split; [left; reflexivity|].
      rewrite calls_emit_all. cbn [calls set_hasSequenceIds set_index].
      rewrite Hc, app_nil_l. replace n with offset by lia. exact T.
  - pose proof (resolve_key_length (m_numericSequenceId cfg) r
                  (registry (corpus w))) as [Hle Hlt].
    destruct (resolve_key (m_numericSequenceId cfg) r (registry (corpus w)))
      as [[[found id] r1] reg].
    cbn [fst snd] in *. destruct found; cbn [negb].
    + specialize (Hlt eq_refl).
      pose proof (key_groups_tiles cfg n (S (length r1)) r1 (sd_at start) id
                    (set_registry reg
                       (set_index (Reserve n (m_index w)) w))) as K.
      cbv zeta in K. destruct K as (l & Ec & T & Hn).
      { cbn [sd_at m_fileOffsetBytes]. lia. }
      match goal with
      | |- context [key_groups ?a ?b ?c ?d ?e ?f ?g] =>
          destruct (key_groups a b c d e f g) as [[sd ck] w2]
      end.
      cbn [fst snd] in *. split; [exact NE|]. split; [right; reflexivity|].
      rewrite calls_emit, Ec. cbn [calls set_registry set_index].
      rewrite Hc, app_nil_l, map_app.
      cbn [sd_at m_fileOffsetBytes] in T.
      apply (tiles_app _ (m_fileOffsetBytes sd)); [exact T|].
      cbn. repeat split; lia.
    + right. auto.
Qed.

Lemma Build_fresh_outcome cfg isPrimary skip chunkSize heap corp data fuel :
  (1 <= m_bufferSize cfg)%nat -> Z.of_nat (m_bufferSize cfg) < SIZE_MAX ->
  (enough_fuel data <= fuel)%nat ->
  match Build cfg fuel (fresh cfg isPrimary skip chunkSize heap corp data) with
  | Ok _ w' =>
      data <> [] /\
      (by_lines cfg skip data = true \/
       first_key_found cfg data (registry corp) = true) /\
      tiles (startOffset cfg data) (Z.of_nat (length data))
            (map snd (calls w'))
  | Raise e _ =>
      (data = [] /\ e = InputFileEmpty) \/
      (data <> [] /\ by_lines cfg skip data = false /\
       first_key_found cfg data (registry corp) = false /\
       e = ExpectedSequenceId (startOffset cfg data))
  | OutOfFuel => False
  end.
Proof.
  intros H1 H2 Hf.
  pose proof (Build_fresh cfg isPrimary skip chunkSize heap corp data fuel
                H1 H2 Hf) as S.
  cbv zeta in S.
  pose proof (scan_outcome cfg data
                (fresh cfg isPrimary skip chunkSize heap corp data)
                eq_refl eq_refl) as O.
  cbn [fresh m_hasSequenceIds corpus] in O. rewrite negb_involutive in O.
  inversion S as [W W' Eo E1 E2 | e W W' Eo E1 E2];
    rewrite <- E2 in O;
    destruct (Build cfg fuel (fresh cfg isPrimary skip chunkSize heap corp data));
    try discriminate; cbn [observe] in E1.
  - injection E1 as <-. unfold outside in Eo.
    injection Eo as _ _ _ ->. exact O.
  - injection E1 as <- <-. exact O.
Qed.

(* ================================================================= *)
(** ** Properties of the indexer *)

Lemma same_outside_sym o1 o2 : same_outside o1 o2 -> same_outside o2 o1.
Proof. intros [w w' E|e w w' E]; constructor; symmetry; exact E. Qed.

Lemma same_outside_trans o1 o2 o3 :
  same_outside o1 o2 -> same_outside o2 o3 -> same_outside o1 o3.
Proof.
  intros [w w' E|e w w' E] H; inversion H; subst; constructor; congruence.
Qed.

Lemma same_outside_set_cur c o :
  o <> Unfinished -> same_outside (map_observation (set_cur c) o) o.
Proof. destruct o; [constructor | constructor | congruence]; reflexivity. Qed.

Lemma bom_skipped_agree B1 B2 data :
  (4 <= B1)%nat /\ (4 <= B2)%nat \/ starts_with_bom data = false ->
  bom_skipped B1 data = bom_skipped B2 data.
Proof.
  unfold bom_skipped. intros [[H1 H2]| ->]; [|rewrite !andb_false_r; reflexivity].
  f_equal.
  destruct (Z.ltb_spec 3 (Z.of_nat (Nat.min B1 (length data))));
    destruct (Z.ltb_spec 3 (Z.of_nat (Nat.min B2 (length data))));
    try reflexivity; lia.
Qed.

(** C1, as stated, fails: in line-delimited mode, a file of exactly the
    three BOM bytes read with a buffer of 64 bytes, and a longer file that
    begins with the BOM read with a buffer of three bytes, have their
    ranges start at offset 0, not 3. *)
Lemma C1_counterexample :
  (exists w',
     Build (config true 64) 13 (fresh (config true 64) true true 32 no_heap
                                      everything bom_only) = Ok tt w' /\
     starts_with_bom bom_only = true /\
     ~ tiles 3 (Z.of_nat (length bom_only)) (map snd (calls w'))) /\
  (exists w',
     Build (config true 3) 19 (fresh (config true 3) true true 32 no_heap
                                     everything bom_a_nl) = Ok tt w' /\
     starts_with_bom bom_a_nl = true /\
     ~ tiles 3 (Z.of_nat (length bom_a_nl)) (map snd (calls w'))).
Proof.
  split; eexists; (split; [vm_compute; reflexivity|]);
    (split; [reflexivity|]); cbn; intros [H _]; discriminate.
Qed.

(** C1 (amended): whenever [Build] completes on a fresh indexer, the byte
    ranges of the descriptors handed to the emitter, in discovery order and
    before the corpus filter, are non-empty, each begins where the previous
    one ends, and together they cover exactly [[startOffset, fileSize)];
    [startOffset] is 3 when the first block read holds more than three
    bytes and begins with the BOM, and 0 otherwise.  [Build] completes on
    every non-empty file in line-delimited mode, and in key-grouped mode
    when a first key is found; otherwise it raises "empty input" or
    "expected a sequence id". *)
Theorem C1_ranges_tile_the_scanned_bytes
  cfg isPrimary skip chunkSize heap corp data fuel :
  (1 <= m_bufferSize cfg)%nat -> Z.of_nat (m_bufferSize cfg) < SIZE_MAX ->
  (enough_fuel data <= fuel)%nat ->
  let w := fresh cfg isPrimary skip chunkSize heap corp data in
  match Build cfg fuel w with
  | Ok _ w' =>
      tiles (startOffset cfg data) (Z.of_nat (length data))
            (map snd (calls w'))
  | Raise e _ =>
      (data = [] /\ e = InputFileEmpty) \/
      (by_lines cfg skip data = false /\
       first_key_found cfg data (registry corp) = false /\
       e = ExpectedSequenceId (startOffset cfg data))
  | OutOfFuel => False
  end /\
  (data <> [] ->
   by_lines cfg skip data = true \/
   first_key_found cfg data (registry corp) = true ->
   exists w', Build cfg fuel w = Ok tt w').
Proof.
  intros H1 H2 Hf w.
  pose proof (Build_fresh_outcome cfg isPrimary skip chunkSize heap corp data
                fuel H1 H2 Hf) as O.
  fold w in O. destruct (Build cfg fuel w) as [[] w'|e w'|].
  - split; [apply O|]. intros _ _. exists w'. reflexivity.
  - split.
    + destruct O as [O|(_ & O)]; [left | right]; exact O.
    + intros NE [L|K]; destruct O as [[O _]|(_ & O1 & O2 & _)]; congruence.
  - contradiction.
Qed.

Lemma C1_witness :
  exists w',
    Build (config true 3) 19 (fresh (config true 3) true true 32 no_heap
                                    everything bom_a_nl) = Ok tt w' /\
    tiles 0 5 (map snd (calls w')).
Proof.
  pose proof (C1_ranges_tile_the_scanned_bytes (config true 3) true true 32
                no_heap everything bom_a_nl 19
                ltac:(vm_compute; lia) ltac:(vm_compute; reflexivity)
                ltac:(vm_compute; lia)) as [_ H].
  destruct (H ltac:(discriminate) ltac:(left; reflexivity)) as [w' E].
  exists w'. split; [exact E|].
  pose proof (C1_ranges_tile_the_scanned_bytes (config true 3) true true 32
                no_heap everything bom_a_nl 19
                ltac:(vm_compute; lia) ltac:(vm_compute; reflexivity)
                ltac:(vm_compute; lia)) as [T _].
  cbv zeta in T. rewrite E in T. exact T.
Defined.

(** C3, as stated, fails: the same file that begins with the BOM is indexed
    differently with a buffer of three bytes and with one of eight. *)
Lemma C3_counterexample :
  exists w1 w2,
    Build (config true 3) 19 (fresh (config true 3) true true 32 no_heap
                                    everything bom_a_nl) = Ok tt w1 /\
    Build (config true 8) 19 (fresh (config true 8) true true 32 no_heap
                                    everything bom_a_nl) = Ok tt w2 /\
    calls w1 <> calls w2.
Proof.
  do 2 eexists. split; [vm_compute; reflexivity|].
  split; [vm_compute; reflexivity|]. cbn. discriminate.
Qed.

(** C3 (amended): for every input file and any two buffer capacities of at
    least four bytes -- or of at least one byte when the file does not
    begin with the BOM -- a full scan has the same outcome: the same error,
    or the same descriptors handed to the emitter, the same index and the
    same registry. *)
Theorem C3_buffer_capacity_independent
  cfg1 cfg2 isPrimary skip chunkSize heap1 heap2 corp data fuel1 fuel2 :
  m_streamPrefix cfg1 = m_streamPrefix cfg2 ->
  m_numericSequenceId cfg1 = m_numericSequenceId cfg2 ->
  sequenceKey cfg1 = sequenceKey cfg2 ->
  (1 <= m_bufferSize cfg1)%nat -> Z.of_nat (m_bufferSize cfg1) < SIZE_MAX ->
  (1 <= m_bufferSize cfg2)%nat -> Z.of_nat (m_bufferSize cfg2) < SIZE_MAX ->
  (4 <= m_bufferSize cfg1)%nat /\ (4 <= m_bufferSize cfg2)%nat \/
  starts_with_bom data = false ->
  (enough_fuel data <= fuel1)%nat -> (enough_fuel data <= fuel2)%nat ->
  same_outside
    (observe (Build cfg1 fuel1
                (fresh cfg1 isPrimary skip chunkSize heap1 corp data)))
    (observe (Build cfg2 fuel2
                (fresh cfg2 isPrimary skip chunkSize heap2 corp data))).
Proof.
  intros Hp Hn Hk A1 A2 B1 B2 Hb F1 F2.
  pose proof (Build_fresh cfg1 isPrimary skip chunkSize heap1 corp data fuel1
                A1 A2 F1) as S1.
  pose proof (Build_fresh cfg2 isPrimary skip chunkSize heap2 corp data fuel2
                B1 B2 F2) as S2.
  cbv zeta in S1, S2.
  eapply same_outside_trans; [exact S1|].
  eapply same_outside_trans; [|apply same_outside_sym; exact S2].
  rewrite (scan_ext cfg1 cfg2 data _ Hp Hn Hk (bom_skipped_agree _ _ _ Hb)).
  change (fresh cfg1 isPrimary skip chunkSize heap1 corp data)
    with (set_cur (cur (fresh cfg1 isPrimary skip chunkSize heap1 corp data))
            (fresh cfg2 isPrimary skip chunkSize heap2 corp data)).
  rewrite scan_set_cur. apply same_outside_set_cur.
  intros E. rewrite E in S2. inversion S2.
Qed.

Lemma C3_witness :
  same_outside
    (observe (Build (config true 4) 19
                (fresh (config true 4) true true 32 no_heap everything
                       bom_a_nl)))
    (observe (Build (config true 8) 19
                (fresh (config true 8) true true 32 no_heap everything
                       bom_a_nl))).
Proof.
  apply C3_buffer_capacity_independent; try reflexivity;
    vm_compute; lia.
Defined.

Lemma bom_skipped_short B data :
  (length data <= 3)%nat -> bom_skipped B data = false.
Proof.
  intros H. unfold bom_skipped.
  destruct (Z.ltb_spec 3 (Z.of_nat (Nat.min B (length data)))); [lia|].
  reflexivity.
Qed.

Lemma bom_skipped_long B data :
  (4 <= B)%nat -> (3 < length data)%nat -> starts_with_bom data = true ->
  bom_skipped B data = true.
Proof.
  intros H1 H2 H3. unfold bom_skipped. rewrite H3.
  destruct (Z.ltb_spec 3 (Z.of_nat (Nat.min B (length data)))); [|lia].
  reflexivity.
Qed.

(** C4, as stated, fails: a file of exactly the three BOM bytes is not
    reported as empty; in line-delimited mode it is indexed as one sequence
    at offset 0, in key-grouped mode the scan fails for want of a sequence
    id at offset 0. *)
Lemma C4_counterexample :
  (exists w',
     Build (config true 64) 13 (fresh (config true 64) true true 32 no_heap
                                      everything bom_only) = Ok tt w' /\
     map snd (calls w') = [mkSD 0 0 0 3 1]) /\
  (exists w',
     Build (config true 64) 13 (fresh (config true 64) true false 32 no_heap
                                      everything bom_only)
     = Raise (ExpectedSequenceId 0) w').
Proof.
  split; eexists; [split|]; vm_compute; reflexivity.
Qed.

(** C4 (amended): [Build] fails with "empty input" exactly when the file has
    no bytes.  When the buffer capacity is at least four bytes and the file
    has more than three bytes and begins with the BOM, the three bytes are
    skipped: the scanned ranges start at offset 3 (or the scan fails for
    want of a sequence id at offset 3).  A file of exactly the three BOM
    bytes is scanned from offset 0 with its BOM as content. *)
Theorem C4_empty_input_and_bom
  cfg isPrimary skip chunkSize heap corp data fuel :
  (1 <= m_bufferSize cfg)%nat -> Z.of_nat (m_bufferSize cfg) < SIZE_MAX ->
  (enough_fuel data <= fuel)%nat ->
  let w := fresh cfg isPrimary skip chunkSize heap corp data in
  ((exists w', Build cfg fuel w = Raise InputFileEmpty w') <-> data = []) /\
  ((4 <= m_bufferSize cfg)%nat -> (3 < length data)%nat ->
   starts_with_bom data = true ->
   match Build cfg fuel w with
   | Ok _ w' => tiles 3 (Z.of_nat (length data)) (map snd (calls w'))
   | Raise e _ => e = ExpectedSequenceId 3
   | OutOfFuel => False
   end) /\
  (data = bom_only ->
   match Build cfg fuel w with
   | Ok _ w' => tiles 0 3 (map snd (calls w'))
   | Raise e _ => e = ExpectedSequenceId 0
   | OutOfFuel => False
   end).
Proof.
  intros H1 H2 Hf w.
  pose proof (Build_fresh_outcome cfg isPrimary skip chunkSize heap corp data
                fuel H1 H2 Hf) as O.
  fold w in O. unfold startOffset in O. repeat split.
  - intros [w' E]. rewrite E in O.
    destruct O as [[O _]|(_ & _ & _ & O)]; [exact O | discriminate].
  - intros ->. destruct (Build cfg fuel w) as [[] w'|e w'|].
    + destruct O as [O _]. congruence.
    + destruct O as [[_ ->]|[O _]]; [exists w'; reflexivity | congruence].
    + contradiction.
  - intros B4 L3 Bom. rewrite (bom_skipped_long _ _ B4 L3 Bom) in O.
    destruct (Build cfg fuel w) as [[] w'|e w'|].
    + apply O.
    + destruct O as [[-> _]|(_ & _ & _ & O)]; [cbn in L3; lia | exact O].
    + exact O.
  - intros ->. rewrite (bom_skipped_short _ bom_only) in O by (cbn; lia).
    destruct (Build cfg fuel w) as [[] w'|e w'|].
    + apply O.
    + destruct O as [[O _]|(_ & _ & _ & O)]; [discriminate | exact O].
    + exact O.
Qed.

Lemma C4_witness :
  match Build (config true 8) 19
          (fresh (config true 8) true true 32 no_heap everything bom_a_nl) with
  | Ok _ w' => tiles 3 5 (map snd (calls w'))
  | Raise e _ => e = ExpectedSequenceId 3
  | OutOfFuel => False
  end.
Proof.
  pose proof (C4_empty_input_and_bom (config true 8) true true 32 no_heap
                everything bom_a_nl 19
                ltac:(vm_compute; lia) ltac:(vm_compute; reflexivity)
                ltac:(vm_compute; lia)) as (_ & H & _).
  exact (H ltac:(vm_compute; lia) ltac:(vm_compute; lia) eq_refl).
Defined.

(** C7: when the index already holds a sequence, [Build] returns at once
    and changes nothing: the file and its position, the buffer and the
    cursor, the index (no [Reserve], no [AddSequence]), the registry. *)
Theorem C7_Build_is_a_no_op_on_a_built_index cfg fuel w :
  IsEmpty (m_index w) = false -> Build cfg fuel w = Ok tt w.
Proof. intros E. unfold Build. rewrite E. reflexivity. Qed.

Lemma C7_witness : Build (config true 8) 0 built_world = Ok tt built_world.
Proof. apply C7_Build_is_a_no_op_on_a_built_index. reflexivity. Defined.

(** For a buffer smaller than [SIZE_MAX], [RefillBuffer] never raises: the
    item count of [fread] is at most the buffer size, so the comparison
    with [(size_t)-1] cannot succeed. *)
Lemma RefillBuffer_never_raises cfg c :
  Z.of_nat (m_bufferSize cfg) < SIZE_MAX ->
  exists c', RefillBuffer cfg c = Ok tt c'.
Proof.
  intros H. unfold RefillBuffer, fread.
  destruct (m_done c); cbn [negb]; [eexists; reflexivity|].
  destruct (f_fails (m_file c)).
  - cbn. eexists. reflexivity.
  - set (d := firstn _ _).
    assert (length d <= m_bufferSize cfg)%nat by apply firstn_le_length.
    destruct (Z.eqb_spec (Z.of_nat (length d)) SIZE_MAX); [lia|].
    destruct (Z.of_nat (length d) =? 0); eexists; reflexivity.
Qed.

(** C9 fails on the code: on a file whose reads fail ([fread] returns no
    item and sets the error indicator), [RefillBuffer] raises nothing and
    marks the stream exhausted, as at end of file; [Build] then reports an
    empty input file. *)
Theorem C9_failed_read_is_taken_for_end_of_file :
  (exists c',
     RefillBuffer (config true 8) (cur on_failing_file) = Ok tt c' /\
     m_done c' = true /\ f_ferror (m_file c') = true) /\
  (exists w',
     Indexer_new (config true 8) true (Some (failing_file bom_a_nl)) false 32
                 no_heap everything = inr on_failing_file /\
     Build (config true 8) 19 on_failing_file = Raise InputFileEmpty w').
Proof.
  split; eexists; repeat split; vm_compute; reflexivity.
Qed.

(** The emitter does not read its parameter [sequenceId]: whatever id is
    passed, the index and the corpus end up the same. *)
Lemma AddSequenceIfIncluded_ignores_sequenceId cfg id1 id2 sd w :
  m_index (emit cfg id1 sd w) = m_index (emit cfg id2 sd w) /\
  corpus (emit cfg id1 sd w) = corpus (emit cfg id2 sd w).
Proof.
  unfold emit. cbn.
  match goal with
  | |- context [IsIncluded ?c ?k] => destruct (IsIncluded c k)
  end; split; reflexivity.
Qed.

(** C2 fails on the code: the emitter is handed the discovered key 1, which
    the corpus includes, but it consults the filter and the registry with
    [sequenceKey] (here 2, which the corpus excludes), and the sequence is
    dropped. *)
Theorem C2_emitter_uses_sequenceKey_not_its_parameter :
  IsIncluded only_key_1 (to_string 1) = true /\
  exists w',
    AddSequenceIfIncluded sequenceKey_is_2 1 (mkSD 0 0 0 8 2)
      (fresh sequenceKey_is_2 true false 32 no_heap only_key_1 bom_a_nl)
    = Ok tt w' /\
    calls w' = [(1, mkSD 0 0 0 8 2)] /\
    idx_sequences (m_index w') = [] /\
    registry (corpus w') = [].
Proof.
  split; [reflexivity|]. eexists. repeat split; vm_compute; reflexivity.
Qed.

Lemma key_eqb_eq a b : key_eqb a b = true <-> a = b.
Proof.
  unfold key_eqb. destruct (list_eq_dec byte_eq_dec a b); split;
    congruence.
Qed.

Lemma index_of_nth k r : forall i,
  index_of k r = Some i -> (i < length r)%nat /\ nth i r [] = k.
Proof.
  induction r as [|x r IH]; cbn; intros i; [discriminate|].
  destruct (key_eqb x k) eqn:E.
  - intros [= <-]. apply key_eqb_eq in E. split; [lia | exact E].
  - destruct (index_of k r) as [j|]; cbn; [|discriminate].
    intros [= <-]. destruct (IH j eq_refl). split; [lia | assumption].
Qed.

Lemma index_of_app k r l : forall i,
  index_of k r = Some i -> index_of k (r ++ l) = Some i.
Proof.
  induction r as [|x r IH]; cbn; intros i; [discriminate|].
  destruct (key_eqb x k); [auto|].
  destruct (index_of k r) as [j|]; cbn; [|discriminate].
  intros [= <-]. rewrite (IH j eq_refl). reflexivity.
Qed.

Lemma index_of_new k r :
  index_of k r = None -> index_of k (r ++ [k]) = Some (length r).
Proof.
  induction r as [|x r IH]; cbn.
  - intros _. destruct (key_eqb k k) eqn:E; [reflexivity|].
    assert (key_eqb k k = true) by (apply key_eqb_eq; reflexivity).
    congruence.
  - destruct (key_eqb x k); [discriminate|].
    destruct (index_of k r); cbn; [discriminate|].
    intros _. rewrite IH by reflexivity. reflexivity.
Qed.

(** Get-or-create on the registry: the key and its id map to each other
    afterwards, ids already assigned stay, and at most the key is added. *)
Lemma intern_round_trip k r :
  lookup (fst (intern k r)) (snd (intern k r)) = k /\
  TryGet k (snd (intern k r)) = Some (fst (intern k r)) /\
  (forall k' j, TryGet k' r = Some j ->
                TryGet k' (snd (intern k r)) = Some j) /\
  (snd (intern k r) = r \/
   TryGet k r = None /\ snd (intern k r) = r ++ [k]).
Proof.
  unfold intern, TryGet, lookup, AddValue.
  destruct (index_of k r) as [i|] eqn:E; cbn [option_map fst snd].
  - destruct (index_of_nth _ _ _ E) as [Hi Hn].
    destruct (Z.leb_spec 0 (Z.of_nat i)); [|lia].
    rewrite Nat2Z.id, E. auto.
  - destruct (Z.leb_spec 0 (Z.of_nat (length r))); [|lia].
    rewrite Nat2Z.id, nth_middle, (index_of_new _ _ E).
    repeat split; [|right; auto].
    intros k' j. destruct (index_of k' r) eqn:E'; cbn; [|discriminate].
    intros [= <-]. rewrite (index_of_app _ _ _ _ E'). reflexivity.
Qed.

(** Asking again for a key gives the same id and changes nothing. *)
Lemma intern_again k r : intern k (snd (intern k r)) = intern k r.
Proof.
  destruct (intern_round_trip k r) as (_ & T & _).
  unfold intern at 1. rewrite T. symmetry. apply surjective_pairing.
Qed.

(** The emitter in numeric mode under an all-inclusive filter: the key it
    writes is the registry id of [to_string sequenceKey], whatever
    sequence id it was given. *)
Lemma emit_numeric cfg id sd w :
  m_numericSequenceId cfg = true ->
  (forall k, IsIncluded (corpus w) k = true) ->
  idx_sequences (m_index (emit cfg id sd w))
  = idx_sequences (m_index w)
    ++ [with_key (fst (intern (to_string (sequenceKey cfg))
                              (registry (corpus w)))) sd] /\
  registry (corpus (emit cfg id sd w))
  = snd (intern (to_string (sequenceKey cfg)) (registry (corpus w))) /\
  (forall k, IsIncluded (corpus (emit cfg id sd w)) k = true).
Proof.
  intros Hn H. unfold emit. cbn [log_call corpus m_index]. rewrite Hn, H.
  cbn. auto.
Qed.

Lemma spans_emit cfg id sd w :
  (forall k, IsIncluded (corpus w) k = true) ->
  map span (idx_sequences (m_index (emit cfg id sd w)))
  = map span (idx_sequences (m_index w)) ++ [span sd] /\
  (forall k, IsIncluded (corpus (emit cfg id sd w)) k = true).
Proof.
  intros H. unfold emit. cbn [log_call corpus m_index].
  rewrite H. cbn. rewrite map_app. split; [reflexivity | exact H].
Qed.

Lemma bom_skipped_no_bom B data :
  starts_with_bom data = false -> bom_skipped B data = false.
Proof. intros H. unfold bom_skipped. rewrite H. apply andb_false_r. Qed.

(** The spans stored by a pile of [emit]s under an all-inclusive filter. *)
Ltac spans_of_emits H :=
  repeat match goal with
         | |- context [emit ?c ?i ?sd ?W] =>
             let A := fresh in
             assert (A : forall k, IsIncluded (corpus W) k = true);
             [ repeat match goal with
                      | |- forall k, IsIncluded (corpus (emit ?c' ?i' ?sd' ?W'))
                                                k = true =>
                          apply (spans_emit c' i' sd' W')
                      end; cbn; exact H
             | destruct (spans_emit c i sd W A) as [-> _]; clear A ]
         end.

(** C5: in key-grouped numeric mode with an all-inclusive filter, for every
    buffer capacity, the scan of "1 x\n1 y\n2 z\n" discovers exactly two
    sequences, key 1 with two samples over [[0, 8)] and key 2 with one
    sample over [[8, 12)], whose byte sizes add up to the length of the
    input, and stores one descriptor for each.  The two stored descriptors
    do not carry the keys 1 and 2: the emitter reads [sequenceKey] and not
    the key it is given, so both carry one and the same sequence key, the
    registry id of [to_string sequenceKey], whatever [sequenceKey] is bound
    to and whatever the registry holds. *)
Theorem C5_both_stored_descriptors_carry_the_same_key
  cfg isPrimary chunkSize heap corp fuel :
  (1 <= m_bufferSize cfg)%nat -> Z.of_nat (m_bufferSize cfg) < SIZE_MAX ->
  m_numericSequenceId cfg = true -> m_streamPrefix cfg <> "1"%byte ->
  (forall k, IsIncluded corp k = true) ->
  (enough_fuel two_keys <= fuel)%nat ->
  let k := to_string (sequenceKey cfg) in
  let id := fst (intern k (registry corp)) in
  exists w',
    Build cfg fuel (fresh cfg isPrimary false chunkSize heap corp two_keys)
    = Ok tt w' /\
    calls w' = [(1, mkSD 0 0 0 8 2); (2, mkSD 0 0 8 4 1)] /\
    8 + 4 = Z.of_nat (length two_keys) /\
    idx_sequences (m_index w') = [mkSD id 0 0 8 2; mkSD id 0 8 4 1] /\
    registry (corpus w') = snd (intern k (registry corp)) /\
    lookup id (registry (corpus w')) = k.
Proof.
  intros H1 H2 Hn Hp Hall Hf k id.
  pose proof (Build_fresh cfg isPrimary false chunkSize heap corp two_keys fuel
                H1 H2 Hf) as S.
  cbv zeta in S. revert S.
  set (w := fresh cfg isPrimary false chunkSize heap corp two_keys).
  unfold scan. cbn [IsEmpty fresh m_index idx_sequences negb w].
  rewrite (bom_skipped_no_bom _ two_keys eq_refl).
  cbn [m_hasSequenceIds set_index negb orb first_is two_keys].
  destruct (Byte.eqb "1" (m_streamPrefix cfg)) eqn:E;
    [apply byte_dec_bl in E; congruence|].
  change (m_hasSequenceIds w) with true. cbn [negb orb].
  assert (Hc : calls w = []) by reflexivity.
  assert (Hcorp : corpus w = corp) by reflexivity.
  clearbody w. subst k id. destruct cfg as [p num B base sk].
  cbn in Hn. subst num. cbn -[emit to_string intern].
  destruct (Build _ fuel w) as [[] w'|e w'|]; cbn [observe]; intros S;
    inversion S as [W W' Eo|]; subst; clear S.
  exists w'. split; [reflexivity|].
  unfold outside in Eo. injection Eo as _ Ei Eg Ec.
  rewrite Ec, Ei, Eg. clear Ec Ei Eg.
  split; [rewrite !calls_emit; cbn; rewrite Hc; reflexivity|].
  split; [reflexivity|].
  match goal with
  | |- context [emit ?c 2 ?sd2 (emit ?c 1 ?sd1 ?W0)] =>
      destruct (emit_numeric c 1 sd1 W0 eq_refl) as (I1 & R1 & A1);
        [exact Hall|];
      destruct (emit_numeric c 2 sd2 (emit c 1 sd1 W0) eq_refl A1)
        as (I2 & R2 & _)
  end.
  cbn [registry corpus set_registry set_index sequenceKey m_index Reserve
       idx_sequences app] in I1, R1, I2, R2.
  rewrite R1 in I2, R2. rewrite intern_again in I2, R2.
  rewrite I1 in I2. rewrite I2, R2.
  split; [reflexivity|]. split; [reflexivity|].
  apply intern_round_trip.
Qed.

Lemma C5_witness :
  exists w',
    Build (config true 3) 40
          (fresh (config true 3) true false 32 no_heap everything two_keys)
    = Ok tt w' /\
    calls w' = [(1, mkSD 0 0 0 8 2); (2, mkSD 0 0 8 4 1)] /\
    8 + 4 = Z.of_nat (length two_keys) /\
    idx_sequences (m_index w') = [mkSD 0 0 0 8 2; mkSD 0 0 8 4 1] /\
    registry (corpus w') = [["0"%byte]] /\
    lookup 0 (registry (corpus w')) = ["0"%byte].
Proof.
  apply (C5_both_stored_descriptors_carry_the_same_key (config true 3) true 32
           no_heap everything 40);
    try reflexivity; try discriminate; vm_compute; lia.
Defined.

(** C6: in line-delimited mode (sequence ids skipped, or the first byte is
    the stream prefix) with an all-inclusive filter, for every buffer
    capacity, the scan of "a\nbb\nccc" hands the emitter exactly three
    sequences of one sample each, of 2, 3 and 3 bytes, the last one being
    the unterminated line; all three reach the index. *)
Theorem C6_line_delimited_example
  cfg isPrimary skip chunkSize heap corp fuel :
  (1 <= m_bufferSize cfg)%nat -> Z.of_nat (m_bufferSize cfg) < SIZE_MAX ->
  skip = true \/ m_streamPrefix cfg = "a"%byte ->
  (forall k, IsIncluded corp k = true) ->
  (enough_fuel three_lines <= fuel)%nat ->
  exists w',
    Build cfg fuel (fresh cfg isPrimary skip chunkSize heap corp three_lines)
    = Ok tt w' /\
    calls w' = [(0, mkSD 0 0 0 2 1); (1, mkSD 0 0 2 3 1);
                (2, mkSD 0 0 5 3 1)] /\
    map span (idx_sequences (m_index w')) = [(0, 2, 1); (2, 3, 1); (5, 3, 1)].
Proof.
  intros H1 H2 Hm Hall Hf.
  pose proof (Build_fresh cfg isPrimary skip chunkSize heap corp three_lines
                fuel H1 H2 Hf) as S.
  cbv zeta in S. revert S.
  set (w := fresh cfg isPrimary skip chunkSize heap corp three_lines).
  unfold scan. cbn [IsEmpty fresh m_index idx_sequences negb w].
  rewrite (bom_skipped_no_bom _ three_lines eq_refl).
  cbn [m_hasSequenceIds set_index first_is three_lines].
  assert (Hl : negb (m_hasSequenceIds w)
               || Byte.eqb "a" (m_streamPrefix cfg) = true).
  { destruct Hm as [-> | ->]; [reflexivity | apply orb_true_r]. }
  rewrite Hl. clear Hl.
  assert (Hc : calls w = []) by reflexivity.
  assert (Hcorp : corpus w = corp) by reflexivity.
  clearbody w. cbn -[emit].
  destruct (Build cfg fuel w) as [[] w'|e w'|]; cbn [observe]; intros S;
    inversion S as [W W' Eo|]; subst; clear S.
  exists w'. split; [reflexivity|].
  unfold outside in Eo. injection Eo as _ Ei _ Ec.
  rewrite Ec, Ei. clear Ec Ei. split.
  - rewrite !calls_emit. cbn. rewrite Hc. reflexivity.
  - spans_of_emits Hall. reflexivity.
Qed.

Lemma C6_witness :
  exists w',
    Build (config false 2) 28
          (fresh (config false 2) true true 32 no_heap everything three_lines)
    = Ok tt w' /\
    calls w' = [(0, mkSD 0 0 0 2 1); (1, mkSD 0 0 2 3 1);
                (2, mkSD 0 0 5 3 1)] /\
    map span (idx_sequences (m_index w')) = [(0, 2, 1); (2, 3, 1); (5, 3, 1)].
Proof.
  apply C6_line_delimited_example;
    try reflexivity; try (left; reflexivity); vm_compute; lia.
Defined.

(** *** The key resolver at the end of the file *)

Lemma digits_split r :
  r = digits r ++ after_digits r /\
  forallb isdigit (digits r) = true /\
  match after_digits r with
  | ch :: _ => isdigit ch = false
  | [] => True
  end.
Proof.
  induction r as [|ch r (IH1 & IH2 & IH3)]; cbn; [auto|].
  destruct (isdigit ch) eqn:E; cbn.
  - rewrite E. repeat split; [f_equal; exact IH1 | exact IH2 | exact IH3].
  - auto.
Qed.

Lemma scan_key_numeric r : forall found id k,
  scan_key true r found id k
  = match after_digits r with
    | [] => KeyEof (found || nonempty (digits r)) (decimal (digits r) id) k
    | _ :: _ => KeyStop (found || nonempty (digits r))
                        (decimal (digits r) id) k (after_digits r)
    end.
Proof.
  induction r as [|ch r IH]; intros found id k; cbn.
  - rewrite orb_false_r. reflexivity.
  - destruct (isdigit ch); cbn.
    + rewrite IH, orb_true_r. reflexivity.
    + rewrite orb_false_r. reflexivity.
Qed.

Lemma scan_key_textual_eof r : forall found id k,
  forallb (fun ch => negb (isspace ch)) r = true ->
  exists f k', scan_key false r found id k = KeyEof f id k'.
Proof.
  induction r as [|ch r IH]; intros found id k; cbn.
  - intros _. eauto.
  - destruct (isspace ch); cbn; [discriminate|]. apply IH.
Qed.

Lemma scan_key_textual_stop r : forall found id k f i k' rest,
  scan_key false r found id k = KeyStop f i k' rest ->
  exists ch t, rest = ch :: t /\ isspace ch = true.
Proof.
  induction r as [|ch r IH]; intros found id k f i k' rest; cbn;
    [discriminate|].
  destruct (isspace ch) eqn:E.
  - intros [= <- <- <- <-]. eauto.
  - apply IH.
Qed.

(** C8, as stated, fails: on a file that ends with the digits, two digits
    are read and accumulated, yet the result is [false]. *)
Lemma C8_counterexample :
  on_cursor (RefillBuffer (config true 8))
            (fresh (config true 8) true false 32 no_heap everything digits_12)
  = Ok tt (after_first_block digits_12) /\
  exists w',
    TryGetSequenceId (config true 8) 8 (after_first_block digits_12)
    = Ok (false, 12) w' /\
    m_pos (cur w') = m_pos (cur (after_first_block digits_12)) + 2.
Proof.
  split; [vm_compute; reflexivity|].
  eexists. split; vm_compute; reflexivity.
Qed.

(** C8 (amended): in numeric mode, from any cursor and buffer state,
    [TryGetSequenceId] reads the leading decimal digits, accumulating
    [id = (id * 10 + digit) mod 2^64], and leaves the cursor before the
    first non-digit; it returns [true] if and only if at least one digit
    was read and a non-digit follows before the end of the file.  When the
    file ends with the digits it returns [false] with the end of file
    seen. *)
Theorem C8_numeric_key_resolver cfg data fuel w r :
  (1 <= m_bufferSize cfg)%nat -> Z.of_nat (m_bufferSize cfg) < SIZE_MAX ->
  m_numericSequenceId cfg = true ->
  Ready cfg data (cur w) r ->
  (2 * length data + 3 <= fuel)%nat ->
  exists c',
    TryGetSequenceId cfg fuel w
    = Ok (nonempty (digits r) && nonempty (after_digits r),
          decimal (digits r) 0)
         (set_cur c' w) /\
    Ready cfg data c' (after_digits r) /\
    r = digits r ++ after_digits r /\
    forallb isdigit (digits r) = true /\
    match after_digits r with
    | ch :: _ => isdigit ch = false
    | [] => True
    end.
Proof.
  intros H1 H2 Hn Rd Hf.
  destruct (TryGetSequenceId_ready cfg data H1 H2 fuel w r Rd Hf)
    as (c' & E & Rd').
  revert E Rd'. unfold resolve_key. rewrite Hn, scan_key_numeric.
  cbn [orb]. intros E Rd'. exists c'.
  split; [|split; [|apply digits_split]].
  - rewrite E. destruct (after_digits r); cbn [finish_key negb andb fst snd];
      rewrite ?andb_false_r, ?andb_true_r;
      (f_equal; exact (set_registry_same (set_cur c' w))).
  - destruct (after_digits r); exact Rd'.
Qed.

Lemma C8_witness :
  exists c',
    TryGetSequenceId (config true 8) 7 (after_first_block digits_12)
    = Ok (false, 12) (set_cur c' (after_first_block digits_12)) /\
    Ready (config true 8) digits_12 c' [].
Proof.
  destruct (C8_numeric_key_resolver (config true 8) digits_12 7
              (after_first_block digits_12) digits_12
              ltac:(vm_compute; lia) ltac:(vm_compute; reflexivity)
              eq_refl
              ltac:(left; split; [constructor|]; try reflexivity;
                      unfold bufAddr; cbn; lia)
              ltac:(vm_compute; lia))
    as (c' & E & Rd & _).
  exists c'. split; [exact E | exact Rd].
Defined.

(** C10: in textual mode, from any cursor and buffer state, when the bytes
    ahead hold no whitespace the end of the file is reached,
    [TryGetSequenceId] returns [false], and nothing but the cursor changes:
    the registry is as before.  In general the registry changes only when
    the result is [true] and the cursor is left before a whitespace
    character. *)
Theorem C10_textual_key_interned_only_at_whitespace cfg data fuel w r :
  (1 <= m_bufferSize cfg)%nat -> Z.of_nat (m_bufferSize cfg) < SIZE_MAX ->
  m_numericSequenceId cfg = false ->
  Ready cfg data (cur w) r ->
  (2 * length data + 3 <= fuel)%nat ->
  exists res c' reg,
    TryGetSequenceId cfg fuel w = Ok res (set_registry reg (set_cur c' w)) /\
    (forallb (fun ch => negb (isspace ch)) r = true ->
     res = (false, 0) /\ reg = registry (corpus w) /\ Finished data c') /\
    (reg <> registry (corpus w) ->
     fst res = true /\
     exists ch t, Ready cfg data c' (ch :: t) /\ isspace ch = true).
Proof.
  intros H1 H2 Hn Rd Hf.
  destruct (TryGetSequenceId_ready cfg data H1 H2 fuel w r Rd Hf)
    as (c' & E & Rd').
  revert E Rd'. unfold resolve_key. rewrite Hn. intros E Rd'.
  eexists _, c', _. split; [exact E|]. split.
  - intros Hw.
    destruct (scan_key_textual_eof r false 0 [] Hw) as (f & k' & Es).
    rewrite Es in *. cbn [finish_key fst snd] in *.
    split; [reflexivity|]. split; [reflexivity|].
    destruct Rd' as [[L Lt]|[_ Fin]]; [|exact Fin].
    exfalso. exact (live_nonempty _ _ _ _ L Lt eq_refl).
  - destruct (scan_key false r false 0 []) as [f i k' rest|f i k'] eqn:Es;
      cbn [finish_key negb andb fst snd] in *; [|congruence].
    destruct f; cbn [fst snd] in *; [|congruence].
    intros _. split; [reflexivity|].
    destruct (scan_key_textual_stop _ _ _ _ _ _ _ _ Es) as (ch & t & -> & Hs).
    exists ch, t. split; [exact Rd' | exact Hs].
Qed.

Lemma C10_witness :
  exists c',
    TryGetSequenceId (config false 8) 7 (after_first_block letters_ab)
    = Ok (false, 0) (set_cur c' (after_first_block letters_ab)) /\
    Finished letters_ab c'.
Proof.
  destruct (C10_textual_key_interned_only_at_whitespace (config false 8)
              letters_ab 7 (after_first_block letters_ab) letters_ab
              ltac:(vm_compute; lia) ltac:(vm_compute; reflexivity)
              eq_refl
              ltac:(left; split; [constructor|]; try reflexivity;
                      unfold bufAddr; cbn; lia)
              ltac:(vm_compute; lia))
    as (res & c' & reg & E & H & _).
  destruct (H eq_refl) as (-> & -> & Fin).
  exists c'. split; [exact E | exact Fin].
Defined.

(* ================================================================= *)
(** ** Further properties of the block reader and the cursor *)

(** X1: a refill of a cursor whose buffer is used up keeps the offset
    bookkeeping.  When the file holds no more bytes the stream is marked
    exhausted, the end offset is the file size and further refills change
    nothing.  Otherwise the next [min (bufferSize, remaining)] bytes of the
    file are buffered, the start offset becomes the old end offset, the end
    offset advances by the number of bytes read, and the current file offset
    is the number of bytes of the file before the buffered ones. *)
Theorem X1_RefillBuffer_keeps_the_offsets cfg data c r :
  (1 <= m_bufferSize cfg)%nat -> Z.of_nat (m_bufferSize cfg) < SIZE_MAX ->
  Drained data c r ->
  exists c',
    RefillBuffer cfg c = Ok tt c' /\
    ((r = [] /\ m_done c' = true /\
      m_fileOffsetEnd c' = Z.of_nat (length data) /\
      RefillBuffer cfg c' = Ok tt c') \/
     (r <> [] /\ m_done c' = false /\
      buffered cfg c' = firstn (m_bufferSize cfg) r /\
      unread c' = skipn (m_bufferSize cfg) r /\
      m_fileOffsetStart c' = m_fileOffsetEnd c /\
      m_fileOffsetEnd c'
      = m_fileOffsetEnd c
        + Z.of_nat (Nat.min (m_bufferSize cfg) (length r)) /\
      GetFileOffset c' = Z.of_nat (length data) - Z.of_nat (length r))).
Proof.
  intros H1 H2 D.
  destruct (RefillBuffer_drained cfg data H1 H2 c r D)
    as (c' & E & [[E0 Fin]|(NE & L & Ep & Lt & Hu & Hb)]);
    exists c'; (split; [exact E|]).
  - left. split; [exact E0|]. split; [apply Fin|]. split; [apply Fin|].
    unfold RefillBuffer. rewrite (fin_done _ _ Fin). reflexivity.
  - right. split; [exact NE|]. split; [apply L|]. split; [exact Hb|].
    pose proof (GetFileOffset_live _ _ _ _ L) as G.
    pose proof (buffered_length _ _ _ _ L) as Hl.
    pose proof (live_rest _ _ _ _ L) as R.
    rewrite Hb, length_firstn in Hl.
    assert (Hun : unread c' = skipn (m_bufferSize cfg) r).
    { rewrite Hb in R.
      rewrite <- (firstn_skipn (m_bufferSize cfg) r) in R at 1.
      apply app_inv_head in R. symmetry. exact R. }
    split; [exact Hun|].
    assert (Hend : m_fileOffsetEnd c'
                   = m_fileOffsetEnd c
                     + Z.of_nat (Nat.min (m_bufferSize cfg) (length r))).
    { revert E. unfold RefillBuffer, fread.
      rewrite (dr_done _ _ _ D), (dr_fails _ _ _ D). cbn [negb].
      fold (unread c). rewrite <- (dr_rest _ _ _ D).
      destruct (Z.of_nat (length (firstn (m_bufferSize cfg) r)) =? SIZE_MAX);
        [discriminate|].
      destruct (Z.of_nat (length (firstn (m_bufferSize cfg) r)) =? 0).
      - intros [= <-]. destruct L as [Dn _ _ _ _ _ _ _ _].
        cbn in Dn. discriminate.
      - intros [= <-]. cbn. rewrite length_firstn. reflexivity. }
    split; [|split; [exact Hend | exact G]].
    destruct L as [_ _ _ _ _ P S _ _]. lia.
Qed.

Lemma X1_witness :
  exists c',
    RefillBuffer (config true 3)
      (cur (fresh (config true 3) true true 32 no_heap everything bom_a_nl))
    = Ok tt c' /\
    buffered (config true 3) c' = bom_only /\
    GetFileOffset c' = 0.
Proof.
  destruct (X1_RefillBuffer_keeps_the_offsets (config true 3) bom_a_nl
              (cur (fresh (config true 3) true true 32 no_heap everything
                          bom_a_nl))
              bom_a_nl ltac:(vm_compute; lia) ltac:(vm_compute; reflexivity)
              ltac:(constructor; cbn; try reflexivity; lia))
    as (c' & E & [(H & _)|(_ & _ & Hb & _ & _ & _ & G)]).
  - discriminate H.
  - exists c'. split; [exact E|]. split; [exact Hb | exact G].
Defined.

(** X2: from any state of the key-grouped scanner, whatever the buffer
    holds, [SkipLine] leaves the cursor right after the first row delimiter
    ahead, refilling as needed: the bytes ahead become those after that
    delimiter, and the current file offset is the offset of the next line.
    When no delimiter is ahead, or it is the last byte of the file, the end
    of the file has been seen. *)
Theorem X2_SkipLine_stops_after_the_row_delimiter cfg data fuel c r :
  (1 <= m_bufferSize cfg)%nat -> Z.of_nat (m_bufferSize cfg) < SIZE_MAX ->
  Ready cfg data c r ->
  (length data + 2 <= fuel)%nat ->
  exists c',
    SkipLine cfg fuel c = Ok tt c' /\
    Ready cfg data c' (skip_line r) /\
    (skip_line r = [] -> m_done c' = true) /\
    (skip_line r <> [] ->
     m_done c' = false /\
     GetFileOffset c'
     = Z.of_nat (length data) - Z.of_nat (length (skip_line r))).
Proof.
  intros H1 H2 Rd Hf.
  destruct (SkipLine_ready cfg data H1 H2 fuel c r Rd Hf) as (c' & E & Rd').
  exists c'. split; [exact E|]. split; [exact Rd'|].
  destruct Rd' as [[L Lt]|[E0 Fin]].
  - split.
    + intros E0. exfalso. exact (live_nonempty _ _ _ _ L Lt E0).
    + intros _. split; [apply L | apply (GetFileOffset_live _ _ _ _ L)].
  - split; [intros _; apply Fin | congruence].
Qed.

Lemma X2_witness :
  exists c',
    SkipLine (config true 8) 7 (cur (after_first_block [x0a; "2"]%byte))
    = Ok tt c' /\
    GetFileOffset c' = 1.
Proof.
  destruct (X2_SkipLine_stops_after_the_row_delimiter (config true 8)
              [x0a; "2"]%byte 7 (cur (after_first_block [x0a; "2"]%byte))
              [x0a; "2"]%byte
              ltac:(vm_compute; lia) ltac:(vm_compute; reflexivity)
              ltac:(left; split; [constructor|]; try reflexivity;
                    unfold bufAddr; cbn; lia)
              ltac:(vm_compute; lia))
    as (c' & E & _ & _ & H).
  exists c'. split; [exact E|]. apply H. discriminate.
Defined.

(* ================================================================= *)
(** ** Further properties of the key resolver *)

Lemma key_chars_split r :
  r = key_chars r ++ after_key r /\
  forallb (fun ch => negb (isspace ch)) (key_chars r) = true /\
  match after_key r with
  | ch :: _ => isspace ch = true
  | [] => True
  end.
Proof.
  induction r as [|ch r (IH1 & IH2 & IH3)]; cbn; [auto|].
  destruct (isspace ch) eqn:E; cbn.
  - rewrite E. auto.
  - rewrite E. repeat split; [f_equal; exact IH1 | exact IH2 | exact IH3].
Qed.

Lemma scan_key_textual r : forall found id k,
  scan_key false r found id k
  = match after_key r with
    | [] => KeyEof (found || nonempty (key_chars r)) id (k ++ key_chars r)
    | _ :: _ => KeyStop (found || nonempty (key_chars r)) id
                        (k ++ key_chars r) (after_key r)
    end.
Proof.
  induction r as [|ch r IH]; intros found id k; cbn.
  - rewrite orb_false_r, app_nil_r. reflexivity.
  - destruct (isspace ch); cbn.
    + rewrite orb_false_r, app_nil_r. reflexivity.
    + rewrite IH, orb_true_r, <- app_assoc. reflexivity.
Qed.

(** X3: in textual mode, from any cursor and buffer state,
    [TryGetSequenceId] reads the characters up to the first whitespace and
    leaves the cursor before it.  It returns [true] exactly when at least
    one character was read and a whitespace follows before the end of the
    file; then the id returned and the key read map to each other in the
    registry, every id assigned before is kept, and the registry is the old
    one or the old one with the key appended.  Otherwise it returns [false]
    with id 0 and the registry untouched. *)
Theorem X3_textual_key_resolver cfg data fuel w r :
  (1 <= m_bufferSize cfg)%nat -> Z.of_nat (m_bufferSize cfg) < SIZE_MAX ->
  m_numericSequenceId cfg = false ->
  Ready cfg data (cur w) r ->
  (2 * length data + 3 <= fuel)%nat ->
  let k := key_chars r in
  let reg := registry (corpus w) in
  let found := nonempty k && nonempty (after_key r) in
  exists c' id reg',
    TryGetSequenceId cfg fuel w
    = Ok (found, id) (set_registry reg' (set_cur c' w)) /\
    Ready cfg data c' (after_key r) /\
    (found = false -> id = 0 /\ reg' = reg) /\
    (found = true ->
     lookup id reg' = k /\ TryGet k reg' = Some id /\
     (forall k' j, TryGet k' reg = Some j -> TryGet k' reg' = Some j) /\
     (reg' = reg \/ TryGet k reg = None /\ reg' = reg ++ [k])).
Proof.
  intros H1 H2 Hn Rd Hf k reg found.
  destruct (TryGetSequenceId_ready cfg data H1 H2 fuel w r Rd Hf)
    as (c' & E & Rd').
  revert E Rd'. unfold resolve_key. rewrite Hn, scan_key_textual.
  cbn [orb app]. fold k reg. unfold found.
  destruct (after_key r) as [|ch t]; cbn [finish_key negb andb fst snd nonempty].
  - rewrite andb_false_r. intros E Rd'. exists c', 0, reg.
    split; [exact E|]. split; [exact Rd'|]. split; [auto | discriminate].
  - rewrite andb_true_r. destruct (nonempty k); intros E Rd'.
    + exists c', (fst (intern k reg)), (snd (intern k reg)).
      split; [exact E|]. split; [exact Rd'|]. split; [discriminate|].
      intros _. apply intern_round_trip.
    + exists c', 0, reg.
      split; [exact E|]. split; [exact Rd'|]. split; [auto | discriminate].
Qed.

Lemma X3_witness :
  exists c' id reg',
    TryGetSequenceId (config false 8) 7 (after_first_block ["a"; " "]%byte)
    = Ok (true, id)
         (set_registry reg'
            (set_cur c' (after_first_block ["a"; " "]%byte))) /\
    lookup id reg' = ["a"]%byte.
Proof.
  destruct (X3_textual_key_resolver (config false 8) ["a"; " "]%byte 7
              (after_first_block ["a"; " "]%byte) ["a"; " "]%byte
              ltac:(vm_compute; lia) ltac:(vm_compute; reflexivity)
              eq_refl
              ltac:(left; split; [constructor|]; try reflexivity;
                    unfold bufAddr; cbn; lia)
              ltac:(vm_compute; lia))
    as (c' & id & reg' & E & _ & _ & H).
  exists c', id, reg'. split; [exact E|]. apply H. reflexivity.
Defined.

Lemma TryGetSequenceId_numeric cfg data fuel w r :
  (1 <= m_bufferSize cfg)%nat -> Z.of_nat (m_bufferSize cfg) < SIZE_MAX ->
  m_numericSequenceId cfg = true ->
  Ready cfg data (cur w) r ->
  (2 * length data + 3 <= fuel)%nat ->
  exists c',
    TryGetSequenceId cfg fuel w
    = Ok (nonempty (digits r) && nonempty (after_digits r),
          decimal (digits r) 0)
         (set_cur c' w) /\
    Ready cfg data c' (after_digits r).
Proof.
  intros H1 H2 Hn Rd Hf.
  destruct (TryGetSequenceId_ready cfg data H1 H2 fuel w r Rd Hf)
    as (c' & E & Rd').
  revert E Rd'. unfold resolve_key. rewrite Hn, scan_key_numeric.
  cbn [orb]. intros E Rd'. exists c'. split.
  - rewrite E. destruct (after_digits r); cbn [finish_key negb andb fst snd];
      rewrite ?andb_false_r, ?andb_true_r;
      (f_equal; exact (set_registry_same (set_cur c' w))).
  - destruct (after_digits r); exact Rd'.
Qed.

Lemma isdigit_code ch : isdigit ch = true -> 0 <= char_code ch - 48 <= 9.
Proof.
  unfold isdigit. intros H. apply andb_prop in H as [A B].
  apply Z.leb_le in A, B. lia.
Qed.

Lemma decimal_from_cons ch ds v :
  decimal_from (ch :: ds) v = decimal_from ds (v * 10 + (char_code ch - 48)).
Proof. reflexivity. Qed.

Lemma decimal_from_nonneg ds : forall v,
  forallb isdigit ds = true -> 0 <= v -> 0 <= decimal_from ds v.
Proof.
  induction ds as [|ch ds IH]; intros v H Hv; [exact Hv|].
  cbn [forallb] in H. apply andb_prop in H as [Hd H].
  apply isdigit_code in Hd. rewrite decimal_from_cons.
  apply IH; [exact H | lia].
Qed.

Lemma decimal_mod ds : forall v a,
  a = v mod 2 ^ 64 ->
  decimal ds a = decimal_from ds v mod 2 ^ 64.
Proof.
  induction ds as [|ch ds IH]; cbn; intros v a ->.
  - reflexivity.
  - apply (IH (v * 10 + (char_code ch - 48))).
    rewrite (Z.add_mod (v mod 2 ^ 64 * 10)), (Z.mul_mod (v mod 2 ^ 64))
      by lia.
    rewrite Z.mod_mod by lia.
    rewrite <- Z.mul_mod, <- Z.add_mod by lia. reflexivity.
Qed.

(** X4: in numeric mode the id returned is the number written by the digits
    read, modulo 2^64: exact for keys below 2^64, wrapped above. *)
Theorem X4_numeric_id_is_the_decimal_value_mod_2_64 cfg data fuel w r :
  (1 <= m_bufferSize cfg)%nat -> Z.of_nat (m_bufferSize cfg) < SIZE_MAX ->
  m_numericSequenceId cfg = true ->
  Ready cfg data (cur w) r ->
  (2 * length data + 3 <= fuel)%nat ->
  exists found c',
    TryGetSequenceId cfg fuel w
    = Ok (found, decimal_value (digits r) mod 2 ^ 64) (set_cur c' w) /\
    0 <= decimal_value (digits r) /\
    (decimal_value (digits r) < 2 ^ 64 ->
     decimal_value (digits r) mod 2 ^ 64 = decimal_value (digits r)).
Proof.
  intros H1 H2 Hn Rd Hf.
  destruct (TryGetSequenceId_numeric cfg data fuel w r H1 H2 Hn Rd Hf)
    as (c' & E & _).
  pose proof (decimal_from_nonneg (digits r) 0
                (proj1 (proj2 (digits_split r))) ltac:(lia)) as Hpos.
  eexists _, c'. split; [|split; [exact Hpos|]].
  - rewrite E. unfold decimal_value.
    rewrite (decimal_mod (digits r) 0 0) by reflexivity.
    reflexivity.
  - intros Hlt. apply Z.mod_small. unfold decimal_value in *. lia.
Qed.

Lemma X4_witness :
  exists found c',
    TryGetSequenceId (config true 8) 7 (after_first_block digits_12)
    = Ok (found, 12) (set_cur c' (after_first_block digits_12)).
Proof.
  destruct (X4_numeric_id_is_the_decimal_value_mod_2_64 (config true 8)
              digits_12 7 (after_first_block digits_12) digits_12
              ltac:(vm_compute; lia) ltac:(vm_compute; reflexivity)
              eq_refl
              ltac:(left; split; [constructor|]; try reflexivity;
                    unfold bufAddr; cbn; lia)
              ltac:(vm_compute; lia))
    as (found & c' & E & _).
  exists found, c'. exact E.
Defined.

(** The bytes of a decimal numeral. *)
Lemma bytes_of_uint_digits d :
  let bs := String.list_byte_of_string
              (DecimalString.NilEmpty.string_of_uint d) in
  forallb isdigit bs = true /\
  (forall p, decimal_from bs (Z.pos p) = Z.pos (Pos.of_uint_acc d p)) /\
  decimal_from bs 0 = Z.of_N (Pos.of_uint d).
Proof.
  induction d as [|d (IH1 & IH2 & IH3)|d (IH1 & IH2 & IH3)
                  |d (IH1 & IH2 & IH3)|d (IH1 & IH2 & IH3)
                  |d (IH1 & IH2 & IH3)|d (IH1 & IH2 & IH3)
                  |d (IH1 & IH2 & IH3)|d (IH1 & IH2 & IH3)
                  |d (IH1 & IH2 & IH3)|d (IH1 & IH2 & IH3)];
    cbv zeta in *;
    [cbn; repeat split; reflexivity | ..];
    (split; [exact IH1|]);
    (split;
     [ intros p; cbn [DecimalString.NilEmpty.string_of_uint
                      String.list_byte_of_string String.list_ascii_of_string
                      map decimal_from fold_left Pos.of_uint_acc];
       change (decimal_from ?l ?v) with (decimal_from l v);
       match goal with
       | |- fold_left ?f ?l ?v = _ =>
           change (fold_left f l v) with (decimal_from l v)
       end;
       match goal with
       | |- decimal_from _ ?v = Z.pos (Pos.of_uint_acc _ ?q) =>
           replace v with (Z.pos q) by (vm_compute char_code; lia)
       end; apply IH2
     | cbn [DecimalString.NilEmpty.string_of_uint
            String.list_byte_of_string String.list_ascii_of_string
            map decimal_from fold_left Pos.of_uint];
       match goal with
       | |- fold_left ?f ?l ?v = _ =>
           change (fold_left f l v) with (decimal_from l v)
       end;
       first [ exact IH3 | apply (IH2 _) ] ]).
Qed.

Lemma to_string_value n :
  0 <= n ->
  forallb isdigit (to_string n) = true /\
  decimal_value (to_string n) = n /\
  to_string n <> [].
Proof.
  intros Hn. unfold to_string, decimal_value.
  pose proof (DecimalN.Unsigned.of_to (Z.to_N n)) as RT.
  unfold N.of_uint in RT.
  destruct (bytes_of_uint_digits (N.to_uint (Z.to_N n))) as (D1 & _ & D3).
  cbv zeta in D1, D3. rewrite RT, Z2N.id in D3 by exact Hn.
  destruct (N.to_uint (Z.to_N n)) eqn:E;
    cbn [DecimalString.NilZero.string_of_uint];
    (split; [exact D1|]; split; [exact D3 | discriminate]).
Qed.

Lemma digits_app ds ch t :
  forallb isdigit ds = true -> isdigit ch = false ->
  digits (ds ++ ch :: t) = ds /\ after_digits (ds ++ ch :: t) = ch :: t.
Proof.
  intros H Hc. induction ds as [|d ds IH]; cbn.
  - rewrite Hc. auto.
  - cbn in H. apply andb_prop in H as [Hd H]. rewrite Hd.
    destruct (IH H) as [-> ->]. auto.
Qed.

(** X5: reading back what [std::to_string] writes.  In numeric mode, when
    the bytes ahead are the decimal string of an id below 2^64 followed by
    a character that is not a digit, [TryGetSequenceId] returns [true] with
    that id, and leaves the cursor before the character. *)
Theorem X5_numeric_key_reads_back_to_string cfg data fuel w r n ch t :
  (1 <= m_bufferSize cfg)%nat -> Z.of_nat (m_bufferSize cfg) < SIZE_MAX ->
  m_numericSequenceId cfg = true ->
  Ready cfg data (cur w) r ->
  (2 * length data + 3 <= fuel)%nat ->
  0 <= n < 2 ^ 64 ->
  r = to_string n ++ ch :: t -> isdigit ch = false ->
  exists c',
    TryGetSequenceId cfg fuel w = Ok (true, n) (set_cur c' w) /\
    Ready cfg data c' (ch :: t).
Proof.
  intros H1 H2 Hn Rd Hf Hr -> Hc.
  destruct (TryGetSequenceId_numeric cfg data fuel w _ H1 H2 Hn Rd Hf)
    as (c' & E & Rd').
  destruct (to_string_value n ltac:(lia)) as (Hd & Hv & Hne).
  destruct (digits_app (to_string n) ch t Hd Hc) as [Ed Ea].
  rewrite Ed, Ea in E. rewrite Ea in Rd'. exists c'. split; [|exact Rd'].
  rewrite E. rewrite (decimal_mod (to_string n) 0 0) by reflexivity.
  fold (decimal_value (to_string n)). rewrite Hv, Z.mod_small by lia.
  destruct (to_string n); [congruence | reflexivity].
Qed.

Lemma X5_witness :
  exists c',
    TryGetSequenceId (config true 8) 7 (after_first_block ["7"; " "]%byte)
    = Ok (true, 7) (set_cur c' (after_first_block ["7"; " "]%byte)).
Proof.
  destruct (X5_numeric_key_reads_back_to_string (config true 8)
              ["7"; " "]%byte 7 (after_first_block ["7"; " "]%byte)
              ["7"; " "]%byte 7 " "%byte []
              ltac:(vm_compute; lia) ltac:(vm_compute; reflexivity)
              eq_refl
              ltac:(left; split; [constructor|]; try reflexivity;
                    unfold bufAddr; cbn; lia)
              ltac:(vm_compute; lia) ltac:(lia) eq_refl eq_refl)
    as (c' & E & _).
  exists c'. exact E.
Defined.

(* ================================================================= *)
(** ** Further properties of a whole scan *)

Lemma Build_fresh_cases cfg isPrimary skip chunkSize heap corp data fuel :
  (1 <= m_bufferSize cfg)%nat -> Z.of_nat (m_bufferSize cfg) < SIZE_MAX ->
  (enough_fuel data <= fuel)%nat ->
  let w := fresh cfg isPrimary skip chunkSize heap corp data in
  (exists w' W, Build cfg fuel w = Ok tt w' /\
                scan cfg data w = Completed W /\ outside w' = outside W) \/
  (exists e w' W, Build cfg fuel w = Raise e w' /\
                  scan cfg data w = Failed e W /\ outside w' = outside W).
Proof.
  intros H1 H2 Hf w.
  pose proof (Build_fresh cfg isPrimary skip chunkSize heap corp data fuel
                H1 H2 Hf) as S.
  cbv zeta in S. fold w in S.
  destruct (Build cfg fuel w) as [[] w'|e w'|]; cbn [observe] in S;
    inversion S as [W W' Eo E1 E2|e' W W' Eo E1 E2]; subst.
  - left. exists w', W'. auto.
  - right. exists e, w', W'. auto.
Qed.

Lemma scanned_prefix cfg data :
  data = firstn (Z.to_nat (startOffset cfg data)) data ++ scanned cfg data /\
  Z.of_nat (length (firstn (Z.to_nat (startOffset cfg data)) data))
  = startOffset cfg data.
Proof.
  pose proof (startOffset_scanned cfg data) as Hs. revert Hs.
  unfold startOffset, scanned.
  destruct (bom_skipped (m_bufferSize cfg) data); intros Hs.
  - rewrite length_skipn in Hs. split.
    + symmetry. apply firstn_skipn.
    + rewrite length_firstn. lia.
  - split; reflexivity.
Qed.

Lemma slice_at pre acc rest sd :
  m_fileOffsetBytes sd = Z.of_nat (length pre) ->
  m_byteSize sd = Z.of_nat (length acc) ->
  slice (pre ++ acc ++ rest) sd = acc.
Proof.
  intros Ho Hs. unfold slice. rewrite Ho, Hs, !Nat2Z.id.
  rewrite skipn_app, Nat.sub_diag, skipn_all. cbn [app skipn].
  rewrite firstn_app, Nat.sub_diag, firstn_all. cbn [firstn].
  apply app_nil_r.
Qed.

(** The descriptors of the line scanner, with the one for an unterminated
    last line, cover the lines one by one. *)
Lemma lines_scan_slices data n : forall r pre acc lines,
  data = pre ++ acc ++ r -> n = Z.of_nat (length data) ->
  let sc := lines_scan r (Z.of_nat (length pre))
              (Z.of_nat (length pre) + Z.of_nat (length acc)) lines in
  let offset := snd (snd sc) in
  let all := fst sc ++ (if offset <? n
                        then [(fst (snd sc), mkSD 0 0 offset (n - offset) 1)]
                        else []) in
  map (slice data) (map snd all) = lines_from acc r /\
  map fst all = map (fun i => lines + Z.of_nat i) (seq 0 (length all)) /\
  Forall (fun sd => m_numberOfSamples sd = 1) (map snd all).
Proof.
  induction r as [|c r IH]; intros pre acc lines Hd Hn; cbv zeta;
    cbn [lines_scan lines_from].
  - cbn [fst snd app].
    assert (Hlen : n = Z.of_nat (length pre) + Z.of_nat (length acc))
      by (rewrite Hn, Hd, !length_app; cbn [length]; lia).
    destruct (Z.ltb_spec (Z.of_nat (length pre)) n).
    + destruct acc as [|a acc]; [cbn in Hlen; lia|].
      cbn [map fst snd length seq]. repeat split.
      * f_equal. rewrite Hd.
        apply slice_at; cbn [m_fileOffsetBytes m_byteSize]; [reflexivity|lia].
      * f_equal. lia.
      * repeat constructor.
    + destruct acc as [|a acc]; [|cbn [length] in Hlen; lia].
      cbn. repeat split; constructor.
  - destruct (is_nl c) eqn:Enl.
    + specialize (IH (pre ++ acc ++ [c]) [] (lines + 1)).
      rewrite <- !app_assoc in IH. cbn [app] in IH.
      specialize (IH Hd Hn). cbv zeta in IH.
      assert (El : Z.of_nat (length (pre ++ acc ++ [c]))
                   = Z.of_nat (length pre) + Z.of_nat (length acc) + 1)
        by (rewrite !length_app; cbn [length]; lia).
      rewrite El in IH. cbn [length Z.of_nat] in IH.
      rewrite Z.add_0_r in IH.
      destruct (lines_scan r _ _ (lines + 1)) as [l [lines' offset]].
      cbn [fst snd] in *. destruct IH as (I1 & I2 & I3).
      cbn [app map fst snd length seq]. repeat split.
      * f_equal; [|exact I1]. rewrite Hd.
        replace (acc ++ c :: r) with ((acc ++ [c]) ++ r)
          by (rewrite <- app_assoc; reflexivity).
        apply slice_at; cbn [m_fileOffsetBytes m_byteSize];
          [reflexivity | rewrite length_app; cbn [length]; lia].
      * f_equal; [lia|]. rewrite I2, <- seq_shift, map_map.
        apply map_ext. intros i. lia.
      * constructor; [reflexivity | exact I3].
    + specialize (IH pre (acc ++ [c]) lines).
      rewrite <- !app_assoc in IH. cbn [app] in IH.
      specialize (IH Hd Hn). cbv zeta in IH.
      assert (El : Z.of_nat (length pre) + Z.of_nat (length (acc ++ [c]))
                   = Z.of_nat (length pre) + Z.of_nat (length acc) + 1)
        by (rewrite length_app; cbn [length]; lia).
      rewrite El in IH. exact IH.
Qed.

Lemma hasSequenceIds_emit cfg id sd w :
  m_hasSequenceIds (emit cfg id sd w) = m_hasSequenceIds w.
Proof.
  unfold emit. cbn.
  match goal with
  | |- context [IsIncluded ?c ?k] => destruct (IsIncluded c k)
  end; reflexivity.
Qed.

Lemma hasSequenceIds_emit_all cfg l : forall w,
  m_hasSequenceIds (emit_all cfg l w) = m_hasSequenceIds w.
Proof.
  induction l as [|x l IH]; intros w; cbn; [reflexivity|].
  unfold emit_all in IH. rewrite IH. apply hasSequenceIds_emit.
Qed.

(** The scan in line-delimited mode. *)
Lemma scan_by_lines cfg data w :
  IsEmpty (m_index w) = true -> data <> [] ->
  by_lines cfg (negb (m_hasSequenceIds w)) data = true ->
  let n := Z.of_nat (length data) in
  let sc := lines_scan (scanned cfg data) (startOffset cfg data)
              (startOffset cfg data) 0 in
  let offset := snd (snd sc) in
  let all := fst sc ++ (if offset <? n
                        then [(fst (snd sc), mkSD 0 0 offset (n - offset) 1)]
                        else []) in
  scan cfg data w
  = Completed (emit_all cfg all
                 (set_hasSequenceIds false
                    (set_index (Reserve n (m_index w)) w))).
Proof.
  intros He NE Hl. unfold scan. rewrite He. cbn [negb].
  rewrite (match_nonempty _ _ _ NE).
  fold (scanned cfg data). fold (startOffset cfg data).
  unfold by_lines in Hl. cbn [m_hasSequenceIds set_index]. rewrite Hl.
  cbv zeta.
  destruct (lines_scan (scanned cfg data) (startOffset cfg data)
              (startOffset cfg data) 0) as [l [lines offset]].
  cbn [fst snd]. unfold emit_all.
  destruct (offset <? Z.of_nat (length data)).
  - rewrite fold_left_app. reflexivity.
  - rewrite app_nil_r. reflexivity.
Qed.

Lemma Build_line_mode
  cfg isPrimary skip chunkSize heap corp data fuel :
  (1 <= m_bufferSize cfg)%nat -> Z.of_nat (m_bufferSize cfg) < SIZE_MAX ->
  (enough_fuel data <= fuel)%nat ->
  data <> [] -> by_lines cfg skip data = true ->
  exists w',
    Build cfg fuel (fresh cfg isPrimary skip chunkSize heap corp data)
    = Ok tt w' /\
    map (slice data) (map snd (calls w'))
    = lines_from [] (scanned cfg data) /\
    map fst (calls w') = map Z.of_nat (seq 0 (length (calls w'))) /\
    Forall (fun sd => m_numberOfSamples sd = 1) (map snd (calls w')) /\
    m_hasSequenceIds w' = false.
Proof.
  intros H1 H2 Hf NE Hl.
  pose proof (scan_by_lines cfg data
                (fresh cfg isPrimary skip chunkSize heap corp data)
                eq_refl NE) as Sc.
  cbn [fresh m_hasSequenceIds] in Sc. rewrite negb_involutive in Sc.
  specialize (Sc Hl). cbv zeta in Sc.
  destruct (scanned_prefix cfg data) as [Hd Hp].
  pose proof (lines_scan_slices data (Z.of_nat (length data))
                (scanned cfg data)
                (firstn (Z.to_nat (startOffset cfg data)) data) [] 0
                Hd eq_refl) as L.
  cbv zeta in L. cbn [length] in L. rewrite Hp, Z.add_0_r in L.
  destruct L as (L1 & L2 & L3).
  destruct (Build_fresh_cases cfg isPrimary skip chunkSize heap corp data fuel
              H1 H2 Hf) as [(w' & W & E & S & Eo)|(e & w' & W & E & S & Eo)];
    rewrite Sc in S; [|discriminate].
  injection S as <-. unfold outside in Eo. injection Eo as Eh _ _ Ec.
  exists w'. split; [exact E|]. rewrite Ec, Eh.
  rewrite calls_emit_all, hasSequenceIds_emit_all.
  cbn [calls set_hasSequenceIds set_index app m_hasSequenceIds fresh].
  split; [exact L1|]. split; [|split; [exact L3 | reflexivity]].
  rewrite L2. apply map_ext. intros i. lia.
Qed.

(** X6: in line-delimited mode, for every buffer capacity, [Build]
    completes on a non-empty file and the descriptors handed to the emitter
    cover the lines of the scanned bytes one by one, each line with its row
    delimiter and an unterminated last line included; they carry the line
    numbers 0, 1, 2, ... as sequence ids and one sample each, and the
    indexer no longer reports sequence ids. *)
Theorem X6_line_mode_descriptors_are_the_lines
  cfg isPrimary skip chunkSize heap corp data fuel :
  (1 <= m_bufferSize cfg)%nat -> Z.of_nat (m_bufferSize cfg) < SIZE_MAX ->
  (enough_fuel data <= fuel)%nat ->
  data <> [] -> by_lines cfg skip data = true ->
  exists w',
    Build cfg fuel (fresh cfg isPrimary skip chunkSize heap corp data)
    = Ok tt w' /\
    map (slice data) (map snd (calls w'))
    = lines_from [] (scanned cfg data) /\
    map fst (calls w') = map Z.of_nat (seq 0 (length (calls w'))) /\
    Forall (fun sd => m_numberOfSamples sd = 1) (map snd (calls w')) /\
    m_hasSequenceIds w' = false.
Proof. apply Build_line_mode. Qed.

Lemma X6_witness :
  exists w',
    Build (config false 2) 28
          (fresh (config false 2) true true 32 no_heap everything three_lines)
    = Ok tt w' /\
    map (slice three_lines) (map snd (calls w'))
    = [["a"; x0a]; ["b"; "b"; x0a]; ["c"; "c"; "c"]]%byte.
Proof.
  destruct (X6_line_mode_descriptors_are_the_lines (config false 2) true true
              32 no_heap everything three_lines 28
              ltac:(vm_compute; lia) ltac:(vm_compute; reflexivity)
              ltac:(vm_compute; lia) ltac:(discriminate) eq_refl)
    as (w' & E & S & _).
  exists w'. split; [exact E | exact S].
Defined.

Lemma scan_by_keys cfg data w :
  IsEmpty (m_index w) = true -> data <> [] ->
  by_lines cfg (negb (m_hasSequenceIds w)) data = false ->
  let n := Z.of_nat (length data) in
  let w0 := set_index (Reserve n (m_index w)) w in
  let rk := resolve_key (m_numericSequenceId cfg) (scanned cfg data)
              (registry (corpus w)) in
  let w1 := set_registry (snd rk) w0 in
  let kg := key_groups cfg n (S (length (snd (fst rk)))) (snd (fst rk))
              (sd_at (startOffset cfg data)) (snd (fst (fst rk))) w1 in
  scan cfg data w
  = if fst (fst (fst rk))
    then Completed
           (emit cfg (snd (fst kg))
              (set_byteSize (n - m_fileOffsetBytes (fst (fst kg)))
                            (fst (fst kg)))
              (snd kg))
    else Failed (ExpectedSequenceId (startOffset cfg data)) w1.
Proof.
  intros He NE Hl. unfold scan. rewrite He. cbn [negb].
  rewrite (match_nonempty _ _ _ NE).
  fold (scanned cfg data). fold (startOffset cfg data).
  unfold by_lines in Hl. cbn [m_hasSequenceIds set_index corpus]. rewrite Hl.
  cbv zeta.
  destruct (resolve_key (m_numericSequenceId cfg) (scanned cfg data)
              (registry (corpus w))) as [[[found id] r1] reg].
  cbn [fst snd]. destruct found; cbn [negb]; [|reflexivity].
  match goal with
  | |- context [key_groups ?a ?b ?c ?d ?e ?f ?g] =>
      destruct (key_groups a b c d e f g) as [[sd ck] w2]
  end.
  reflexivity.
Qed.

Lemma scan_key_stop_nonempty numeric r : forall found id k f i k' rest,
  scan_key numeric r found id k = KeyStop f i k' rest -> rest <> [].
Proof.
  induction r as [|ch r IH]; intros found id k f i k' rest; cbn [scan_key];
    [discriminate|].
  destruct numeric.
  - destruct (isdigit ch); cbn [negb]; [apply IH|].
    intros [= <- <- <- <-]. discriminate.
  - destruct (isspace ch); [|apply IH].
    intros [= <- <- <- <-]. discriminate.
Qed.

Lemma resolve_key_found_rest numeric r reg :
  fst (fst (fst (resolve_key numeric r reg))) = true ->
  snd (fst (resolve_key numeric r reg)) <> [].
Proof.
  unfold resolve_key, finish_key.
  destruct (scan_key numeric r false 0 []) as [f i k' rest|f i k'] eqn:E.
  - pose proof (scan_key_stop_nonempty _ _ _ _ _ _ _ _ _ E).
    destruct (negb numeric && f); cbn [fst snd]; auto.
  - cbn [fst snd]. discriminate.
Qed.

Lemma hd_app_last {A} (d : A) l : hd d (l ++ [d]) = hd d l.
Proof. destruct l; reflexivity. Qed.

Lemma adjacent_distinct_cons a t d :
  adjacent_distinct (t ++ [d]) -> hd d t <> a ->
  adjacent_distinct ((a :: t) ++ [d]).
Proof.
  intros H Hn. cbn [app adjacent_distinct]. split; [|exact H].
  rewrite <- (hd_app_last d t) in Hn.
  destruct (t ++ [d]); [exact I | cbn in Hn; congruence].
Qed.

Lemma adjacent_distinct_seq n : forall a,
  adjacent_distinct (map Z.of_nat (seq a n)).
Proof.
  induction n as [|n IH]; intros a; cbn [seq map adjacent_distinct];
    [exact I|].
  split; [|apply IH]. destruct n; cbn; [exact I | lia].
Qed.

Lemma hasSequenceIds_key_groups cfg n steps : forall r sd ck w,
  m_hasSequenceIds (snd (key_groups cfg n steps r sd ck w))
  = m_hasSequenceIds w.
Proof.
  induction steps as [|steps IH]; intros r sd ck w; cbn [key_groups];
    [reflexivity|].
  destruct r as [|x r]; [reflexivity|].
  destruct (skip_line (x :: r)) as [|y r1]; [reflexivity|].
  destruct (resolve_key (m_numericSequenceId cfg) (y :: r1)
              (registry (corpus w))) as [[[found id] r2] reg].
  destruct (found && negb (id =? ck)); rewrite IH;
    rewrite ?hasSequenceIds_emit; reflexivity.
Qed.

(** The keys and the sample counts of the key-grouped loop. *)
Lemma key_groups_keys cfg n steps : forall r sd ck w,
  (length r < steps)%nat -> 0 <= m_numberOfSamples sd ->
  r <> [] \/ 1 <= m_numberOfSamples sd ->
  let kg := key_groups cfg n steps r sd ck w in
  exists l,
    calls (snd kg) = calls w ++ l /\
    adjacent_distinct (map fst l ++ [snd (fst kg)]) /\
    hd (snd (fst kg)) (map fst l) = ck /\
    Forall (fun sd => 1 <= m_numberOfSamples sd) (map snd l) /\
    1 <= m_numberOfSamples (fst (fst kg)).
Proof.
  induction steps as [|steps IH]; intros r sd ck w Hs H0 H1; [lia|].
  cbv zeta. cbn [key_groups].
  destruct r as [|x r].
  { exists []. rewrite app_nil_r. cbn.
    destruct H1 as [H1|H1]; [congruence|]. repeat split; auto. }
  pose proof (skip_line_shorter (x :: r) ltac:(discriminate)) as Hsk.
  destruct (skip_line (x :: r)) as [|y r1].
  { exists []. rewrite app_nil_r. cbn. repeat split; auto; lia. }
  pose proof (resolve_key_length (m_numericSequenceId cfg) (y :: r1)
                (registry (corpus w))) as [Hle _].
  pose proof (resolve_key_found_rest (m_numericSequenceId cfg) (y :: r1)
                (registry (corpus w))) as Hne.
  destruct (resolve_key (m_numericSequenceId cfg) (y :: r1)
              (registry (corpus w))) as [[[found id] r2] reg].
  cbn [fst snd] in Hle, Hne.
  destruct found; cbn [andb].
  - destruct (Z.eqb_spec id ck) as [Eq|Neq]; cbn [negb].
    + destruct (IH r2 (add_sample sd) ck (set_registry reg w))
        as (l & Ec & Ha & Hh & Hf & Hl);
        [lia | cbn; lia | right; cbn; lia |].
      exists l. auto.
    + match goal with
      | |- context [key_groups cfg n steps r2 ?s ?k ?W] =>
          destruct (IH r2 s k W) as (l & Ec & Ha & Hh & Hf & Hl);
            [lia | cbn; lia | left; auto |]
      end.
      rewrite calls_emit in Ec. cbn [calls set_registry] in Ec.
      eexists ((ck, _) :: l).
      split; [rewrite Ec, <- app_assoc; reflexivity|].
      cbn [map fst snd]. split; [|split; [reflexivity|split; [|exact Hl]]].
      * apply adjacent_distinct_cons; [exact Ha | rewrite Hh; exact Neq].
      * constructor; [cbn; lia | exact Hf].
  - destruct (IH r2 (add_sample sd) ck (set_registry reg w))
      as (l & Ec & Ha & Hh & Hf & Hl);
      [lia | cbn; lia | right; cbn; lia |].
    exists l. auto.
Qed.

Lemma startOffset_lt cfg data :
  data <> [] -> 0 <= startOffset cfg data < Z.of_nat (length data).
Proof.
  intros NE. unfold startOffset, bom_skipped.
  destruct (Z.ltb_spec 3 (Z.of_nat (Nat.min (m_bufferSize cfg) (length data))));
    cbn [andb].
  - destruct (starts_with_bom data); [lia|].
    destruct data; [congruence | cbn [length]; lia].
  - destruct data; [congruence | cbn [length]; lia].
Qed.

(** X7: whenever [Build] completes, in either mode and for every buffer
    capacity, at least one sequence was discovered, every discovered
    sequence has at least one sample, two consecutive ones never carry the
    same sequence id, and the indexer reports sequence ids exactly when the
    key-grouped scanner ran.  [Build] fails only for an empty file or a
    missing first sequence id. *)
Theorem X7_discovered_sequences_are_well_formed
  cfg isPrimary skip chunkSize heap corp data fuel :
  (1 <= m_bufferSize cfg)%nat -> Z.of_nat (m_bufferSize cfg) < SIZE_MAX ->
  (enough_fuel data <= fuel)%nat ->
  match Build cfg fuel (fresh cfg isPrimary skip chunkSize heap corp data) with
  | Ok _ w' =>
      calls w' <> [] /\
      adjacent_distinct (map fst (calls w')) /\
      Forall (fun sd => 1 <= m_numberOfSamples sd) (map snd (calls w')) /\
      m_hasSequenceIds w' = negb (by_lines cfg skip data)
  | Raise e _ =>
      e = InputFileEmpty \/ e = ExpectedSequenceId (startOffset cfg data)
  | OutOfFuel => False
  end.
Proof.
  intros H1 H2 Hf.
  pose proof (Build_fresh_outcome cfg isPrimary skip chunkSize heap corp data
                fuel H1 H2 Hf) as O.
  set (w := fresh cfg isPrimary skip chunkSize heap corp data) in *.
  destruct (Build_fresh_cases cfg isPrimary skip chunkSize heap corp data fuel
              H1 H2 Hf) as [(w' & W & E & S & Eo)|(e & w' & W & E & S & Eo)];
    fold w in E, S; rewrite E in *.
  2:{ destruct O as [[_ ->]|(_ & _ & _ & ->)]; auto. }
  destruct O as (NE & _ & T).
  split.
  { intros Ec. rewrite Ec in T. cbn in T.
    pose proof (startOffset_lt cfg data NE). lia. }
  destruct (by_lines cfg skip data) eqn:Hl.
  - destruct (Build_line_mode cfg isPrimary skip chunkSize heap corp data fuel
                H1 H2 Hf NE Hl) as (w2 & E2 & _ & K & Sm & Hh).
    fold w in E2. rewrite E in E2. injection E2 as <-.
    split; [rewrite K; apply adjacent_distinct_seq|].
    split; [|exact Hh].
    eapply Forall_impl; [|exact Sm]. cbn. intros sd ->. lia.
  - assert (Hl' : by_lines cfg (negb (m_hasSequenceIds w)) data = false)
      by (unfold w; cbn [fresh m_hasSequenceIds];
          rewrite negb_involutive; exact Hl).
    pose proof (scan_by_keys cfg data w eq_refl NE Hl') as Sc.
    cbv zeta in Sc. rewrite Sc in S. clear Sc.
    pose proof (resolve_key_found_rest (m_numericSequenceId cfg)
                  (scanned cfg data) (registry (corpus w))) as Hne.
    match type of S with
    | context [key_groups ?a ?b ?c ?d ?e ?f ?g] =>
        pose proof (key_groups_keys a b c d e f g) as K;
        pose proof (hasSequenceIds_key_groups a b c d e f g) as Hh;
        cbv zeta in K;
        remember (key_groups a b c d e f g) as kg eqn:Ekg; clear Ekg
    end.
    destruct (fst (fst (fst (resolve_key (m_numericSequenceId cfg)
                               (scanned cfg data) (registry (corpus w))))));
      [|discriminate].
    injection S as <-. unfold outside in Eo. injection Eo as Eh _ _ Ec.
    rewrite Ec, Eh. clear Ec Eh.
    destruct K as (l & Kc & Ka & Kh & Kf & Kl);
      [lia | cbn; lia | left; exact (Hne eq_refl) |].
    rewrite calls_emit, Kc, hasSequenceIds_emit, Hh.
    cbn [calls set_registry set_index w fresh app m_hasSequenceIds].
    rewrite !map_app. cbn [map fst snd].
    split; [exact Ka|]. split.
    + apply Forall_app. split; [exact Kf|]. constructor; [exact Kl|constructor].
    + unfold by_lines in Hl. apply orb_false_elim in Hl as [-> _]. reflexivity.
Qed.

Lemma X7_witness :
  match Build (config true 3) 40
          (fresh (config true 3) true false 32 no_heap everything two_keys) with
  | Ok _ w' =>
      calls w' <> [] /\
      adjacent_distinct (map fst (calls w')) /\
      Forall (fun sd => 1 <= m_numberOfSamples sd) (map snd (calls w')) /\
      m_hasSequenceIds w' = negb (by_lines (config true 3) false two_keys)
  | Raise e _ =>
      e = InputFileEmpty \/
      e = ExpectedSequenceId (startOffset (config true 3) two_keys)
  | OutOfFuel => False
  end.
Proof.
  apply X7_discovered_sequences_are_well_formed;
    vm_compute; first [lia | reflexivity].
Defined.

(* ================================================================= *)
(** ** What reaches the index *)

Lemma subsequence_refl {A} (l : list A) : subsequence l l.
Proof. induction l; constructor; assumption. Qed.

Lemma subsequence_app {A} (a b c d : list A) :
  subsequence a b -> subsequence c d -> subsequence (a ++ c) (b ++ d).
Proof.
  intros H1 H2. induction H1; cbn; [assumption | |]; constructor; assumption.
Qed.

Lemma stored_from_refl w : stored_from w w.
Proof.
  repeat (split; [reflexivity|]). exists [], [].
  rewrite !app_nil_r. repeat split; auto. constructor.
Qed.

Lemma stored_from_trans w1 w2 w3 :
  stored_from w1 w2 -> stored_from w2 w3 -> stored_from w1 w3.
Proof.
  intros (I1 & C1 & P1 & R1 & n1 & a1 & Ec1 & Ei1 & S1 & F1 & A1 & N1)
         (I2 & C2 & P2 & R2 & n2 & a2 & Ec2 & Ei2 & S2 & F2 & A2 & N2).
  split; [congruence|]. split; [congruence|]. split; [congruence|].
  split; [congruence|].
  exists (n1 ++ n2), (a1 ++ a2).
  split; [rewrite Ec2, Ec1, app_assoc; reflexivity|].
  split; [rewrite Ei2, Ei1, app_assoc; reflexivity|].
  rewrite !map_app.
  split; [apply subsequence_app; assumption|].
  split; [apply Forall_app; split; assumption|].
  split.
  - intros H. rewrite A1 by exact H.
    rewrite A2 by (rewrite I1; exact H). reflexivity.
  - intros H. rewrite N1 by exact H.
    rewrite N2 by (rewrite I1; exact H). reflexivity.
Qed.

(** A step that touches neither the filter, nor the log, nor the index. *)
Lemma stored_from_same w w' :
  IsIncluded (corpus w') = IsIncluded (corpus w) ->
  m_index w' = m_index w -> calls w' = calls w -> stored_from w w'.
Proof.
  intros I E C. split; [exact I|]. rewrite E.
  repeat (split; [reflexivity|]). exists [], [].
  rewrite !app_nil_r. repeat split; auto. constructor.
Qed.

Lemma stored_from_emit cfg id sd w : stored_from w (emit cfg id sd w).
Proof.
  unfold emit. cbn [log_call corpus m_index calls].
  match goal with
  | |- context [IsIncluded ?c ?k] => destruct (IsIncluded c k) eqn:E
  end.
  - repeat (split; [reflexivity|]). eexists [(id, sd)], [_].
    cbn. repeat split; auto.
    + repeat constructor.
    + intros H. rewrite H in E. discriminate.
  - repeat (split; [reflexivity|]). exists [(id, sd)], [].
    cbn. rewrite app_nil_r. repeat split; auto.
    + repeat constructor.
    + intros H. rewrite H in E. discriminate.
Qed.

Lemma stored_from_emit_all cfg l : forall w, stored_from w (emit_all cfg l w).
Proof.
  induction l as [|x l IH]; intros w; cbn; [apply stored_from_refl|].
  eapply stored_from_trans; [apply stored_from_emit | apply IH].
Qed.

Lemma stored_from_set_registry reg w : stored_from w (set_registry reg w).
Proof. apply stored_from_same; reflexivity. Qed.

Lemma stored_from_key_groups cfg n steps : forall r sd ck w,
  stored_from w (snd (key_groups cfg n steps r sd ck w)).
Proof.
  induction steps as [|steps IH]; intros r sd ck w; cbn [key_groups];
    [apply stored_from_refl|].
  destruct r as [|x r]; [apply stored_from_refl|].
  destruct (skip_line (x :: r)) as [|y r1]; [apply stored_from_refl|].
  destruct (resolve_key (m_numericSequenceId cfg) (y :: r1)
              (registry (corpus w))) as [[[found id] r2] reg].
  destruct (found && negb (id =? ck)).
  - eapply stored_from_trans; [apply (stored_from_set_registry reg)|].
    eapply stored_from_trans; [apply stored_from_emit | apply IH].
  - eapply stored_from_trans; [apply (stored_from_set_registry reg) | apply IH].
Qed.

Lemma resolve_key_not_found numeric r reg :
  fst (fst (fst (resolve_key numeric r reg))) = false ->
  snd (resolve_key numeric r reg) = reg.
Proof.
  unfold resolve_key.
  destruct (scan_key numeric r false 0 []) as [found id k rest|found id k];
    cbn [finish_key]; [|reflexivity].
  destruct found; [|rewrite andb_false_r; reflexivity].
  destruct (negb numeric); cbn; [discriminate | reflexivity].
Qed.

(** A scan reserves once, for the size of the file, and stores through the
    emitter only. *)
Lemma stored_from_scan cfg data w :
  IsEmpty (m_index w) = true ->
  match scan cfg data w with
  | Completed W =>
      stored_from (set_index (Reserve (Z.of_nat (length data)) (m_index w)) w) W
  | Failed _ W =>
      outside W
      = outside (set_index (Reserve (Z.of_nat (length data)) (m_index w)) w)
  | Unfinished => False
  end.
Proof.
  intros He. unfold scan. rewrite He. cbn [negb].
  set (w0 := set_index (Reserve (Z.of_nat (length data)) (m_index w)) w).
  destruct data as [|d0 dt] eqn:Ed; [reflexivity|]. rewrite <- Ed.
  set (r := if bom_skipped (m_bufferSize cfg) data then skipn 3 data else data).
  destruct (negb (m_hasSequenceIds w0) || first_is (m_streamPrefix cfg) r).
  - destruct (lines_scan r _ _ 0) as [l [lines offset]].
    assert (S1 : stored_from w0 (emit_all cfg l (set_hasSequenceIds false w0))).
    { eapply stored_from_trans; [|apply stored_from_emit_all].
      apply stored_from_same; reflexivity. }
    destruct (offset <? Z.of_nat (length data)); [|exact S1].
    eapply stored_from_trans; [exact S1 | apply stored_from_emit].
  - pose proof (resolve_key_not_found (m_numericSequenceId cfg) r
                  (registry (corpus w0))) as NF.
    destruct (resolve_key (m_numericSequenceId cfg) r (registry (corpus w0)))
      as [[[found id] r1] reg].
    cbn [fst snd] in NF. destruct found; cbn [negb].
    + match goal with
      | |- context [key_groups ?a ?b ?c ?d ?e ?f ?g] =>
          pose proof (stored_from_key_groups a b c d e f g) as K;
          destruct (key_groups a b c d e f g) as [[sd ck] w2]
      end. cbn [snd] in K.
      eapply stored_from_trans; [|apply stored_from_emit].
      eapply stored_from_trans; [|exact K].
      apply stored_from_set_registry.
    + rewrite (NF eq_refl). rewrite set_registry_same. reflexivity.
Qed.

Lemma Build_stores cfg isPrimary skip chunkSize heap corp data fuel :
  (1 <= m_bufferSize cfg)%nat -> Z.of_nat (m_bufferSize cfg) < SIZE_MAX ->
  (enough_fuel data <= fuel)%nat ->
  match Build cfg fuel (fresh cfg isPrimary skip chunkSize heap corp data) with
  | Ok _ w' =>
      m_index w' = mkIndex chunkSize isPrimary [Z.of_nat (length data)]
                           (idx_sequences (m_index w')) /\
      subsequence (map span (idx_sequences (m_index w')))
                  (map span (map snd (calls w'))) /\
      Forall (fun sd => m_key_sample sd = 0) (idx_sequences (m_index w')) /\
      ((forall k, IsIncluded corp k = true) ->
       map span (idx_sequences (m_index w')) = map span (map snd (calls w'))) /\
      ((forall k, IsIncluded corp k = false) ->
       idx_sequences (m_index w') = [])
  | Raise _ w' =>
      m_index w' = mkIndex chunkSize isPrimary [Z.of_nat (length data)] [] /\
      calls w' = [] /\ corpus w' = corp /\ m_hasSequenceIds w' = negb skip
  | OutOfFuel => False
  end.
Proof.
  intros H1 H2 Hf.
  pose proof (stored_from_scan cfg data
                (fresh cfg isPrimary skip chunkSize heap corp data) eq_refl)
    as St.
  destruct (Build_fresh_cases cfg isPrimary skip chunkSize heap corp data fuel
              H1 H2 Hf) as [(w' & W & E & S & Eo)|(e & w' & W & E & S & Eo)];
    rewrite E; rewrite S in St; unfold outside in Eo.
  - injection Eo as Eh Ei Ec El.
    destruct St as (I & C & P & R & new & added & Sc & Si & Sub & F0 & A & N).
    cbn in I, C, P, R, Sc, Si, A, N. rewrite Ei, El, Sc, Si.
    split; [destruct (m_index W); cbn in *; congruence|].
    repeat split; assumption.
  - injection Eo as Eh Ei Ec El. unfold outside in St. cbn in St.
    injection St as Sh Si Sc Sl. rewrite Eh, Ei, Ec, El, Sh, Si, Sc, Sl.
    repeat split; reflexivity.
Qed.

(** X8: a [Build] that completes has reserved once, for the size of the
    file, and the index holds a subsequence of the discovered descriptors,
    in discovery order, with their offsets, sizes and sample counts, each
    with the sample part of its key set to zero: all of them under a
    filter that includes every key, none under a filter that includes no
    key. *)
Theorem X8_index_holds_the_included_descriptors
  cfg isPrimary skip chunkSize heap corp data fuel w' :
  (1 <= m_bufferSize cfg)%nat -> Z.of_nat (m_bufferSize cfg) < SIZE_MAX ->
  (enough_fuel data <= fuel)%nat ->
  Build cfg fuel (fresh cfg isPrimary skip chunkSize heap corp data)
  = Ok tt w' ->
  m_index w' = mkIndex chunkSize isPrimary [Z.of_nat (length data)]
                       (idx_sequences (m_index w')) /\
  subsequence (map span (idx_sequences (m_index w')))
              (map span (map snd (calls w'))) /\
  Forall (fun sd => m_key_sample sd = 0) (idx_sequences (m_index w')) /\
  ((forall k, IsIncluded corp k = true) ->
   map span (idx_sequences (m_index w')) = map span (map snd (calls w'))) /\
  ((forall k, IsIncluded corp k = false) -> idx_sequences (m_index w') = []).
Proof.
  intros H1 H2 Hf E.
  pose proof (Build_stores cfg isPrimary skip chunkSize heap corp data fuel
                H1 H2 Hf) as B.
  rewrite E in B. exact B.
Qed.

Lemma X8_witness :
  exists w',
    Build (config true 3) 40
          (fresh (config true 3) true false 32 no_heap everything two_keys)
    = Ok tt w' /\
    m_index w' = mkIndex 32 true [12] (idx_sequences (m_index w')) /\
    map span (idx_sequences (m_index w')) = [(0, 8, 2); (8, 4, 1)].
Proof.
  eexists. split; [vm_compute; reflexivity|].
  destruct (X8_index_holds_the_included_descriptors (config true 3) true false
              32 no_heap everything two_keys 40 _
              ltac:(vm_compute; lia) ltac:(vm_compute; reflexivity)
              ltac:(vm_compute; lia) ltac:(vm_compute; reflexivity))
    as (I & _ & _ & A & _).
  split; [exact I | exact (A (fun _ => eq_refl))].
Defined.

(** X9: a [Build] that fails has reserved once, for the size of the file,
    and has done nothing else that shows: no descriptor was handed to the
    emitter, the index holds none, the registry and the filter are the
    ones given, and [m_hasSequenceIds] is as constructed. *)
Theorem X9_a_failed_Build_leaves_no_trace
  cfg isPrimary skip chunkSize heap corp data fuel e w' :
  (1 <= m_bufferSize cfg)%nat -> Z.of_nat (m_bufferSize cfg) < SIZE_MAX ->
  (enough_fuel data <= fuel)%nat ->
  Build cfg fuel (fresh cfg isPrimary skip chunkSize heap corp data)
  = Raise e w' ->
  m_index w' = mkIndex chunkSize isPrimary [Z.of_nat (length data)] [] /\
  calls w' = [] /\ corpus w' = corp /\ m_hasSequenceIds w' = negb skip.
Proof.
  intros H1 H2 Hf E.
  pose proof (Build_stores cfg isPrimary skip chunkSize heap corp data fuel
                H1 H2 Hf) as B.
  rewrite E in B. exact B.
Qed.

Lemma X9_witness :
  exists w',
    Build (config false 3) 10
          (fresh (config false 3) true false 32 no_heap everything letters_ab)
    = Raise (ExpectedSequenceId 0) w' /\
    m_index w' = mkIndex 32 true [2] [] /\ calls w' = [] /\
    corpus w' = everything.
Proof.
  eexists. split; [vm_compute; reflexivity|].
  destruct (X9_a_failed_Build_leaves_no_trace (config false 3) true false
              32 no_heap everything letters_ab 10 _ _
              ltac:(vm_compute; lia) ltac:(vm_compute; reflexivity)
              ltac:(vm_compute; lia) ltac:(vm_compute; reflexivity))
    as (I & C & K & _).
  split; [exact I|]. split; [exact C | exact K].
Defined.

(* ================================================================= *)
(** ** A second [Build] *)

Lemma bind_Ok_inv {S A B} (m : M S A) (k : A -> M S B) s b s' :
  bind m k s = Ok b s' -> exists a s1, m s = Ok a s1 /\ k a s1 = Ok b s'.
Proof.
  unfold bind. destruct (m s) as [a s1| |]; try discriminate.
  intros H. exists a, s1. auto.
Qed.

Lemma cur_emit cfg id sd w : cur (emit cfg id sd w) = cur w.
Proof.
  unfold emit. cbn.
  match goal with
  | |- context [IsIncluded ?c ?k] => destruct (IsIncluded c k)
  end; reflexivity.
Qed.

(** The loop of [BuildFromLines] is left only at the end of the file. *)
Lemma BuildFromLines_loop_done cfg fuel : forall lines offset w res w',
  BuildFromLines_loop cfg fuel lines offset w = Ok res w' ->
  m_done (cur w') = true.
Proof.
  induction fuel as [|fuel IH]; intros lines offset w res w' E;
    [discriminate|].
  cbn [BuildFromLines_loop] in E. cbv zeta in E.
  destruct (m_done (cur w)) eqn:Dn; cbn [negb] in E.
  { injection E as _ <-. exact Dn. }
  destruct (memchr cfg _ _ _ _) as [p|]; [|discriminate].
  match type of E with
  | (if ?b then _ else _) = _ => destruct b
  end.
  - apply bind_Ok_inv in E as (? & w1 & _ & E).
    apply bind_Ok_inv in E as (? & w2 & _ & E).
    exact (IH _ _ _ _ _ E).
  - apply bind_Ok_inv in E as (? & w1 & _ & E).
    exact (IH _ _ _ _ _ E).
Qed.

(** The key-grouped loop is left only at the end of the file. *)
Lemma Build_loop_done cfg fuel : forall sd ck w res w',
  Build_loop cfg fuel sd ck w = Ok res w' -> m_done (cur w') = true.
Proof.
  induction fuel as [|fuel IH]; intros sd ck w res w' E; [discriminate|].
  cbn [Build_loop] in E.
  destruct (m_done (cur w)) eqn:Dn; cbn [negb] in E.
  { injection E as _ <-. exact Dn. }
  apply bind_Ok_inv in E as (? & w1 & _ & E).
  apply bind_Ok_inv in E as (offset & w2 & _ & E).
  apply bind_Ok_inv in E as (done & w3 & _ & E).
  destruct done; cbn [negb] in E; [exact (IH _ _ _ _ _ E)|].
  apply bind_Ok_inv in E as ([found id] & w4 & _ & E).
  destruct (found && negb (id =? ck)).
  - apply bind_Ok_inv in E as (? & w5 & _ & E). exact (IH _ _ _ _ _ E).
  - exact (IH _ _ _ _ _ E).
Qed.

(** A [Build] that scans returns only after the end of the file has been
    seen. *)
Lemma Build_done cfg fuel w w' :
  IsEmpty (m_index w) = true -> Build cfg fuel w = Ok tt w' ->
  m_done (cur w') = true.
Proof.
  intros He E. unfold Build in E. rewrite He in E. cbn [negb] in E.
  apply bind_Ok_inv in E as (? & w1 & _ & E).
  apply bind_Ok_inv in E as (? & w2 & _ & E).
  apply bind_Ok_inv in E as (done & w3 & _ & E).
  destruct done; [discriminate|].
  apply bind_Ok_inv in E as (bom & w4 & _ & E).
  apply bind_Ok_inv in E as (? & w5 & _ & E).
  apply bind_Ok_inv in E as (lm & w6 & _ & E).
  destruct lm.
  - unfold BuildFromLines in E.
    destruct (negb (m_pos (cur w6) =? m_bufferStart (cur w6)));
      [discriminate|].
    apply bind_Ok_inv in E as ([lines offset] & w7 & L & E).
    apply BuildFromLines_loop_done in L.
    destruct (offset <? m_fileOffsetEnd (cur w7)).
    + rewrite AddSequenceIfIncluded_emit in E. injection E as <-.
      rewrite cur_emit. exact L.
    + injection E as <-. exact L.
  - apply bind_Ok_inv in E as (offset & w7 & _ & E).
    apply bind_Ok_inv in E as ([found id] & w8 & _ & E).
    destruct found; cbn [negb] in E; [|discriminate].
    apply bind_Ok_inv in E as ([sd ck] & w9 & L & E).
    apply Build_loop_done in L.
    apply bind_Ok_inv in E as (end_ & w10 & G & E).
    injection G as _ <-.
    rewrite AddSequenceIfIncluded_emit in E. injection E as <-.
    rewrite cur_emit. exact L.
Qed.

(** Once the end of the file has been seen, a [Build] on an empty index
    reserves and reports an empty input, without reading. *)
Lemma Build_at_eof cfg fuel w :
  IsEmpty (m_index w) = true -> m_done (cur w) = true ->
  Build cfg fuel w
  = Raise InputFileEmpty
      (set_index (Reserve (filesize (m_file (cur w))) (m_index w)) w).
Proof.
  intros He Dn. unfold Build. rewrite He. cbn [negb].
  rewrite bind_modify.
  set (w0 := set_index (Reserve (filesize (m_file (cur w))) (m_index w)) w).
  assert (R : on_cursor (RefillBuffer cfg) w0 = Ok tt w0).
  { unfold on_cursor, zoom, RefillBuffer. cbn [cur w0 set_index].
    rewrite Dn. cbn [negb]. destruct w; reflexivity. }
  rewrite (bind_ok _ _ _ _ _ R), bind_gets. cbn [cur w0 set_index].
  rewrite Dn. reflexivity.
Qed.

(** X10: [Build] scans the file at most once.  After a [Build] that
    returned, from any state, the next [Build] is a no-op when the index
    holds a sequence; when it holds none (every sequence was filtered
    out), the next [Build] reserves again and raises "Input file is
    empty" without reading the file, since [m_done] stays set. *)
Theorem X10_a_second_Build_does_not_scan cfg fuel fuel' w w' :
  Build cfg fuel w = Ok tt w' ->
  Build cfg fuel' w'
  = if IsEmpty (m_index w')
    then Raise InputFileEmpty
           (set_index (Reserve (filesize (m_file (cur w'))) (m_index w')) w')
    else Ok tt w'.
Proof.
  intros E. destruct (IsEmpty (m_index w')) eqn:He'.
  - apply Build_at_eof; [exact He'|].
    destruct (IsEmpty (m_index w)) eqn:He.
    + exact (Build_done cfg fuel w w' He E).
    + unfold Build in E. rewrite He in E. cbn [negb] in E.
      injection E as <-. congruence.
  - unfold Build. rewrite He'. reflexivity.
Qed.

Lemma X10_witness :
  exists w',
    Build (config true 3) 40
          (fresh (config true 3) true false 32 no_heap nothing two_keys)
    = Ok tt w' /\
    length (calls w') = 2%nat /\
    Build (config true 3) 40 w'
    = Raise InputFileEmpty
        (set_index (Reserve 12 (Reserve 12 (mkIndex 32 true [] []))) w').
Proof.
  eexists. split; [vm_compute; reflexivity|]. split; [reflexivity|].
  rewrite (X10_a_second_Build_does_not_scan (config true 3) 40 40
             (fresh (config true 3) true false 32 no_heap nothing two_keys) _
             ltac:(vm_compute; reflexivity)).
  reflexivity.
Defined.

(* ================================================================= *)
(** ** Where the sequences begin *)

Lemma is_nl_eq c : is_nl c = true -> c = ROW_DELIMITER.
Proof. apply Byte.byte_dec_bl. Qed.

(** The offset after a row delimiter is the start of a line. *)
Lemma line_start_after start pre t :
  line_start start (pre ++ ROW_DELIMITER :: t)
    (Z.of_nat (length (pre ++ ROW_DELIMITER :: t)) - Z.of_nat (length t)).
Proof.
  right. rewrite length_app. cbn [length]. split; [lia|].
  replace (Z.to_nat (Z.of_nat (length pre + S (length t))
                     - Z.of_nat (length t) - 1)) with (length pre) by lia.
  rewrite nth_error_app2 by lia. rewrite Nat.sub_diag. reflexivity.
Qed.

Lemma skip_line_split r : forall y t,
  skip_line r = y :: t -> exists p, r = p ++ ROW_DELIMITER :: y :: t.
Proof.
  induction r as [|c r IH]; intros y t; cbn [skip_line]; [discriminate|].
  destruct (is_nl c) eqn:N.
  - intros ->. exists []. rewrite (is_nl_eq c N). reflexivity.
  - intros E. destruct (IH _ _ E) as [p ->]. exists (c :: p). reflexivity.
Qed.

Lemma scan_key_suffix numeric r : forall found id k f i k' rest,
  scan_key numeric r found id k = KeyStop f i k' rest ->
  exists q, r = q ++ rest.
Proof.
  induction r as [|ch r IH]; intros found id k f i k' rest; cbn [scan_key];
    [discriminate|].
  destruct numeric.
  - destruct (isdigit ch); cbn [negb].
    + intros E. destruct (IH _ _ _ _ _ _ _ E) as [q ->].
      exists (ch :: q). reflexivity.
    + intros [= <- <- <- <-]. exists []. reflexivity.
  - destruct (isspace ch).
    + intros [= <- <- <- <-]. exists []. reflexivity.
    + intros E. destruct (IH _ _ _ _ _ _ _ E) as [q ->].
      exists (ch :: q). reflexivity.
Qed.

Lemma resolve_key_suffix numeric r reg :
  exists q, r = q ++ snd (fst (resolve_key numeric r reg)).
Proof.
  unfold resolve_key, finish_key.
  destruct (scan_key numeric r false 0 []) as [f i k' rest|f i k'] eqn:E.
  - destruct (scan_key_suffix _ _ _ _ _ _ _ _ _ E) as [q ->].
    exists q. destruct (negb numeric && f); reflexivity.
  - exists r. cbn. symmetry. apply app_nil_r.
Qed.

Lemma lines_scan_line_starts s data r : forall start at_ lines pre,
  data = pre ++ r -> at_ = Z.of_nat (length pre) ->
  line_start s data start ->
  let sc := lines_scan r start at_ lines in
  Forall (fun x => line_start s data (m_fileOffsetBytes (snd x))) (fst sc) /\
  line_start s data (snd (snd sc)).
Proof.
  induction r as [|c r IH]; intros start at_ lines pre Ed Ea P;
    cbn [lines_scan]; cbv zeta.
  - cbn. split; [constructor | exact P].
  - destruct (is_nl c) eqn:N.
    + assert (P' : line_start s data (at_ + 1)).
      { rewrite (is_nl_eq c N) in Ed.
        pose proof (line_start_after s pre r) as L. rewrite <- Ed in L.
        replace (at_ + 1)
          with (Z.of_nat (length data) - Z.of_nat (length r)); [exact L|].
        rewrite Ed, length_app. cbn [length]. lia. }
      specialize (IH (at_ + 1) (at_ + 1) (lines + 1) (pre ++ [c])).
      cbv zeta in IH.
      destruct (lines_scan r (at_ + 1) (at_ + 1) (lines + 1)) as [l fin].
      cbn [fst snd] in *.
      destruct IH as [F L];
        [rewrite <- app_assoc; exact Ed
        | rewrite length_app; cbn [length]; lia | exact P' |].
      split; [constructor; [exact P | exact F] | exact L].
    + apply (IH start (at_ + 1) lines (pre ++ [c]));
        [rewrite <- app_assoc; exact Ed
        | rewrite length_app; cbn [length]; lia | exact P].
Qed.

Lemma key_groups_line_starts cfg s data steps : forall r sd ck w pre,
  data = pre ++ r ->
  line_start s data (m_fileOffsetBytes sd) ->
  Forall (fun x => line_start s data (m_fileOffsetBytes (snd x))) (calls w) ->
  let kg := key_groups cfg (Z.of_nat (length data)) steps r sd ck w in
  Forall (fun x => line_start s data (m_fileOffsetBytes (snd x)))
         (calls (snd kg)) /\
  line_start s data (m_fileOffsetBytes (fst (fst kg))).
Proof.
  induction steps as [|steps IH]; intros r sd ck w pre Ed P F; cbv zeta;
    cbn [key_groups]; [split; assumption|].
  destruct r as [|x r]; [split; assumption|].
  destruct (skip_line (x :: r)) as [|y r1] eqn:Sk; [split; assumption|].
  destruct (skip_line_split _ _ _ Sk) as [p Ep].
  assert (P' : line_start s data
                 (Z.of_nat (length data) - Z.of_nat (length (y :: r1)))).
  { rewrite Ed, Ep, app_assoc. apply line_start_after. }
  destruct (resolve_key_suffix (m_numericSequenceId cfg) (y :: r1)
              (registry (corpus w))) as [q Eq].
  destruct (resolve_key (m_numericSequenceId cfg) (y :: r1)
              (registry (corpus w))) as [[[found id] r2] reg].
  cbn [fst snd] in Eq.
  assert (Ed2 : data = (pre ++ p ++ [ROW_DELIMITER] ++ q) ++ r2).
  { rewrite Ed, Ep, Eq, <- !app_assoc. reflexivity. }
  destruct (found && negb (id =? ck)).
  - apply (IH r2 _ _ _ _ Ed2); [exact P'|].
    rewrite calls_emit. apply Forall_app. split; [exact F|].
    constructor; [exact P | constructor].
  - apply (IH r2 _ _ _ _ Ed2); [exact P | exact F].
Qed.

Lemma scan_line_starts cfg data w :
  IsEmpty (m_index w) = true -> calls w = [] ->
  match scan cfg data w with
  | Completed W =>
      Forall (fun sd => line_start (startOffset cfg data) data
                          (m_fileOffsetBytes sd))
             (map snd (calls W))
  | _ => True
  end.
Proof.
  intros He Hc. unfold scan. rewrite He. cbn [negb].
  destruct (scanned_prefix cfg data) as [Ed El].
  destruct data as [|d0 dt] eqn:Eq; [exact I|]. rewrite <- Eq in *.
  fold (scanned cfg data). fold (startOffset cfg data).
  set (w0 := set_index (Reserve (Z.of_nat (length data)) (m_index w)) w).
  set (s := startOffset cfg data) in *.
  set (pre := firstn (Z.to_nat s) data) in *.
  destruct (negb (m_hasSequenceIds w0)
            || first_is (m_streamPrefix cfg) (scanned cfg data)).
  - pose proof (lines_scan_line_starts s data (scanned cfg data) s s 0 pre
                  Ed (eq_sym El) (or_introl eq_refl)) as L. cbv zeta in L.
    destruct (lines_scan (scanned cfg data) s s 0) as [l [lines offset]].
    cbn [fst snd] in L. destruct L as [F P].
    assert (F1 : Forall (fun x => line_start s data
                                    (m_fileOffsetBytes (snd x)))
                   (calls (emit_all cfg l (set_hasSequenceIds false w0))))
      by (rewrite calls_emit_all; cbn [calls set_hasSequenceIds w0 set_index];
          rewrite Hc; exact F).
    destruct (offset <? Z.of_nat (length data)); cbv beta iota zeta;
      [|rewrite Forall_map; exact F1].
    rewrite Forall_map, calls_emit. apply Forall_app. split; [exact F1|].
    constructor; [exact P | constructor].
  - destruct (resolve_key_suffix (m_numericSequenceId cfg) (scanned cfg data)
                (registry (corpus w0))) as [q Es].
    destruct (resolve_key (m_numericSequenceId cfg) (scanned cfg data)
                (registry (corpus w0))) as [[[found id] r1] reg].
    cbn [fst snd] in Es. destruct found; cbn [negb]; [|exact I].
    match goal with
    | |- context [key_groups ?a ?b ?c ?d ?e ?f ?g] =>
        pose proof (key_groups_line_starts a s data c d e f g (pre ++ q)) as K;
        destruct (key_groups a b c d e f g) as [[sd ck] w2]
    end.
    cbv zeta in K. cbn [fst snd] in K.
    destruct K as [F P];
      [rewrite <- app_assoc, <- Es; exact Ed
      | left; reflexivity
      | cbn [calls set_registry w0 set_index]; rewrite Hc; constructor |].
    cbv beta iota zeta. rewrite Forall_map, calls_emit. apply Forall_app. split; [exact F|].
    constructor; [exact P | constructor].
Qed.

(** X11: every sequence that a completed [Build] discovers, in either
    mode, begins at the start of a line: at the offset where the scan
    starts (0, or 3 after a skipped BOM), or right after a row
    delimiter. *)
Theorem X11_sequences_begin_at_line_starts
  cfg isPrimary skip chunkSize heap corp data fuel w' :
  (1 <= m_bufferSize cfg)%nat -> Z.of_nat (m_bufferSize cfg) < SIZE_MAX ->
  (enough_fuel data <= fuel)%nat ->
  Build cfg fuel (fresh cfg isPrimary skip chunkSize heap corp data)
  = Ok tt w' ->
  Forall (fun sd => line_start (startOffset cfg data) data
                      (m_fileOffsetBytes sd))
         (map snd (calls w')).
Proof.
  intros H1 H2 Hf E.
  pose proof (scan_line_starts cfg data
                (fresh cfg isPrimary skip chunkSize heap corp data)
                eq_refl eq_refl) as L.
  destruct (Build_fresh_cases cfg isPrimary skip chunkSize heap corp data fuel
              H1 H2 Hf) as [(w2 & W & E2 & S & Eo)|(e & w2 & W & E2 & S & Eo)];
    rewrite E in E2; [|discriminate].
  injection E2 as <-. rewrite S in L.
  unfold outside in Eo. injection Eo as _ _ _ ->. exact L.
Qed.

Lemma X11_witness :
  exists w',
    Build (config true 3) 40
          (fresh (config true 3) true false 32 no_heap everything two_keys)
    = Ok tt w' /\
    Forall (fun sd => line_start 0 two_keys (m_fileOffsetBytes sd))
           (map snd (calls w')).
Proof.
  eexists. split; [vm_compute; reflexivity|].
  exact (X11_sequences_begin_at_line_starts (config true 3) true false 32
           no_heap everything two_keys 40 _
           ltac:(vm_compute; lia) ltac:(vm_compute; reflexivity)
           ltac:(vm_compute; lia) ltac:(vm_compute; reflexivity)).
Defined.

(* ================================================================= *)
(** ** Discovery and the corpus *)

(** In numeric mode the resolver does not read the registry. *)
Lemma resolve_key_numeric_indep r reg1 reg2 :
  fst (resolve_key true r reg1) = fst (resolve_key true r reg2).
Proof.
  unfold resolve_key, finish_key.
  destruct (scan_key true r false 0 []); reflexivity.
Qed.

Lemma key_groups_calls_indep cfg n steps :
  m_numericSequenceId cfg = true ->
  forall r sd ck w1 w2, calls w1 = calls w2 ->
    fst (key_groups cfg n steps r sd ck w1)
    = fst (key_groups cfg n steps r sd ck w2) /\
    calls (snd (key_groups cfg n steps r sd ck w1))
    = calls (snd (key_groups cfg n steps r sd ck w2)).
Proof.
  intros Hn. induction steps as [|steps IH]; intros r sd ck w1 w2 Ec;
    cbn [key_groups]; [split; [reflexivity | exact Ec]|].
  destruct r as [|x r]; [split; [reflexivity | exact Ec]|].
  destruct (skip_line (x :: r)) as [|y r1]; [split; [reflexivity | exact Ec]|].
  rewrite Hn.
  pose proof (resolve_key_numeric_indep (y :: r1) (registry (corpus w1))
                (registry (corpus w2))) as R.
  destruct (resolve_key true (y :: r1) (registry (corpus w1)))
    as [[[found id] r2] g1].
  destruct (resolve_key true (y :: r1) (registry (corpus w2)))
    as [[[found' id'] r2'] g2].
  cbn [fst] in R. injection R as <- <- <-.
  destruct (found && negb (id =? ck)); apply IH;
    rewrite ?calls_emit; cbn [calls set_registry]; congruence.
Qed.

Lemma scan_calls_indep cfg data w1 w2 :
  IsEmpty (m_index w1) = true -> IsEmpty (m_index w2) = true ->
  calls w1 = calls w2 -> m_hasSequenceIds w1 = m_hasSequenceIds w2 ->
  m_numericSequenceId cfg = true \/
  by_lines cfg (negb (m_hasSequenceIds w1)) data = true ->
  match scan cfg data w1, scan cfg data w2 with
  | Completed W1, Completed W2 =>
      calls W1 = calls W2 /\ m_hasSequenceIds W1 = m_hasSequenceIds W2
  | Failed e1 _, Failed e2 _ => e1 = e2
  | _, _ => False
  end.
Proof.
  intros He1 He2 Ec Eh Mode. unfold scan. rewrite He1, He2. cbn [negb].
  destruct data as [|d0 dt] eqn:Eq; [reflexivity|]. rewrite <- Eq in *.
  fold (scanned cfg data). fold (startOffset cfg data).
  unfold by_lines in Mode.
  cbn [m_hasSequenceIds set_index corpus]. rewrite <- Eh.
  destruct (negb (m_hasSequenceIds w1)
            || first_is (m_streamPrefix cfg) (scanned cfg data)) eqn:Hl.
  - destruct (lines_scan (scanned cfg data) _ _ 0) as [l [lines offset]].
    destruct (offset <? Z.of_nat (length data));
      rewrite ?calls_emit, ?hasSequenceIds_emit, !calls_emit_all,
        !hasSequenceIds_emit_all;
      cbn [calls m_hasSequenceIds set_hasSequenceIds set_index];
      rewrite Ec; split; reflexivity.
  - destruct Mode as [Hn|?]; [|discriminate]. rewrite Hn.
    pose proof (resolve_key_numeric_indep (scanned cfg data)
                  (registry (corpus w1)) (registry (corpus w2))) as R.
    destruct (resolve_key true (scanned cfg data) (registry (corpus w1)))
      as [[[found id] r1] g1].
    destruct (resolve_key true (scanned cfg data) (registry (corpus w2)))
      as [[[found' id'] r1'] g2].
    cbn [fst] in R. injection R as <- <- <-.
    destruct found; cbn [negb]; [|reflexivity].
    match goal with
    | |- context [key_groups ?a ?b ?c ?d ?e ?f ?g] =>
        match goal with
        | |- context [key_groups a b c d e f ?g'] =>
            lazymatch g' with
            | g => fail
            | _ => pose proof (key_groups_calls_indep a b c Hn d e f g g') as K;
                   pose proof (hasSequenceIds_key_groups a b c d e f g) as G1;
                   pose proof (hasSequenceIds_key_groups a b c d e f g') as G2;
                   destruct (key_groups a b c d e f g) as [[sd ck] W1];
                   destruct (key_groups a b c d e f g') as [[sd' ck'] W2]
            end
        end
    end.
    cbn [fst snd] in K, G1, G2.
    destruct K as [K1 K2]; [cbn [calls set_registry set_index]; exact Ec|].
    injection K1 as <- <-.
    rewrite !calls_emit, !hasSequenceIds_emit, K2, G1, G2.
    cbn [m_hasSequenceIds set_registry set_index]. rewrite Eh.
    split; reflexivity.
Qed.

(** X12: in line-delimited mode, and in key-grouped mode with numeric
    ids, what [Build] discovers does not depend on the corpus: with any
    two filters and registries it fails with the same error, or hands the
    emitter the same keys and descriptors in the same order. *)
Theorem X12_discovery_is_independent_of_the_corpus
  cfg isPrimary skip chunkSize heap corp1 corp2 data fuel :
  (1 <= m_bufferSize cfg)%nat -> Z.of_nat (m_bufferSize cfg) < SIZE_MAX ->
  (enough_fuel data <= fuel)%nat ->
  m_numericSequenceId cfg = true \/ by_lines cfg skip data = true ->
  match Build cfg fuel (fresh cfg isPrimary skip chunkSize heap corp1 data),
        Build cfg fuel (fresh cfg isPrimary skip chunkSize heap corp2 data)
  with
  | Ok _ w1, Ok _ w2 =>
      calls w1 = calls w2 /\ m_hasSequenceIds w1 = m_hasSequenceIds w2
  | Raise e1 _, Raise e2 _ => e1 = e2
  | _, _ => False
  end.
Proof.
  intros H1 H2 Hf Mode.
  pose proof (scan_calls_indep cfg data
                (fresh cfg isPrimary skip chunkSize heap corp1 data)
                (fresh cfg isPrimary skip chunkSize heap corp2 data)
                eq_refl eq_refl eq_refl eq_refl) as S.
  cbn [fresh m_hasSequenceIds] in S. rewrite negb_involutive in S.
  specialize (S Mode).
  destruct (Build_fresh_cases cfg isPrimary skip chunkSize heap corp1 data fuel
              H1 H2 Hf) as [(a & A & Ea & Sa & Oa)|(ea & a & A & Ea & Sa & Oa)];
    destruct (Build_fresh_cases cfg isPrimary skip chunkSize heap corp2 data
                fuel H1 H2 Hf)
      as [(b & B & Eb & Sb & Ob)|(eb & b & B & Eb & Sb & Ob)];
    rewrite Ea, Eb; fold (fresh cfg isPrimary skip chunkSize heap corp1 data) in Sa;
    rewrite Sa, Sb in S; try contradiction; [|exact S].
  unfold outside in Oa, Ob.
  injection Oa as -> _ _ ->. injection Ob as -> _ _ ->. exact S.
Qed.

Lemma X12_witness :
  match Build (config true 3) 40
          (fresh (config true 3) true false 32 no_heap everything two_keys),
        Build (config true 3) 40
          (fresh (config true 3) true false 32 no_heap nothing two_keys)
  with
  | Ok _ w1, Ok _ w2 =>
      calls w1 = calls w2 /\ m_hasSequenceIds w1 = m_hasSequenceIds w2
  | Raise e1 _, Raise e2 _ => e1 = e2
  | _, _ => False
  end.
Proof.
  apply X12_discovery_is_independent_of_the_corpus;
    [vm_compute; lia | vm_compute; reflexivity | vm_compute; lia
    | left; reflexivity].
Defined.
